(** * RISC-V hart topology extraction and RHCT synthesis

    A shallow embedding of
      DynamicTablesPkg/Library/FdtHwInfoParserLib/RiscV/Intc/RiscVIntcParser.c
      DynamicTablesPkg/Library/Acpi/RiscV/AcpiRhctLibRiscV/RhctGenerator.c
    and the properties of the two stages.

    Conventions of the embedding.
    - C integers are [Z]; every narrowing the C code performs is written
      out with [u8], [u16], [u32], [u64].
    - [ASSERT] and [DEBUG] are the release-build no-ops.
    - A nullable pointer to a pool block is an [option]; the block's
      contents travel with the pointer.
    - A memory access through NULL or outside its block is [Fault]. *)

From Stdlib Require Import String Ascii ZArith List Lia Bool.
From coqutil Require Import Byte Word.LittleEndianList.
Import ListNotations.
Local Open Scope Z_scope.

(* ================================================================== *)
(** * Machine integers and status codes                                *)
(* ================================================================== *)

Definition u8  (z : Z) : Z := z mod 2 ^ 8.
Definition u16 (z : Z) : Z := z mod 2 ^ 16.
Definition u32 (z : Z) : Z := z mod 2 ^ 32.
Definition u64 (z : Z) : Z := z mod 2 ^ 64.

Definition MAX_UINT16 : Z := 65535.
Definition MAX_UINT32 : Z := 4294967295.

Inductive EFI_STATUS : Set :=
| EFI_SUCCESS
| EFI_INVALID_PARAMETER
| EFI_UNSUPPORTED
| EFI_BAD_BUFFER_SIZE
| EFI_BUFFER_TOO_SMALL
| EFI_NOT_FOUND
| EFI_OUT_OF_RESOURCES
| EFI_ABORTED
| EFI_ACCESS_DENIED
| EFI_ALREADY_STARTED
| EFI_DEVICE_ERROR.

Definition EFI_ERROR (s : EFI_STATUS) : bool :=
  match s with EFI_SUCCESS => false | _ => true end.

Definition is_not_found (s : EFI_STATUS) : bool :=
  match s with EFI_NOT_FOUND => true | _ => false end.

(** [ALIGN_VALUE] of Base.h:
    [(Value) + (((Alignment) - (Value)) & ((Alignment) - 1))]. *)
Definition ALIGN_VALUE (Value Alignment : Z) : Z :=
  Value + Z.land (Alignment - Value) (Alignment - 1).

(* ================================================================== *)
(** * Undefined behaviour as an outcome                                *)
(* ================================================================== *)

Inductive outcome (A : Type) : Type :=
| Done (a : A)
| Fault.
Arguments Done {A} a.
Arguments Fault {A}.

Definition obind {A B : Type} (m : outcome A) (f : A -> outcome B) : outcome B :=
  match m with
  | Done a => f a
  | Fault => Fault
  end.

Declare Scope outcome_scope.
Delimit Scope outcome_scope with outcome.
Notation "x <- m ;; k" := (obind m (fun x => k))
  (at level 61, m at next level, right associativity) : outcome_scope.
Notation "' p <- m ;; k" := (obind m (fun x => let 'p := x in k))
  (at level 61, p pattern, m at next level, right associativity) : outcome_scope.
Local Open Scope outcome_scope.

(* ================================================================== *)
(** * The memory pool (MemoryAllocationLib)                            *)
(* ================================================================== *)

(** Blocks are named by the serial number of the allocation that made
    them.  [pool_grant] says which requests the allocator satisfies, so
    that every pattern of allocation failure is covered. *)
Record Pool : Type := mkPool {
  pool_next  : nat;
  pool_live  : list nat;
  pool_grant : nat -> bool
}.

Definition AllocateZeroPool (p : Pool) : option nat * Pool :=
  let id := pool_next p in
  if pool_grant p id
  then (Some id, mkPool (S id) (id :: pool_live p) (pool_grant p))
  else (None, mkPool (S id) (pool_live p) (pool_grant p)).

Definition is_live (id : nat) (p : Pool) : bool :=
  existsb (Nat.eqb id) (pool_live p).

(** [FreePool] of a block that is not allocated corrupts the pool. *)
Definition FreePool (id : nat) (p : Pool) : outcome Pool :=
  if is_live id p
  then Done (mkPool (pool_next p)
                    (filter (fun x => negb (Nat.eqb id x)) (pool_live p))
                    (pool_grant p))
  else Fault.

(* ================================================================== *)
(** * Byte buffers                                                     *)
(* ================================================================== *)

Definition x00 : byte := Byte.x00.

(** Overwrite the head of [buf] by [bs]. *)
Fixpoint blit (bs buf : list byte) {struct bs} : outcome (list byte) :=
  match bs with
  | [] => Done buf
  | b :: bs' =>
      match buf with
      | [] => Fault
      | _ :: buf' => r <- blit bs' buf' ;; Done (b :: r)
      end
  end.

Fixpoint poke_at (buf : list byte) (off : nat) (bs : list byte) {struct off}
  : outcome (list byte) :=
  match off with
  | O => blit bs buf
  | S off' =>
      match buf with
      | [] => match bs with [] => Done [] | _ :: _ => Fault end
      | x :: buf' => r <- poke_at buf' off' bs ;; Done (x :: r)
      end
  end.

(** Store the bytes [bs] at byte offset [off] of the block [buf]. *)
Definition poke (buf : list byte) (off : Z) (bs : list byte) : outcome (list byte) :=
  if off <? 0 then Fault else poke_at buf (Z.to_nat off) bs.

(** The [n] bytes at offset [off]. *)
Definition peek (buf : list byte) (off : Z) (n : nat) : list byte :=
  firstn n (skipn (Z.to_nat off) buf).

(** A little-endian store of the low [w] bytes of [v]. *)
Definition store (buf : list byte) (off : Z) (w : nat) (v : Z) : outcome (list byte) :=
  poke buf off (le_split w v).

Definition load (buf : list byte) (off : Z) (w : nat) : Z :=
  le_combine (peek buf off w).

(** An array of UINT32 as it lies in memory. *)
Definition words_bytes (ws : list Z) : list byte :=
  flat_map (le_split 4) ws.

(** Length of a NUL-terminated string: the characters before the first
    NUL.  A string is given by its characters; the terminator follows
    them in memory. *)
Fixpoint AsciiStrLen (s : list byte) : Z :=
  match s with
  | [] => 0
  | c :: s' => if Byte.eqb c x00 then 0 else 1 + AsciiStrLen s'
  end.

Definition AsciiStrSize (s : list byte) : Z := AsciiStrLen s + 1.

Fixpoint cstring (s : list byte) : list byte :=
  match s with
  | [] => []
  | c :: s' => if Byte.eqb c x00 then [] else c :: cstring s'
  end.

(* ================================================================== *)
(** * RhctGenerator.c: declarations                                    *)
(* ================================================================== *)

(** A structure member: its byte offset and its size in bytes. *)
Record Field : Type := mkField { f_off : Z; f_size : nat }.

(** The RHCT structures and constants are declared in
    IndustryStandard/Acpi66.h, which is not among the sources at hand.
    The generator is therefore parametric in what it takes from that
    header: the [sizeof] values, the members it assigns and the
    constants it stores. *)
Class RhctDecls : Type := {
  sizeof_RHCT_TABLE : Z;        (* EFI_ACPI_6_6_RISCV_HART_CAPABILITIES_TABLE *)
  Rhct_NodeCount    : Field;
  Rhct_NodeOffset   : Field;
  Rhct_TimeBaseFreq : Field;
  Rhct_Flags        : Field;
  sizeof_RHCT_NODE_HEADER : Z;  (* EFI_ACPI_6_6_RHCT_NODE_HEADER *)
  Node_Type     : Field;
  Node_Length   : Field;
  Node_Revision : Field;
  sizeof_RHCT_ISA_STRING_NODE : Z;
  sizeof_RHCT_CMO_NODE : Z;
  Cmo_CbomBlockSize : Field;
  Cmo_CbopBlockSize : Field;
  Cmo_CbozBlockSize : Field;
  sizeof_RHCT_HART_INFO_NODE : Z;
  Hart_NumOffsets : Field;
  Hart_Uid        : Field;
  Hart_Offsets    : Z;          (* offset of the trailing UINT32 array *)
  EFI_ACPI_6_6_RHCT_NODE_TYPE_ISA_STRING : Z;
  EFI_ACPI_6_6_RHCT_NODE_TYPE_CMO        : Z;
  EFI_ACPI_6_6_RHCT_NODE_TYPE_HART_INFO  : Z;
  EFI_ACPI_6_6_RHCT_ISA_NODE_STRUCTURE_VERSION       : Z;
  EFI_ACPI_6_6_RHCT_CMO_NODE_STRUCTURE_VERSION       : Z;
  EFI_ACPI_6_6_RHCT_HART_INFO_NODE_STRUCTURE_VERSION : Z;
  EFI_ACPI_6_6_RHCT_FLAG_TIMER_CANNOT_WAKEUP_CPU     : Z
}.

(** Modelled from the spec: the structure declarations of Acpi66.h are
    missing; this instance lays the table out as the output format of
    the specification describes it.  Every node starts with a 5-byte
    header (2-byte type, 2-byte length, 1-byte revision); the ISA node
    adds a 2-byte string length; the CMO node three 1-byte block sizes;
    the Hart-Info node a 2-byte offset count, a 4-byte hart uid and the
    4-byte offsets.  The table is a 36-byte generic header followed by
    a 4-byte node count, a 4-byte first-node offset, an 8-byte frequency
    and 8 bytes of flags.  Node types and versions are not fixed by the
    specification; the values below are those of the RHCT definition. *)
#[local] Instance SpecLayout : RhctDecls := {|
  sizeof_RHCT_TABLE := 60;
  Rhct_NodeCount    := mkField 36 4;
  Rhct_NodeOffset   := mkField 40 4;
  Rhct_TimeBaseFreq := mkField 44 8;
  Rhct_Flags        := mkField 52 8;
  sizeof_RHCT_NODE_HEADER := 5;
  Node_Type     := mkField 0 2;
  Node_Length   := mkField 2 2;
  Node_Revision := mkField 4 1;
  sizeof_RHCT_ISA_STRING_NODE := 7;
  sizeof_RHCT_CMO_NODE := 8;
  Cmo_CbomBlockSize := mkField 5 1;
  Cmo_CbopBlockSize := mkField 6 1;
  Cmo_CbozBlockSize := mkField 7 1;
  sizeof_RHCT_HART_INFO_NODE := 11;
  Hart_NumOffsets := mkField 5 2;
  Hart_Uid        := mkField 7 4;
  Hart_Offsets    := 11;
  EFI_ACPI_6_6_RHCT_NODE_TYPE_ISA_STRING := 0;
  EFI_ACPI_6_6_RHCT_NODE_TYPE_CMO        := 1;
  EFI_ACPI_6_6_RHCT_NODE_TYPE_HART_INFO  := 65535;
  EFI_ACPI_6_6_RHCT_ISA_NODE_STRUCTURE_VERSION       := 1;
  EFI_ACPI_6_6_RHCT_CMO_NODE_STRUCTURE_VERSION       := 1;
  EFI_ACPI_6_6_RHCT_HART_INFO_NODE_STRUCTURE_VERSION := 1;
  EFI_ACPI_6_6_RHCT_FLAG_TIMER_CANNOT_WAKEUP_CPU     := 1
|}.

(** What the proofs need of a layout: members lie inside their
    structure and do not overlap, the length member is the 16-bit
    member the code casts to, and the structures are small. *)
Definition fits (f : Field) (lo hi : Z) : bool :=
  (lo <=? f_off f) && (f_off f + Z.of_nat (f_size f) <=? hi).

Definition before (f g : Field) : bool :=
  f_off f + Z.of_nat (f_size f) <=? f_off g.

Definition layout_ok `{RhctDecls} : bool :=
  (0 <? sizeof_RHCT_TABLE) && (sizeof_RHCT_TABLE <? 65536)
  && fits Node_Type 0 sizeof_RHCT_NODE_HEADER
  && fits Node_Length 0 sizeof_RHCT_NODE_HEADER
  && fits Node_Revision 0 sizeof_RHCT_NODE_HEADER
  && before Node_Type Node_Length
  && before Node_Length Node_Revision
  && Nat.eqb (f_size Node_Length) 2
  && (sizeof_RHCT_NODE_HEADER + 2 <=? sizeof_RHCT_ISA_STRING_NODE)
  && (sizeof_RHCT_ISA_STRING_NODE <? 65536)
  && fits Cmo_CbomBlockSize sizeof_RHCT_NODE_HEADER sizeof_RHCT_CMO_NODE
  && fits Cmo_CbopBlockSize sizeof_RHCT_NODE_HEADER sizeof_RHCT_CMO_NODE
  && fits Cmo_CbozBlockSize sizeof_RHCT_NODE_HEADER sizeof_RHCT_CMO_NODE
  && (sizeof_RHCT_CMO_NODE <? 65536)
  && fits Hart_NumOffsets sizeof_RHCT_NODE_HEADER sizeof_RHCT_HART_INFO_NODE
  && fits Hart_Uid sizeof_RHCT_NODE_HEADER sizeof_RHCT_HART_INFO_NODE
  && before Hart_NumOffsets Hart_Uid
  && Nat.eqb (f_size Hart_NumOffsets) 2
  && Nat.eqb (f_size Hart_Uid) 4
  && (Hart_Offsets =? sizeof_RHCT_HART_INFO_NODE)
  && (sizeof_RHCT_HART_INFO_NODE <? 65536).

(** ** Configuration manager objects *)

Record CM_RISCV_CMO_NODE : Type := mkCmo {
  CbomBlockSize : Z;
  CbopBlockSize : Z;
  CbozBlockSize : Z
}.

Record CM_RISCV_TIMER_INFO : Type := mkTimer {
  TimerCannotWakeCpu : bool;
  TimeBaseFrequency  : Z
}.

(** [IsaString] is a [CHAR8 *]: NULL or the characters of a string. *)
Record CM_RISCV_ISA_STRING_NODE : Type := mkIsa {
  IsaString : option (list byte)
}.

Record CM_RISCV_RINTC_INFO : Type := mkRintc {
  Rintc_Version    : Z;
  Rintc_Flags      : Z;
  HartId           : Z;
  AcpiProcessorUid : Z;
  ExtIntcId        : Z;
  ImsicBaseAddress : Z;
  ImsicSize        : Z
}.

(** The objects a node-indexer entry can point to. *)
Inductive ObjRef : Type :=
| ObjNull
| ObjCmo (i : nat)
| ObjRintc (i : nat).

Record RHCT_NODE_INDEXER : Type := mkIndexer {
  Object : ObjRef;
  Offset : Z
}.

(** A pointer into the node-indexer array: the entries before it (last
    one first) and the entries from it on. *)
Definition IndexerCursor : Type :=
  (list RHCT_NODE_INDEXER * list RHCT_NODE_INDEXER)%type.

(** Fill the entry under the cursor and advance the cursor by one. *)
Definition indexer_put (c : IndexerCursor) (e : RHCT_NODE_INDEXER)
  : outcome IndexerCursor :=
  match snd c with
  | [] => Fault
  | _ :: rest => Done (e :: fst c, rest)
  end.

Definition indexer_array (c : IndexerCursor) : list RHCT_NODE_INDEXER :=
  rev_append (fst c) (snd c).

(** The answers of the configuration manager and of the table-header
    writer (TableHelperLib), both outside this module.  A query gives a
    status and the object list; [cm_AddAcpiHeader Length] gives the
    status of [AddAcpiHeader] and the header bytes it leaves at the
    start of the table. *)
Record EDKII_CONFIGURATION_MANAGER_PROTOCOL : Type := mkCfgMgr {
  cm_TimerInfo     : EFI_STATUS * list CM_RISCV_TIMER_INFO;
  cm_IsaStringInfo : EFI_STATUS * list CM_RISCV_ISA_STRING_NODE;
  cm_CmoInfo       : EFI_STATUS * list CM_RISCV_CMO_NODE;
  cm_RintcInfo     : EFI_STATUS * list CM_RISCV_RINTC_INFO;
  cm_AddAcpiHeader : Z -> EFI_STATUS * list byte
}.

(** [GET_OBJECT_LIST] (ConfigurationManagerHelper.h): on an error the
    list is NULL; its count is then taken to be 0. *)
Definition GetObjectList {T : Type} (r : EFI_STATUS * list T) : EFI_STATUS * list T :=
  if EFI_ERROR (fst r) then (fst r, []) else r.

Definition GetERiscVObjTimerInfo (Cfg : EDKII_CONFIGURATION_MANAGER_PROTOCOL) :=
  GetObjectList (cm_TimerInfo Cfg).
Definition GetERiscVObjIsaStringInfo (Cfg : EDKII_CONFIGURATION_MANAGER_PROTOCOL) :=
  GetObjectList (cm_IsaStringInfo Cfg).
Definition GetERiscVObjCmoInfo (Cfg : EDKII_CONFIGURATION_MANAGER_PROTOCOL) :=
  GetObjectList (cm_CmoInfo Cfg).
Definition GetERiscVObjRintcInfo (Cfg : EDKII_CONFIGURATION_MANAGER_PROTOCOL) :=
  GetObjectList (cm_RintcInfo Cfg).

(** The element count of an object list (a UINT32 in the descriptor). *)
Definition Count {T : Type} (l : list T) : Z := Z.of_nat (length l).

Record CM_STD_OBJ_ACPI_TABLE_INFO : Type := mkTableInfo {
  AcpiTableRevision : Z
}.

(** [ACPI_RHCT_GENERATOR]: the revisions of its header and the private
    data. *)
Record ACPI_RHCT_GENERATOR : Type := mkGenerator {
  Gen_AcpiTableRevision    : Z;
  Gen_MinAcpiTableRevision : Z;
  RhctNodeCount : Z;
  NodeIndexer   : option (nat * list RHCT_NODE_INDEXER)
}.

(** The generator, the caller's table pointer [*Table] and the pool. *)
Record RhctWorld : Type := mkWorld {
  Generator : ACPI_RHCT_GENERATOR;
  Table     : option (nat * list byte);
  Heap      : Pool
}.

Definition set_NodeIndexer (g : ACPI_RHCT_GENERATOR)
  (n : option (nat * list RHCT_NODE_INDEXER)) : ACPI_RHCT_GENERATOR :=
  mkGenerator (Gen_AcpiTableRevision g) (Gen_MinAcpiTableRevision g)
              (RhctNodeCount g) n.

(* ================================================================== *)
(** * RhctGenerator.c: the size planner                                *)
(* ================================================================== *)

(** [X->F = v] for the structure at byte offset [base] of the table. *)
Definition store_field (buf : list byte) (base : Z) (f : Field) (v : Z)
  : outcome (list byte) :=
  store buf (base + f_off f) (f_size f) v.

Definition load_field (buf : list byte) (base : Z) (f : Field) : Z :=
  load buf (base + f_off f) (f_size f).

Section Generator.
Context `{L : RhctDecls}.

(** GetSizeofCmoNodes: the loop, with [Size] and the index [k] of the
    object [NodeList] points to. *)
Fixpoint GetSizeofCmoNodes_loop (NodeStartOffset : Z)
  (NodeList : list CM_RISCV_CMO_NODE) (k : nat) (Size : Z)
  (NodeIndexer : IndexerCursor) : outcome (Z * IndexerCursor) :=
  match NodeList with
  | [] => Done (Size, NodeIndexer)
  | _ :: NodeList' =>
      c <- indexer_put NodeIndexer
             (mkIndexer (ObjCmo k) (u32 (Size + NodeStartOffset))) ;;
      GetSizeofCmoNodes_loop NodeStartOffset NodeList' (S k)
        (u64 (Size + sizeof_RHCT_CMO_NODE)) c
  end.

Definition GetSizeofCmoNodes (NodeStartOffset : Z)
  (NodeList : list CM_RISCV_CMO_NODE) (NodeIndexer : IndexerCursor)
  : outcome (Z * IndexerCursor) :=
  GetSizeofCmoNodes_loop NodeStartOffset NodeList 0 0 NodeIndexer.

(** GetIsaStringNodeSize: the status and the value left in [*Size]. *)
Definition GetIsaStringNodeSize (IsaString : list byte) : EFI_STATUS * Z :=
  let Size := u32 (sizeof_RHCT_ISA_STRING_NODE
                   + ALIGN_VALUE (AsciiStrSize IsaString) 2) in
  if MAX_UINT16 <? Size then (EFI_INVALID_PARAMETER, Size)
  else (EFI_SUCCESS, Size).

Definition GetHartInfoSize (NumOffsets : Z) : Z :=
  u32 (sizeof_RHCT_HART_INFO_NODE + 4 * NumOffsets).

Fixpoint GetSizeofHartInfoNodes_loop (NodeStartOffset : Z)
  (NodeList : list CM_RISCV_RINTC_INFO) (k : nat) (NumOffsets : Z) (Size : Z)
  (NodeIndexer : IndexerCursor) : outcome (Z * IndexerCursor) :=
  match NodeList with
  | [] => Done (Size, NodeIndexer)
  | _ :: NodeList' =>
      c <- indexer_put NodeIndexer
             (mkIndexer (ObjRintc k) (u32 (Size + NodeStartOffset))) ;;
      GetSizeofHartInfoNodes_loop NodeStartOffset NodeList' (S k) NumOffsets
        (u64 (Size + GetHartInfoSize NumOffsets)) c
  end.

Definition GetSizeofHartInfoNodes (NodeStartOffset : Z)
  (NodeList : list CM_RISCV_RINTC_INFO) (NumOffsets : Z)
  (NodeIndexer : IndexerCursor) : outcome (Z * IndexerCursor) :=
  GetSizeofHartInfoNodes_loop NodeStartOffset NodeList 0 NumOffsets 0 NodeIndexer.

(* ================================================================== *)
(** * RhctGenerator.c: the node writers                                *)
(* ================================================================== *)

(** AddCmoNodes.  [CmoNode] is set once, before the loop, and is not
    advanced: every iteration fills the node at [NodesStartOffset]. *)
Fixpoint AddCmoNodes (Rhct : list byte) (NodesStartOffset : Z)
  (NodeList : list CM_RISCV_CMO_NODE) : outcome (EFI_STATUS * list byte) :=
  match NodeList with
  | [] => Done (EFI_SUCCESS, Rhct)
  | Node :: NodeList' =>
      let CmoNode := NodesStartOffset in
      let NodeLength := sizeof_RHCT_CMO_NODE in
      b <- store_field Rhct CmoNode Node_Type EFI_ACPI_6_6_RHCT_NODE_TYPE_CMO ;;
      b <- store_field b CmoNode Node_Length (u16 NodeLength) ;;
      b <- store_field b CmoNode Node_Revision
             EFI_ACPI_6_6_RHCT_CMO_NODE_STRUCTURE_VERSION ;;
      b <- store_field b CmoNode Cmo_CbomBlockSize (CbomBlockSize Node) ;;
      b <- store_field b CmoNode Cmo_CbopBlockSize (CbopBlockSize Node) ;;
      b <- store_field b CmoNode Cmo_CbozBlockSize (CbozBlockSize Node) ;;
      AddCmoNodes b NodesStartOffset NodeList'
  end.

(** AsciiStrCpyS (BaseLib): copies the string and its terminator when
    the destination holds it, and nothing otherwise.  The caller drops
    the status. *)
Definition AsciiStrCpyS (buf : list byte) (Destination : Z) (DestMax : Z)
  (Source : list byte) : outcome (list byte) :=
  if AsciiStrLen Source <? DestMax
  then poke buf Destination (cstring Source ++ [x00])
  else Done buf.

(** AddIsaStringNode. *)
Definition AddIsaStringNode (Rhct : list byte) (NodesStartOffset : Z)
  (IsaString : list byte) : outcome (EFI_STATUS * list byte) :=
  let IsaStringNode := NodesStartOffset in
  let '(Status, NodeLength) := GetIsaStringNodeSize IsaString in
  if EFI_ERROR Status then Done (Status, Rhct)
  else
    b <- store_field Rhct IsaStringNode Node_Type
           EFI_ACPI_6_6_RHCT_NODE_TYPE_ISA_STRING ;;
    b <- store_field b IsaStringNode Node_Length (u16 NodeLength) ;;
    b <- store_field b IsaStringNode Node_Revision
           EFI_ACPI_6_6_RHCT_ISA_NODE_STRUCTURE_VERSION ;;
    let TgtIsaString := IsaStringNode + sizeof_RHCT_ISA_STRING_NODE in
    let TgtIsaLength := IsaStringNode + sizeof_RHCT_NODE_HEADER in
    let IsaLength := u16 (AsciiStrSize IsaString + 1) in
    b <- store b TgtIsaLength 2 IsaLength ;;
    b <- AsciiStrCpyS b TgtIsaString IsaLength IsaString ;;
    Done (EFI_SUCCESS, b).

(** The [Length] bytes [CopyMem] reads from the UINT32 array [Offsets]. *)
Definition CopyMem_words (Offsets : option (nat * list Z)) (NumWords : Z)
  : outcome (list byte) :=
  if NumWords <=? 0 then Done []
  else match Offsets with
       | None => Fault
       | Some (_, ws) =>
           if NumWords <=? Z.of_nat (length ws)
           then Done (words_bytes (firstn (Z.to_nat NumWords) ws))
           else Fault
       end.

(** AddHartInfoNodes: the loop, with the offset [HartInfoNode] of the
    node to fill. *)
Fixpoint AddHartInfoNodes_loop (Rhct : list byte) (HartInfoNode : Z)
  (NumOffsets : Z) (Offsets : option (nat * list Z))
  (NodeList : list CM_RISCV_RINTC_INFO) : outcome (EFI_STATUS * list byte) :=
  match NodeList with
  | [] => Done (EFI_SUCCESS, Rhct)
  | Node :: NodeList' =>
      let NodeLength := GetHartInfoSize NumOffsets in
      if MAX_UINT16 <? NodeLength then Done (EFI_INVALID_PARAMETER, Rhct)
      else
        b <- store_field Rhct HartInfoNode Node_Type
               EFI_ACPI_6_6_RHCT_NODE_TYPE_HART_INFO ;;
        b <- store_field b HartInfoNode Node_Length (u16 NodeLength) ;;
        b <- store_field b HartInfoNode Node_Revision
               EFI_ACPI_6_6_RHCT_HART_INFO_NODE_STRUCTURE_VERSION ;;
        b <- store_field b HartInfoNode Hart_NumOffsets NumOffsets ;;
        b <- store_field b HartInfoNode Hart_Uid (AcpiProcessorUid Node) ;;
        src <- CopyMem_words Offsets NumOffsets ;;
        b <- poke b (HartInfoNode + Hart_Offsets) src ;;
        AddHartInfoNodes_loop b (HartInfoNode + NodeLength) NumOffsets Offsets
          NodeList'
  end.

Definition AddHartInfoNodes (Rhct : list byte) (NodesStartOffset : Z)
  (NumOffsets : Z) (Offsets : option (nat * list Z))
  (NodeList : list CM_RISCV_RINTC_INFO) : outcome (EFI_STATUS * list byte) :=
  AddHartInfoNodes_loop Rhct NodesStartOffset NumOffsets Offsets NodeList.

(** [Offsets[Idx] = v] on the scratch array. *)
Definition Offsets_set (Offsets : option (nat * list Z)) (Idx : nat) (v : Z)
  : outcome (option (nat * list Z)) :=
  match Offsets with
  | None => Fault
  | Some (p, ws) =>
      if (Idx <? length ws)%nat
      then Done (Some (p, firstn Idx ws ++ v :: skipn (S Idx) ws))
      else Fault
  end.

(* ================================================================== *)
(** * RhctGenerator.c: BuildRhctTable and FreeRhctTableResources       *)
(* ================================================================== *)

Definition with_Table (w : RhctWorld) (t : option (nat * list byte)) : RhctWorld :=
  mkWorld (Generator w) t (Heap w).

Definition with_Heap (w : RhctWorld) (h : Pool) : RhctWorld :=
  mkWorld (Generator w) (Table w) h.

Definition with_Generator (w : RhctWorld) (g : ACPI_RHCT_GENERATOR) : RhctWorld :=
  mkWorld g (Table w) (Heap w).

(** The label [error_handler] of BuildRhctTable. *)
Definition error_handler (Status : EFI_STATUS) (w : RhctWorld)
  : outcome (EFI_STATUS * RhctWorld) :=
  w1 <- match NodeIndexer (Generator w) with
        | Some (p, _) =>
            h <- FreePool p (Heap w) ;;
            Done (with_Heap (with_Generator w (set_NodeIndexer (Generator w) None)) h)
        | None => Done w
        end ;;
  w2 <- match Table w1 with
        | Some (p, _) =>
            h <- FreePool p (Heap w1) ;;
            Done (with_Heap (with_Table w1 None) h)
        | None => Done w1
        end ;;
  Done (Status, w2).

(** What the planning part of BuildRhctTable hands to the writing part. *)
Record RhctPlan : Type := mkPlan {
  plan_TableSize       : Z;
  plan_IsaStringOffset : Z;
  plan_CmoOffset       : Z;
  plan_HartInfoOffset  : Z;
  plan_Indexer         : IndexerCursor
}.

(** BuildRhctTable, "Calculate the size of the RHCT table": the status
    is an error when the function jumps to [error_handler] from here.
    The offset of a group that does not exist is not assigned by the
    code and not used; it is 0 here. *)
Definition BuildRhctTable_plan
  (IsaStringNode : list CM_RISCV_ISA_STRING_NODE)
  (CmoNodeList : list CM_RISCV_CMO_NODE)
  (RintcInfoNodeList : list CM_RISCV_RINTC_INFO)
  (RhctNodeCount : Z) (NodeIndexer : IndexerCursor)
  : outcome (EFI_STATUS * RhctPlan) :=
  let IsaStringNodeCount := Count IsaStringNode in
  let CmoNodeCount := Count CmoNodeList in
  let HartInfoNodeCount := Count RintcInfoNodeList in
  let TableSize := u32 sizeof_RHCT_TABLE in
  (* ISA string node *)
  '(Status, TableSize, IsaStringOffset) <-
     (if 0 <? IsaStringNodeCount then
        match IsaStringNode with
        | [] => Fault
        | Node :: _ =>
            match IsaString Node with
            | None => Fault
            | Some s =>
                let '(Status, NodeSize) := GetIsaStringNodeSize s in
                if EFI_ERROR Status then Done (Status, TableSize, TableSize)
                else Done (EFI_SUCCESS, u32 (TableSize + NodeSize), TableSize)
            end
        end
      else Done (EFI_SUCCESS, TableSize, 0)) ;;
  if EFI_ERROR Status
  then Done (Status, mkPlan TableSize IsaStringOffset 0 0 NodeIndexer)
  else
  (* CMO nodes *)
  '(Status, TableSize, CmoOffset, NodeIndexer) <-
     (if 0 <? CmoNodeCount then
        let CmoOffset := TableSize in
        '(Size, c) <- GetSizeofCmoNodes CmoOffset CmoNodeList NodeIndexer ;;
        let NodeSize := u32 Size in
        if MAX_UINT32 <? NodeSize
        then Done (EFI_INVALID_PARAMETER, TableSize, CmoOffset, c)
        else Done (EFI_SUCCESS, u32 (TableSize + NodeSize), CmoOffset, c)
      else Done (EFI_SUCCESS, TableSize, 0, NodeIndexer)) ;;
  if EFI_ERROR Status
  then Done (Status, mkPlan TableSize IsaStringOffset CmoOffset 0 NodeIndexer)
  else
  (* Hart Info nodes *)
  '(Status, TableSize, HartInfoOffset, NodeIndexer) <-
     (if 0 <? HartInfoNodeCount then
        let HartInfoOffset := TableSize in
        '(Size, c) <- GetSizeofHartInfoNodes HartInfoOffset RintcInfoNodeList
                        (u32 (RhctNodeCount - HartInfoNodeCount)) NodeIndexer ;;
        let NodeSize := u32 Size in
        if MAX_UINT32 <? NodeSize
        then Done (EFI_INVALID_PARAMETER, TableSize, HartInfoOffset, c)
        else Done (EFI_SUCCESS, u32 (TableSize + NodeSize), HartInfoOffset, c)
      else Done (EFI_SUCCESS, TableSize, 0, NodeIndexer)) ;;
  if EFI_ERROR Status
  then Done (Status, mkPlan TableSize IsaStringOffset CmoOffset HartInfoOffset NodeIndexer)
  else
  if MAX_UINT32 <? TableSize
  then Done (EFI_INVALID_PARAMETER,
             mkPlan TableSize IsaStringOffset CmoOffset HartInfoOffset NodeIndexer)
  else Done (EFI_SUCCESS,
             mkPlan TableSize IsaStringOffset CmoOffset HartInfoOffset NodeIndexer).

(** BuildRhctTable, the scratch array: from
    [Offsets = AllocateZeroPool (..)] to [Offsets[Idx++] = CmoOffset].
    The allocation is not checked. *)
Definition BuildOffsets (h : Pool) (NumOffsets IsaStringNodeCount CmoNodeCount : Z)
  (IsaStringOffset CmoOffset : Z) : outcome (option (nat * list Z) * Pool) :=
  let '(p, h) := AllocateZeroPool h in
  let Offsets :=
    match p with
    | Some id => Some (id, repeat 0 (Z.to_nat NumOffsets))
    | None => None
    end in
  let Idx := 0%nat in
  '(Offsets, Idx) <-
     (if 0 <? IsaStringNodeCount
      then o <- Offsets_set Offsets Idx IsaStringOffset ;; Done (o, S Idx)
      else Done (Offsets, Idx)) ;;
  '(Offsets, Idx) <-
     (if 0 <? CmoNodeCount
      then o <- Offsets_set Offsets Idx CmoOffset ;; Done (o, S Idx)
      else Done (Offsets, Idx)) ;;
  Done (Offsets, h).

(** BuildRhctTable from "Update RHCT table" to the call of
    AddHartInfoNodes: the writes into the allocated table [Rhct].  The
    result carries the status, the table and the pool, in which the
    scratch array [Offsets] has been allocated. *)
Definition BuildRhctTable_fill
  (TimerInfo : list CM_RISCV_TIMER_INFO)
  (IsaStringNode : list CM_RISCV_ISA_STRING_NODE)
  (CmoNodeList : list CM_RISCV_CMO_NODE)
  (RintcInfoNodeList : list CM_RISCV_RINTC_INFO)
  (RhctNodeCount : Z) (P : RhctPlan) (Rhct : list byte) (h : Pool)
  : outcome (EFI_STATUS * list byte * Pool) :=
  let IsaStringNodeCount := Count IsaStringNode in
  let CmoNodeCount := Count CmoNodeList in
  let HartInfoNodeCount := Count RintcInfoNodeList in
  Timer <- match TimerInfo with [] => Fault | t :: _ => Done t end ;;
  b <- store_field Rhct 0 Rhct_NodeCount RhctNodeCount ;;
  b <- store_field b 0 Rhct_NodeOffset sizeof_RHCT_TABLE ;;
  b <- store_field b 0 Rhct_TimeBaseFreq (TimeBaseFrequency Timer) ;;
  b <- store_field b 0 Rhct_Flags
         (if TimerCannotWakeCpu Timer
          then EFI_ACPI_6_6_RHCT_FLAG_TIMER_CANNOT_WAKEUP_CPU else 0) ;;
  '(Status, b) <-
     (if 0 <? IsaStringNodeCount then
        match IsaStringNode with
        | [] => Fault
        | Node :: _ =>
            match IsaString Node with
            | None => Fault
            | Some s => AddIsaStringNode b (plan_IsaStringOffset P) s
            end
        end
      else Done (EFI_SUCCESS, b)) ;;
  if EFI_ERROR Status then Done (Status, b, h) else
  '(Status, b) <-
     (if 0 <? CmoNodeCount
      then AddCmoNodes b (plan_CmoOffset P) CmoNodeList
      else Done (EFI_SUCCESS, b)) ;;
  if EFI_ERROR Status then Done (Status, b, h) else
  let NumOffsets := u32 (RhctNodeCount - HartInfoNodeCount) in
  '(Offsets, h) <- BuildOffsets h NumOffsets IsaStringNodeCount CmoNodeCount
                     (plan_IsaStringOffset P) (plan_CmoOffset P) ;;
  if 0 <? HartInfoNodeCount then
    '(Status, b) <- AddHartInfoNodes b (plan_HartInfoOffset P) NumOffsets
                      Offsets RintcInfoNodeList ;;
    Done (Status, b, h)
  else Done (EFI_SUCCESS, b, h).

(** BuildRhctTable. *)
Definition BuildRhctTable (AcpiTableInfo : CM_STD_OBJ_ACPI_TABLE_INFO)
  (CfgMgrProtocol : EDKII_CONFIGURATION_MANAGER_PROTOCOL) (w : RhctWorld)
  : outcome (EFI_STATUS * RhctWorld) :=
  let This := Generator w in
  if (AcpiTableRevision AcpiTableInfo <? Gen_MinAcpiTableRevision This)
     || (Gen_AcpiTableRevision This <? AcpiTableRevision AcpiTableInfo)
  then Done (EFI_INVALID_PARAMETER, w)
  else
  let w := with_Table w None in
  let '(Status, TimerInfo) := GetERiscVObjTimerInfo CfgMgrProtocol in
  if EFI_ERROR Status then error_handler Status w else
  let '(Status, IsaStringNode) := GetERiscVObjIsaStringInfo CfgMgrProtocol in
  if EFI_ERROR Status then error_handler Status w else
  let RhctNodeCount := Count IsaStringNode in
  let '(Status, CmoNodeList) := GetERiscVObjCmoInfo CfgMgrProtocol in
  if EFI_ERROR Status && negb (is_not_found Status) then error_handler Status w else
  let RhctNodeCount := u32 (RhctNodeCount + Count CmoNodeList) in
  let '(Status, RintcInfoNodeList) := GetERiscVObjRintcInfo CfgMgrProtocol in
  if EFI_ERROR Status then error_handler Status w else
  let RhctNodeCount := u32 (RhctNodeCount + Count RintcInfoNodeList) in
  (* Allocate Node Indexer array *)
  let '(p, h) := AllocateZeroPool (Heap w) in
  let w := with_Heap w h in
  match p with
  | None => error_handler EFI_OUT_OF_RESOURCES w
  | Some ni =>
      let zeros := repeat (mkIndexer ObjNull 0) (Z.to_nat RhctNodeCount) in
      let w := with_Generator w
                 (mkGenerator (Gen_AcpiTableRevision This)
                    (Gen_MinAcpiTableRevision This) RhctNodeCount
                    (Some (ni, zeros))) in
      '(Status, P) <- BuildRhctTable_plan IsaStringNode CmoNodeList
                        RintcInfoNodeList RhctNodeCount ([], zeros) ;;
      let w := with_Generator w
                 (set_NodeIndexer (Generator w)
                    (Some (ni, indexer_array (plan_Indexer P)))) in
      if EFI_ERROR Status then error_handler Status w else
      (* Allocate the Buffer for RHCT table *)
      let '(p, h) := AllocateZeroPool (Heap w) in
      let w := with_Heap w h in
      match p with
      | None => error_handler EFI_OUT_OF_RESOURCES w
      | Some tb =>
          let Rhct := repeat x00 (Z.to_nat (plan_TableSize P)) in
          let w := with_Table w (Some (tb, Rhct)) in
          let '(Status, Header) := cm_AddAcpiHeader CfgMgrProtocol (plan_TableSize P) in
          if EFI_ERROR Status then error_handler Status w else
          Rhct <- poke Rhct 0 Header ;;
          '(Status, Rhct, h) <- BuildRhctTable_fill TimerInfo IsaStringNode
                                  CmoNodeList RintcInfoNodeList RhctNodeCount
                                  P Rhct (Heap w) ;;
          let w := with_Heap (with_Table w (Some (tb, Rhct))) h in
          if EFI_ERROR Status then error_handler Status w
          else Done (EFI_SUCCESS, w)
      end
  end.

(** FreeRhctTableResources.  [Table] itself is the address of the
    caller's pointer and is not NULL here. *)
Definition FreeRhctTableResources (w : RhctWorld) : outcome (EFI_STATUS * RhctWorld) :=
  w1 <- match NodeIndexer (Generator w) with
        | Some (p, _) =>
            h <- FreePool p (Heap w) ;;
            Done (with_Heap (with_Generator w (set_NodeIndexer (Generator w) None)) h)
        | None => Done w
        end ;;
  match Table w1 with
  | None => Done (EFI_INVALID_PARAMETER, w1)
  | Some (p, _) =>
      h <- FreePool p (Heap w1) ;;
      Done (EFI_SUCCESS, with_Heap (with_Table w1 None) h)
  end.

End Generator.

(* ================================================================== *)
(** * The device tree and its query functions                          *)
(* ================================================================== *)

(** Modelled from the spec: the tree query adapter (FdtLib and the
    node helpers of FdtHwInfoParserLib) is outside the sources at hand.
    The specification gives its interface: enumerate named children,
    get the raw bytes of a property, resolve a reference to the node it
    designates, get the address-cell width of a node.  The tree is the
    flattened tree in traversal order; a node offset is the position of
    the node in it and the root is at offset 0.

    A property is what FdtGetProp hands out: a pointer into the blob
    and a length.  [prop_bytes] are the bytes of the value, as many as
    the length says; [prop_after] are the bytes that follow the value
    in the blob, which a read through the pointer past the length
    sees. *)
Record FdtProp : Type := mkProp {
  prop_bytes : list byte;
  prop_after : nat -> byte
}.

Record FdtNode : Type := mkNode {
  nd_name          : string;       (* node name, unit address stripped *)
  nd_depth         : nat;
  nd_compatible    : list string;  (* the "compatible" string list *)
  nd_phandle       : Z;            (* 0 when the node has none *)
  nd_address_cells : Z;            (* the answer of FdtAddressCells *)
  nd_props         : list (string * FdtProp)
}.

Definition FDT : Type := list FdtNode.

Definition fdt_node (Fdt : FDT) (Node : Z) : option FdtNode :=
  if Node <? 0 then None else nth_error Fdt (Z.to_nat Node).

Fixpoint assoc_prop (Name : string) (ps : list (string * FdtProp))
  : option FdtProp :=
  match ps with
  | [] => None
  | (n, v) :: ps' => if String.eqb n Name then Some v else assoc_prop Name ps'
  end.

(** FdtGetProp: NULL, or the bytes of the property; its length is the
    value left in [*Len]. *)
Definition FdtGetProp (Fdt : FDT) (Node : Z) (Name : string) : option FdtProp :=
  match fdt_node Fdt Node with
  | Some nd => assoc_prop Name (nd_props nd)
  | None => None
  end.

Definition PropLen (Data : FdtProp) : Z := Z.of_nat (length (prop_bytes Data)).

(** FdtNextNode with a NULL depth: the next node of the whole tree, or
    a negative error. *)
Definition FdtNextNode (Fdt : FDT) (Prev : Z) : Z :=
  if (0 <=? Prev) && (Prev + 1 <? Z.of_nat (length Fdt)) then Prev + 1 else -1.

Fixpoint find_phandle (nodes : list FdtNode) (off : Z) (Phandle : Z) : Z :=
  match nodes with
  | [] => -1
  | nd :: rest =>
      if nd_phandle nd =? Phandle then off else find_phandle rest (off + 1) Phandle
  end.

Definition FdtNodeOffsetByPhandle (Fdt : FDT) (Phandle : Z) : Z :=
  if (Phandle =? 0) || (Phandle =? MAX_UINT32) then -1
  else find_phandle Fdt 0 Phandle.

(** The nearest node before offset [k] whose depth is [d]. *)
Fixpoint find_up (Fdt : FDT) (k : nat) (d : nat) : Z :=
  match k with
  | O => -1
  | S k' =>
      match nth_error Fdt k' with
      | Some nd => if Nat.eqb (nd_depth nd) d then Z.of_nat k' else find_up Fdt k' d
      | None => find_up Fdt k' d
      end
  end.

Definition FdtParentOffset (Fdt : FDT) (Node : Z) : Z :=
  match fdt_node Fdt Node with
  | Some nd =>
      match nd_depth nd with
      | O => -1
      | S d => find_up Fdt (Z.to_nat Node) d
      end
  | None => -1
  end.

Definition FdtAddressCells (Fdt : FDT) (Node : Z) : Z :=
  match fdt_node Fdt Node with
  | Some nd => nd_address_cells nd
  | None => -1
  end.

Definition FdtNodeIsCompatible (Fdt : FDT) (Node : Z) (CompatInfo : list string) : bool :=
  match fdt_node Fdt Node with
  | Some nd =>
      existsb (fun c => existsb (String.eqb c) (nd_compatible nd)) CompatInfo
  | None => false
  end.

(** The nodes below [Branch]: those that follow it while deeper. *)
Fixpoint branch_from (nodes : list FdtNode) (off : Z) (d : nat) : list (Z * FdtNode) :=
  match nodes with
  | [] => []
  | nd :: rest =>
      if (d <? nd_depth nd)%nat then (off, nd) :: branch_from rest (off + 1) d
      else []
  end.

Definition FdtBranchNodes (Fdt : FDT) (Branch : Z) : list (Z * FdtNode) :=
  match fdt_node Fdt Branch with
  | Some nd => branch_from (skipn (S (Z.to_nat Branch)) Fdt) (Branch + 1) (nd_depth nd)
  | None => []
  end.

(** FdtGetNextNamedNodeInBranch: the status and the value left in
    [*Node]: the next node after [*Node] below [FdtBranch] with the
    given name. *)
Definition FdtGetNextNamedNodeInBranch (Fdt : FDT) (FdtBranch : Z)
  (NodeName : string) (Node : Z) : EFI_STATUS * Z :=
  let below := FdtBranchNodes Fdt FdtBranch in
  if negb (Node =? FdtBranch) && negb (existsb (fun x => fst x =? Node) below)
  then (EFI_INVALID_PARAMETER, Node)
  else
    match find (fun x => (Node <? fst x) && String.eqb (nd_name (snd x)) NodeName)
               below with
    | Some (o, _) => (EFI_SUCCESS, o)
    | None => (EFI_NOT_FOUND, Node)
    end.

Definition FdtCountNamedNodeInBranch (Fdt : FDT) (FdtBranch : Z)
  (NodeName : string) : EFI_STATUS * Z :=
  (EFI_SUCCESS,
   Count (filter (fun x => String.eqb (nd_name (snd x)) NodeName)
                 (FdtBranchNodes Fdt FdtBranch))).

(** FdtPathOffset for a child of the root. *)
Definition FdtPathOffset_root_child (Fdt : FDT) (Name : string) : Z :=
  match find (fun x => Nat.eqb (nd_depth (snd x)) 1 && String.eqb (nd_name (snd x)) Name)
             (FdtBranchNodes Fdt 0) with
  | Some (o, _) => o
  | None => -1
  end.

(** The byte at position [k] from the pointer of a property: a byte
    of the value, or, past the length, a byte of what follows. *)
Definition prop_byte (Data : FdtProp) (k : nat) : byte :=
  match nth_error (prop_bytes Data) k with
  | Some b => b
  | None => prop_after Data (k - length (prop_bytes Data))
  end.

(** A big-endian read of [w] bytes at byte offset [off] from the
    pointer of a property.  The code does not compare the offset with
    the length everywhere, and neither does this. *)
Definition be_load (Data : FdtProp) (off : nat) (w : nat) : Z :=
  le_combine (rev (map (prop_byte Data) (seq off w))).

(** Fdt32ToCpu of the [i]-th 32-bit cell and Fdt64ToCpu of the [i]-th
    64-bit cell of a property. *)
Definition cell32 (Data : FdtProp) (i : Z) : Z := be_load Data (Z.to_nat (4 * i)) 4.
Definition cell64 (Data : FdtProp) (i : Z) : Z := be_load Data (Z.to_nat (8 * i)) 8.

Definition be_bytes (w : nat) (v : Z) : list byte := rev (le_split w v).

(* ================================================================== *)
(** * RiscVIntcParser.c: declarations and state                        *)
(* ================================================================== *)

(** Constants of RiscVIntcParser.h and Acpi66.h, which are not among
    the sources at hand; the parser is parametric in them. *)
Class IntcDecls : Type := {
  IRQ_S_EXT : Z;
  IMSIC_MMIO_PAGE_SHIFT : Z;
  IMSIC_MMIO_PAGE_SZ : Z;
  EFI_ACPI_6_6_RINTC_FLAG_ENABLE : Z
}.

(** The values of the RISC-V privileged architecture and of the AIA:
    supervisor external interrupt 9, 4 KiB interrupt files. *)
#[local] Instance RiscVDecls : IntcDecls := {|
  IRQ_S_EXT := 9;
  IMSIC_MMIO_PAGE_SHIFT := 12;
  IMSIC_MMIO_PAGE_SZ := 4096;
  EFI_ACPI_6_6_RINTC_FLAG_ENABLE := 1
|}.

(** ACPI_BUILD_EXT_INTC_ID.  At both uses the operands are INT32
    values that are not negative, and the result goes through an INT32
    into the UINT32 parameter ExtIntcId of RiscVUpdateRintc: what
    arrives there is the low 32 bits of the shifted and or-ed
    operands. *)
Definition ACPI_BUILD_EXT_INTC_ID (PlicAplicId CtxIdcId : Z) : Z :=
  u32 (Z.lor (Z.shiftl PlicAplicId 24) CtxIdcId).

Definition CpuCompatibleInfo   : list string := ["riscv"%string].
Definition ImsicCompatibleInfo : list string := ["riscv,imsics"%string].
Definition AplicCompatibleInfo : list string := ["riscv,aplic"%string].
Definition PlicCompatibleInfo  : list string := ["riscv,plic0"%string].

(** The members are kept as assigned; their declared widths are in the
    missing headers. *)
Record PLIC_APLIC_COMMON_INFO : Type := mkCommon {
  Common_Version : Z;
  Common_Id      : Z;
  NumSources     : Z;
  BaseAddress    : Z;
  Common_Size    : Z;
  Common_GsiBase : Z;
  HwId           : string
}.

Record CM_RISCV_IMSIC_INFO : Type := mkImsic {
  Imsic_Version   : Z;
  Imsic_Flags     : Z;
  NumIds          : Z;
  NumGuestIds     : Z;
  GuestIndexBits  : Z;
  HartIndexBits   : Z;
  GroupIndexBits  : Z;
  GroupIndexShift : Z
}.

(** The objects handed to the configuration manager. *)
Inductive CmObj : Type :=
| CmPlicInfo  (Info : PLIC_APLIC_COMMON_INFO)
| CmAplicInfo (NumIdcs : Z) (Info : PLIC_APLIC_COMMON_INFO)
| CmImsicInfo (Info : CM_RISCV_IMSIC_INFO)
| CmRintcInfo (Info : CM_RISCV_RINTC_INFO).

(** The parser handle: the tree and the callback that adds an object
    to the configuration manager. *)
Record FDT_HW_INFO_PARSER_HANDLE : Type := mkHandle {
  Fdt       : FDT;
  HwInfoAdd : CmObj -> EFI_STATUS
}.

Record RISCV_EXT_INTC_DATA : Type := mkExtIntc {
  Data_ExtIntcNode : Z;
  Data_GsiBase     : Z
}.

(** The state of the module: the function-static [ProcUid] of
    CpuNodeParser, the file-static list head [ExtIntcList] ([None]
    while the head is the zeroed static, a list of pool blocks once
    InitializeListHead has run), the pool, and the objects the
    callback has accepted. *)
Record IntcState : Type := mkIntc {
  ProcUid     : Z;
  ExtIntcList : option (list (nat * RISCV_EXT_INTC_DATA));
  IntcHeap    : Pool;
  CmObjs      : list CmObj
}.

Definition with_ProcUid (st : IntcState) (u : Z) : IntcState :=
  mkIntc u (ExtIntcList st) (IntcHeap st) (CmObjs st).
Definition with_ExtIntcList (st : IntcState)
  (l : option (list (nat * RISCV_EXT_INTC_DATA))) : IntcState :=
  mkIntc (ProcUid st) l (IntcHeap st) (CmObjs st).
Definition with_IntcHeap (st : IntcState) (h : Pool) : IntcState :=
  mkIntc (ProcUid st) (ExtIntcList st) h (CmObjs st).
Definition with_CmObjs (st : IntcState) (l : list CmObj) : IntcState :=
  mkIntc (ProcUid st) (ExtIntcList st) (IntcHeap st) l.

Definition set_ExtIntcId (r : CM_RISCV_RINTC_INFO) (v : Z) : CM_RISCV_RINTC_INFO :=
  mkRintc (Rintc_Version r) (Rintc_Flags r) (HartId r) (AcpiProcessorUid r)
          v (ImsicBaseAddress r) (ImsicSize r).

Definition set_Imsic (r : CM_RISCV_RINTC_INFO) (a s : Z) : CM_RISCV_RINTC_INFO :=
  mkRintc (Rintc_Version r) (Rintc_Flags r) (HartId r) (AcpiProcessorUid r)
          (ExtIntcId r) a s.

Fixpoint update_at {A : Type} (l : list A) (i : nat) (f : A -> A) : list A :=
  match l, i with
  | [], _ => []
  | x :: l', O => f x :: l'
  | x :: l', S i' => x :: update_at l' i' f
  end.

(** AddSingleCmObj (CmObjectDescUtility): hands one object to the
    callback. *)
Definition AddSingleCmObj (h : FDT_HW_INFO_PARSER_HANDLE) (o : CmObj)
  (st : IntcState) : EFI_STATUS * IntcState :=
  let Status := HwInfoAdd h o in
  if EFI_ERROR Status then (Status, st)
  else (EFI_SUCCESS, with_CmObjs st (CmObjs st ++ [o])).

(** AddMultipleCmObj: hands the objects of a descriptor over one by
    one and stops at the first error. *)
Fixpoint AddMultipleCmObj (h : FDT_HW_INFO_PARSER_HANDLE)
  (l : list CM_RISCV_RINTC_INFO) (st : IntcState) : EFI_STATUS * IntcState :=
  match l with
  | [] => (EFI_SUCCESS, st)
  | r :: l' =>
      let '(Status, st) := AddSingleCmObj h (CmRintcInfo r) st in
      if EFI_ERROR Status then (Status, st) else AddMultipleCmObj h l' st
  end.

(** CreateCmObjDesc: a descriptor holding a copy of the objects, in
    one pool block. *)
Definition CreateCmObjDesc (Data : list CM_RISCV_RINTC_INFO) (st : IntcState)
  : EFI_STATUS * option (nat * list CM_RISCV_RINTC_INFO) * IntcState :=
  let '(p, heap) := AllocateZeroPool (IntcHeap st) in
  match p with
  | None => (EFI_OUT_OF_RESOURCES, None, with_IntcHeap st heap)
  | Some d => (EFI_SUCCESS, Some (d, Data), with_IntcHeap st heap)
  end.

(* ================================================================== *)
(** * RiscVIntcParser.c: the hart topology builder                     *)
(* ================================================================== *)

Section Parser.
Context `{K : IntcDecls}.

(** CpuNodeParser: the status, the record written through [RintcInfo]
    (if any) and the state.  [RintcInfo] points into the zeroed buffer
    of CpusNodeParser and is not NULL. *)
Definition CpuNodeParser (FdtParserHandle : FDT_HW_INFO_PARSER_HANDLE)
  (CpuNode : Z) (AddressCells : Z) (st : IntcState)
  : EFI_STATUS * option CM_RISCV_RINTC_INFO * IntcState :=
  let Fdt := Fdt FdtParserHandle in
  match FdtGetProp Fdt CpuNode "reg" with
  | None => (EFI_ABORTED, None, st)
  | Some Data =>
      let DataSize := PropLen Data in
      if negb (DataSize =? 4) && negb (DataSize =? 8)
      then (EFI_ABORTED, None, st)
      else
        let IntcNode := CpuNode in
        let '(Status, IntcNode) :=
          FdtGetNextNamedNodeInBranch Fdt CpuNode "interrupt-controller" IntcNode in
        (* the status is adjusted, and then not looked at again *)
        let Status :=
          if EFI_ERROR Status
          then (if is_not_found Status then EFI_ABORTED else Status)
          else Status in
        let HartId :=
          if AddressCells =? 2 then cell64 Data 0 else cell32 Data 0 in
        let Uid := ProcUid st in
        (EFI_SUCCESS,
         Some (mkRintc 1 EFI_ACPI_6_6_RINTC_FLAG_ENABLE HartId Uid 0 0 0),
         with_ProcUid st (u32 (Uid + 1)))
  end.

Definition zero_rintc : CM_RISCV_RINTC_INFO := mkRintc 0 0 0 0 0 0 0.

(** CpusNodeParser: the loop over the "cpu" nodes.  [n] counts the
    iterations left and [Buffer] holds the entries filled so far. *)
Fixpoint CpusNodeParser_loop (FdtParserHandle : FDT_HW_INFO_PARSER_HANDLE)
  (CpusNode AddressCells : Z) (n : nat) (CpuNode : Z)
  (Buffer : list CM_RISCV_RINTC_INFO) (st : IntcState)
  : EFI_STATUS * list CM_RISCV_RINTC_INFO * IntcState :=
  match n with
  | O => (EFI_SUCCESS, Buffer, st)
  | S n' =>
      let '(Status, CpuNode) :=
        FdtGetNextNamedNodeInBranch (Fdt FdtParserHandle) CpusNode "cpu" CpuNode in
      if EFI_ERROR Status
      then ((if is_not_found Status then EFI_ABORTED else Status), Buffer, st)
      else if negb (FdtNodeIsCompatible (Fdt FdtParserHandle) CpuNode CpuCompatibleInfo)
      then (EFI_UNSUPPORTED, Buffer, st)
      else
        let '(Status, r, st) :=
          CpuNodeParser FdtParserHandle CpuNode AddressCells st in
        if EFI_ERROR Status then (Status, Buffer, st)
        else CpusNodeParser_loop FdtParserHandle CpusNode AddressCells n' CpuNode
               (Buffer ++ [match r with Some x => x | None => zero_rintc end]) st
  end.

(** CpusNodeParser: the status, the descriptor left in
    [*NewRintcCmObjDesc] and the state. *)
Definition CpusNodeParser (FdtParserHandle : FDT_HW_INFO_PARSER_HANDLE)
  (CpusNode : Z) (st : IntcState)
  : outcome (EFI_STATUS * option (nat * list CM_RISCV_RINTC_INFO) * IntcState) :=
  let Fdt := Fdt FdtParserHandle in
  let AddressCells := FdtAddressCells Fdt CpusNode in
  if AddressCells <? 0 then Done (EFI_ABORTED, None, st) else
  let '(Status, CpuNodeCount) := FdtCountNamedNodeInBranch Fdt CpusNode "cpu" in
  if EFI_ERROR Status then Done (Status, None, st) else
  if CpuNodeCount =? 0 then Done (EFI_NOT_FOUND, None, st) else
  let '(p, heap) := AllocateZeroPool (IntcHeap st) in
  let st := with_IntcHeap st heap in
  match p with
  | None => Done (EFI_OUT_OF_RESOURCES, None, st)
  | Some RintcInfoBuffer =>
      let '(Status, Buffer, st) :=
        CpusNodeParser_loop FdtParserHandle CpusNode AddressCells
          (Z.to_nat CpuNodeCount) CpusNode [] st in
      let '(Status, Desc, st) :=
        if EFI_ERROR Status then (Status, None, st)
        else CreateCmObjDesc Buffer st in
      (* exit_handler *)
      heap <- FreePool RintcInfoBuffer (IntcHeap st) ;;
      Done (Status, Desc, with_IntcHeap st heap)
  end.

(** RiscVFindRintc: the index of the first entry with the given hart
    id, for the pointer to it. *)
Fixpoint RiscVFindRintc (RintcInfo : list CM_RISCV_RINTC_INFO) (Id : Z) (Idx : nat)
  : option nat :=
  match RintcInfo with
  | [] => None
  | r :: rest => if HartId r =? Id then Some Idx else RiscVFindRintc rest Id (S Idx)
  end.

(* ================================================================== *)
(** * RiscVIntcParser.c: the external controller list                  *)
(* ================================================================== *)

Definition InitializeListHead : option (list (nat * RISCV_EXT_INTC_DATA)) := Some [].

Definition InsertTailList (l : option (list (nat * RISCV_EXT_INTC_DATA)))
  (e : nat * RISCV_EXT_INTC_DATA) : option (list (nat * RISCV_EXT_INTC_DATA)) :=
  match l with
  | Some es => Some (es ++ [e])
  | None => None
  end.

Definition FdtCreateExtIntcList (ExtIntcNode GsiBase : Z) (st : IntcState)
  : EFI_STATUS * IntcState :=
  let '(p, heap) := AllocateZeroPool (IntcHeap st) in
  let st := with_IntcHeap st heap in
  match p with
  | None => (EFI_OUT_OF_RESOURCES, st)
  | Some Node =>
      (* Initialise the list head. *)
      let st := with_ExtIntcList st InitializeListHead in
      (EFI_SUCCESS,
       with_ExtIntcList st
         (InsertTailList (ExtIntcList st) (Node, mkExtIntc ExtIntcNode GsiBase)))
  end.

Fixpoint FdtConvertToGsi_walk (l : list (nat * RISCV_EXT_INTC_DATA))
  (ExtIntcNode Irq : Z) : Z :=
  match l with
  | [] => Irq
  | (_, Data) :: rest =>
      if Data_ExtIntcNode Data =? ExtIntcNode then u32 (Data_GsiBase Data + Irq)
      else FdtConvertToGsi_walk rest ExtIntcNode Irq
  end.

(** FdtConvertToGsi.  Walking the list from a head that was never
    initialised dereferences NULL. *)
Definition FdtConvertToGsi (ExtIntcNode Irq : Z) (st : IntcState) : outcome Z :=
  match ExtIntcList st with
  | None => Fault
  | Some l => Done (FdtConvertToGsi_walk l ExtIntcNode Irq)
  end.

Fixpoint FdtFreeExtIntcList_walk (l : list (nat * RISCV_EXT_INTC_DATA)) (heap : Pool)
  : outcome Pool :=
  match l with
  | [] => Done heap
  | (Node, _) :: rest =>
      heap <- FreePool Node heap ;;
      FdtFreeExtIntcList_walk rest heap
  end.

Definition FdtFreeExtIntcList (st : IntcState) : outcome IntcState :=
  match ExtIntcList st with
  | None => Fault
  | Some l =>
      heap <- FdtFreeExtIntcList_walk l (IntcHeap st) ;;
      Done (with_IntcHeap (with_ExtIntcList st (Some [])) heap)
  end.

(* ================================================================== *)
(** * RiscVIntcParser.c: PLIC and APLIC                                *)
(* ================================================================== *)

Definition IsPlicNode (Fdt : FDT) (ExtIntcNode : Z) : bool :=
  if FdtNodeIsCompatible Fdt ExtIntcNode PlicCompatibleInfo then true else false.

(** The test on an "interrupts-extended" property shared by the two
    halves of IsAplicNode. *)
Definition first_irq_is_s_ext (IrqProp : option FdtProp) : bool :=
  match IrqProp with
  | Some p => (4 <=? PropLen p) && (cell32 p 1 =? IRQ_S_EXT)
  | None => false
  end.

Definition IsAplicNode (Fdt : FDT) (ExtIntcNode : Z) : bool :=
  if negb (FdtNodeIsCompatible Fdt ExtIntcNode AplicCompatibleInfo) then false
  else if first_irq_is_s_ext (FdtGetProp Fdt ExtIntcNode "interrupts-extended")
  then true
  else
    match FdtGetProp Fdt ExtIntcNode "msi-parent" with
    | Some MsiProp =>
        if 4 <=? PropLen MsiProp then
          let ImsicNode := FdtNodeOffsetByPhandle Fdt (cell32 MsiProp 0) in
          if ImsicNode <? 0 then false
          else if first_irq_is_s_ext (FdtGetProp Fdt ImsicNode "interrupts-extended")
          then true
          else false
        else false
    | None => false
    end.

(** RiscVUpdateRintc.  [AddressCells] is a UINT32 there, so its
    comparison with 0 never holds. *)
Definition RiscVUpdateRintc (Fdt : FDT) (Rintc : list CM_RISCV_RINTC_INFO)
  (CpuNode : Z) (ExtIntcId : Z) : EFI_STATUS * list CM_RISCV_RINTC_INFO :=
  let CpusNode := FdtParentOffset Fdt CpuNode in
  let AddressCells := u32 (FdtAddressCells Fdt CpusNode) in
  if AddressCells <? 0 then (EFI_ABORTED, Rintc) else
  match FdtGetProp Fdt CpuNode "reg" with
  | None => (EFI_ABORTED, Rintc)
  | Some Data =>
      let DataSize := PropLen Data in
      if negb (DataSize =? 4) && negb (DataSize =? 8) then (EFI_ABORTED, Rintc)
      else
        let Id := if AddressCells =? 2 then cell64 Data 0 else cell32 Data 0 in
        match RiscVFindRintc Rintc Id 0 with
        | None => (EFI_NOT_FOUND, Rintc)
        | Some k =>
            (EFI_SUCCESS, update_at Rintc k (fun r => set_ExtIntcId r ExtIntcId))
        end
  end.

(** The test of the controller scan: the node is a PLIC or a
    supervisor-mode APLIC. *)
Definition is_ext_intc (Fdt : FDT) (ExtIntcNode : Z) : bool :=
  IsPlicNode Fdt ExtIntcNode || IsAplicNode Fdt ExtIntcNode.

(** The values [0, 1, .., n-1] of a loop counter. *)
Definition upto (n : Z) : list Z := map Z.of_nat (seq 0 (Z.to_nat n)).

(** PlicAplicInfoParser, the loop of the PLIC branch:
    [for (Idx1 = 0, Idx2 = 0; Idx1 < Len; Idx1 += 2, Idx2++)], hence
    one iteration for each [Idx2] below [(Len + 1) / 2]. *)
Definition PlicContextLoop (Fdt : FDT) (IntExtProp : FdtProp) (Len : Z) (Id : Z)
  (Rintc : list CM_RISCV_RINTC_INFO) : list CM_RISCV_RINTC_INFO :=
  fold_left
    (fun Rintc Idx2 =>
       let Idx1 := 2 * Idx2 in
       if cell32 IntExtProp (Idx1 + 1) =? IRQ_S_EXT then
         let Phandle := cell32 IntExtProp Idx1 in
         let IntcNode := FdtNodeOffsetByPhandle Fdt Phandle in
         let CpuNode := FdtParentOffset Fdt IntcNode in
         let LocalCpuId := Idx2 / 2 in
         let ExtIntcId := ACPI_BUILD_EXT_INTC_ID Id (2 * LocalCpuId + 1) in
         snd (RiscVUpdateRintc Fdt Rintc CpuNode ExtIntcId)
       else Rintc)
    (upto ((Len + 1) / 2)) Rintc.

(** The loop of the APLIC branch: [for (Idx = 0; Idx < Len; Idx += 2)]
    with [Len] even, hence one iteration for each [Idx / 2] below
    [Len / 2]. *)
Definition AplicIdcLoop (Fdt : FDT) (IntExtProp : FdtProp) (Len : Z) (Id : Z)
  (Rintc : list CM_RISCV_RINTC_INFO) : list CM_RISCV_RINTC_INFO :=
  fold_left
    (fun Rintc Half =>
       let Idx := 2 * Half in
       let Phandle := cell32 IntExtProp Idx in
       let IntcNode := FdtNodeOffsetByPhandle Fdt Phandle in
       let CpuNode := FdtParentOffset Fdt IntcNode in
       let ExtIntcId := ACPI_BUILD_EXT_INTC_ID Id (Idx / 2) in
       snd (RiscVUpdateRintc Fdt Rintc CpuNode ExtIntcId))
    (upto (Len / 2)) Rintc.

(** PlicAplicInfoParser, the body of the scan for a node that passed
    the PLIC/APLIC test.  The first component is [Some s] when the
    function returns [s] from inside the body, and [None] when the body
    runs to [Id++]; the second is [GsiBase] after the body. *)
Definition PlicAplicNode (FdtParserHandle : FDT_HW_INFO_PARSER_HANDLE)
  (ExtIntcNode GsiBase Id : Z) (Rintc : list CM_RISCV_RINTC_INFO) (st : IntcState)
  : option EFI_STATUS * Z * list CM_RISCV_RINTC_INFO * IntcState :=
  let Fdt := Fdt FdtParserHandle in
  let st := snd (FdtCreateExtIntcList ExtIntcNode GsiBase st) in
  let Property :=
    match FdtGetProp Fdt ExtIntcNode "riscv,num-sources" with
    | Some p => Some p
    | None => FdtGetProp Fdt ExtIntcNode "riscv,ndev"
    end in
  match Property with
  | None => (Some EFI_INVALID_PARAMETER, GsiBase, Rintc, st)
  | Some Property =>
  let Sources := cell32 Property 0 in
  match FdtGetProp Fdt ExtIntcNode "reg" with
  | None => (Some EFI_INVALID_PARAMETER, GsiBase, Rintc, st)
  | Some Property =>
  if 0 <? PropLen Property mod 4 then (Some EFI_INVALID_PARAMETER, GsiBase, Rintc, st)
  else
  let Common := fun hw =>
    mkCommon 1 Id Sources (cell64 Property 0) (cell64 Property 1) GsiBase hw in
  let GsiBase := u32 (GsiBase + Sources) in
  if FdtNodeIsCompatible Fdt ExtIntcNode PlicCompatibleInfo then
    match FdtGetProp Fdt ExtIntcNode "interrupts-extended" with
    | None => (Some EFI_INVALID_PARAMETER, GsiBase, Rintc, st)
    | Some IntExtProp =>
        let Len := PropLen IntExtProp in
        if Len <? 4 then (Some EFI_INVALID_PARAMETER, GsiBase, Rintc, st)
        else
          let '(p, heap) := AllocateZeroPool (IntcHeap st) in
          let st := with_IntcHeap st heap in
          match p with
          | None => (Some EFI_OUT_OF_RESOURCES, GsiBase, Rintc, st)
          | Some PlicInfo =>
              let Len := Len / 4 in
              let Rintc := PlicContextLoop Fdt IntExtProp Len Id Rintc in
              let '(Status, st) :=
                AddSingleCmObj FdtParserHandle (CmPlicInfo (Common "RSCV0001"%string)) st in
              if EFI_ERROR Status then (Some Status, GsiBase, Rintc, st)
              else (None, GsiBase, Rintc, st)
          end
    end
  else if FdtNodeIsCompatible Fdt ExtIntcNode AplicCompatibleInfo then
    let '(p, heap) := AllocateZeroPool (IntcHeap st) in
    let st := with_IntcHeap st heap in
    match p with
    | None => (Some EFI_OUT_OF_RESOURCES, GsiBase, Rintc, st)
    | Some AplicInfo =>
        let '(NumIdcs, Rintc) :=
          match FdtGetProp Fdt ExtIntcNode "interrupts-extended" with
          | Some IntExtProp =>
              let Len := PropLen IntExtProp in
              if (Len / 4) mod 2 =? 0 then
                let Len := Len / 4 in
                (Len / 2, AplicIdcLoop Fdt IntExtProp Len Id Rintc)
              else (0, Rintc)
          | None => (0, Rintc)
          end in
        let '(Status, st) :=
          AddSingleCmObj FdtParserHandle
            (CmAplicInfo NumIdcs (Common "RSCV0002"%string)) st in
        if EFI_ERROR Status then (Some Status, GsiBase, Rintc, st)
        else (None, GsiBase, Rintc, st)
    end
  else (None, GsiBase, Rintc, st)
  end
  end.

(** PlicAplicInfoParser, the scan
    [for (Prev = 0; ; Prev = ExtIntcNode)].  Each iteration moves to a
    later node, so the number of nodes bounds the iterations; [fuel]
    is that bound. *)
Fixpoint PlicAplicScan (fuel : nat) (FdtParserHandle : FDT_HW_INFO_PARSER_HANDLE)
  (Prev GsiBase Id : Z) (Rintc : list CM_RISCV_RINTC_INFO) (st : IntcState)
  : EFI_STATUS * list CM_RISCV_RINTC_INFO * IntcState :=
  match fuel with
  | O => (EFI_SUCCESS, Rintc, st)
  | S fuel' =>
      let Fdt := Fdt FdtParserHandle in
      let ExtIntcNode := FdtNextNode Fdt Prev in
      if ExtIntcNode <? 0 then (EFI_SUCCESS, Rintc, st)
      else if negb (IsPlicNode Fdt ExtIntcNode || IsAplicNode Fdt ExtIntcNode)
      then PlicAplicScan fuel' FdtParserHandle ExtIntcNode GsiBase Id Rintc st
      else
        let '(ret, GsiBase, Rintc, st) :=
          PlicAplicNode FdtParserHandle ExtIntcNode GsiBase Id Rintc st in
        match ret with
        | Some Status => (Status, Rintc, st)
        | None => PlicAplicScan fuel' FdtParserHandle ExtIntcNode GsiBase (Id + 1) Rintc st
        end
  end.

Definition PlicAplicInfoParser (FdtParserHandle : FDT_HW_INFO_PARSER_HANDLE)
  (Rintc : list CM_RISCV_RINTC_INFO) (st : IntcState)
  : EFI_STATUS * list CM_RISCV_RINTC_INFO * IntcState :=
  PlicAplicScan (length (Fdt FdtParserHandle)) FdtParserHandle 0 0 0 Rintc st.

(* ================================================================== *)
(** * RiscVIntcParser.c: IMSIC                                         *)
(* ================================================================== *)

(** ImsicRintcInfoParser, the default of [HartIndexBits]:
    [Len = NumPhandle; while (Len > 0) { HartIndexBits++; Len = Len >> 1; }].
    [Len] is an INT32, so 32 iterations are never exceeded. *)
Fixpoint HartIndexBits_loop (fuel : nat) (Len : Z) (Bits : Z) : Z :=
  match fuel with
  | O => Bits
  | S fuel' =>
      if 0 <? Len then HartIndexBits_loop fuel' (Z.shiftr Len 1) (Bits + 1)
      else Bits
  end.

(** The inner loop
    [for (Idx1 = 0; Idx1 < Limit && Idx2 < NumPhandle; Idx1++, Idx2++)].
    [fuel] is [NumPhandle - Idx2], which bounds its iterations.  The
    result is the early return status (if any), [Idx2] and the
    records. *)
Fixpoint ImsicHartLoop (fuel : nat) (Fdt : FDT) (IntExtProp : FdtProp)
  (ImsicBaseAddr Limit NumPhandle Idx1 Idx2 : Z)
  (Rintc : list CM_RISCV_RINTC_INFO)
  : option EFI_STATUS * Z * list CM_RISCV_RINTC_INFO :=
  match fuel with
  | O => (None, Idx2, Rintc)
  | S fuel' =>
      if (Idx1 <? Limit) && (Idx2 <? NumPhandle) then
        let Phandle := cell32 IntExtProp (Idx2 * 2) in
        let IntcNode := FdtNodeOffsetByPhandle Fdt Phandle in
        let CpuNode := FdtParentOffset Fdt IntcNode in
        let CpusNode := FdtParentOffset Fdt CpuNode in
        let AddressCells := FdtAddressCells Fdt CpusNode in
        if AddressCells <? 0 then (Some EFI_ABORTED, Idx2, Rintc) else
        match FdtGetProp Fdt CpuNode "reg" with
        | None => (Some EFI_ABORTED, Idx2, Rintc)
        | Some Data =>
            let DataSize := PropLen Data in
            if negb (DataSize =? 4) && negb (DataSize =? 8)
            then (Some EFI_ABORTED, Idx2, Rintc)
            else
              let Id := if AddressCells =? 2 then cell64 Data 0 else cell32 Data 0 in
              match RiscVFindRintc Rintc Id 0 with
              | None => (Some EFI_NOT_FOUND, Idx2, Rintc)
              | Some k =>
                  let ImsicCpuBaseAddr := u64 (ImsicBaseAddr + Idx1 * IMSIC_MMIO_PAGE_SZ) in
                  let ImsicCpuBaseLen := IMSIC_MMIO_PAGE_SZ in
                  ImsicHartLoop fuel' Fdt IntExtProp ImsicBaseAddr Limit NumPhandle
                    (Idx1 + 1) (Idx2 + 1)
                    (update_at Rintc k
                       (fun r => set_Imsic r ImsicCpuBaseAddr ImsicCpuBaseLen))
              end
        end
      else (None, Idx2, Rintc)
  end.

(** The outer loop [for (Idx = 0; Idx < NumImsicBase; Idx++)] over the
    values [Idxs] of [Idx] still to come. *)
Fixpoint ImsicRegionLoop (Fdt : FDT) (IntExtProp ImsicRegProp : FdtProp)
  (NumPhandle : Z) (Idxs : list Z) (Idx2 : Z) (Rintc : list CM_RISCV_RINTC_INFO)
  : option EFI_STATUS * list CM_RISCV_RINTC_INFO :=
  match Idxs with
  | [] => (None, Rintc)
  | Idx :: Idxs' =>
      let ImsicBaseAddr := cell64 ImsicRegProp (Idx * 2) in
      let ImsicBaseLen := cell64 ImsicRegProp (Idx * 2 + 1) in
      let Limit := ImsicBaseLen / IMSIC_MMIO_PAGE_SZ in
      let '(ret, Idx2, Rintc) :=
        ImsicHartLoop (Z.to_nat (NumPhandle - Idx2)) Fdt IntExtProp ImsicBaseAddr
          Limit NumPhandle 0 Idx2 Rintc in
      match ret with
      | Some Status => (Some Status, Rintc)
      | None => ImsicRegionLoop Fdt IntExtProp ImsicRegProp NumPhandle Idxs' Idx2 Rintc
      end
  end.

Definition prop_cell_or (Fdt : FDT) (Node : Z) (Name : string) (Default : Z) : Z :=
  match FdtGetProp Fdt Node Name with
  | None => Default
  | Some p => cell32 p 0
  end.

(** ImsicRintcInfoParser, the part run for the first IMSIC node whose
    "interrupts-extended" starts with the supervisor external
    interrupt (from [NumPhandle = ..] to [return Status]). *)
Definition ImsicSModeNode (FdtParserHandle : FDT_HW_INFO_PARSER_HANDLE)
  (ImsicNode : Z) (IntExtProp : FdtProp)
  (Rintc : list CM_RISCV_RINTC_INFO) (st : IntcState)
  : EFI_STATUS * list CM_RISCV_RINTC_INFO * IntcState :=
  let Fdt := Fdt FdtParserHandle in
  let Len := PropLen IntExtProp in
  let NumPhandle := (Len / 4) / 2 in
  if NumPhandle =? 0 then (EFI_NOT_FOUND, Rintc, st) else
  match FdtGetProp Fdt ImsicNode "riscv,num-ids" with
  | None => (EFI_INVALID_PARAMETER, Rintc, st)
  | Some p =>
  let Ids := cell32 p 0 in
  let GuestIds := prop_cell_or Fdt ImsicNode "riscv,num-guest-ids" Ids in
  let GuestBits := prop_cell_or Fdt ImsicNode "riscv,guest-index-bits" 0 in
  let HartBits := prop_cell_or Fdt ImsicNode "riscv,hart-index-bits" 0 in
  let GroupBits := prop_cell_or Fdt ImsicNode "riscv,group-index-bits" 0 in
  let GroupShift :=
    prop_cell_or Fdt ImsicNode "riscv,group-index-shift" (IMSIC_MMIO_PAGE_SHIFT * 2) in
  match FdtGetProp Fdt ImsicNode "reg" with
  | None => (EFI_INVALID_PARAMETER, Rintc, st)
  | Some ImsicRegProp =>
  let Len := PropLen ImsicRegProp in
  if negb ((Len / 4) mod 4 =? 0) then (EFI_INVALID_PARAMETER, Rintc, st) else
  let NumImsicBase := (Len / 4) / 4 in
  let HartBits :=
    if HartBits =? 0 then HartIndexBits_loop 32 NumPhandle HartBits else HartBits in
  let '(ret, Rintc) :=
    ImsicRegionLoop Fdt IntExtProp ImsicRegProp NumPhandle (upto NumImsicBase) 0 Rintc in
  match ret with
  | Some Status => (Status, Rintc, st)
  | None =>
      let ImsicInfo := mkImsic 1 0 Ids GuestIds GuestBits HartBits GroupBits GroupShift in
      let '(Status, st) := AddSingleCmObj FdtParserHandle (CmImsicInfo ImsicInfo) st in
      (Status, Rintc, st)
  end
  end
  end.

(** ImsicRintcInfoParser, the scan [for (Prev = 0; ; Prev = ImsicNode)];
    [fuel] bounds the iterations as in PlicAplicScan. *)
Fixpoint ImsicScan (fuel : nat) (FdtParserHandle : FDT_HW_INFO_PARSER_HANDLE)
  (Prev : Z) (Rintc : list CM_RISCV_RINTC_INFO) (st : IntcState)
  : EFI_STATUS * list CM_RISCV_RINTC_INFO * IntcState :=
  match fuel with
  | O => (EFI_NOT_FOUND, Rintc, st)
  | S fuel' =>
      let Fdt := Fdt FdtParserHandle in
      let ImsicNode := FdtNextNode Fdt Prev in
      if ImsicNode <? 0 then (EFI_NOT_FOUND, Rintc, st)
      else if FdtNodeIsCompatible Fdt ImsicNode ImsicCompatibleInfo then
        match FdtGetProp Fdt ImsicNode "interrupts-extended" with
        | None => (EFI_INVALID_PARAMETER, Rintc, st)
        | Some IntExtProp =>
            if negb ((PropLen IntExtProp / 4) mod 2 =? 0)
            then (EFI_INVALID_PARAMETER, Rintc, st)
            else if cell32 IntExtProp 1 =? IRQ_S_EXT
            then ImsicSModeNode FdtParserHandle ImsicNode IntExtProp Rintc st
            else ImsicScan fuel' FdtParserHandle ImsicNode Rintc st
        end
      else ImsicScan fuel' FdtParserHandle ImsicNode Rintc st
  end.

Definition ImsicRintcInfoParser (FdtParserHandle : FDT_HW_INFO_PARSER_HANDLE)
  (Rintc : list CM_RISCV_RINTC_INFO) (st : IntcState)
  : EFI_STATUS * list CM_RISCV_RINTC_INFO * IntcState :=
  ImsicScan (length (Fdt FdtParserHandle)) FdtParserHandle 0 Rintc st.

(* ================================================================== *)
(** * RiscVIntcParser.c: the dispatcher                                *)
(* ================================================================== *)

Definition tolerated (Status : EFI_STATUS) : bool :=
  negb (EFI_ERROR Status && negb (is_not_found Status)).

(** RiscVIntcInfoParser. *)
Definition RiscVIntcInfoParser (FdtParserHandle : FDT_HW_INFO_PARSER_HANDLE)
  (FdtBranch : Z) (st : IntcState) : outcome (EFI_STATUS * IntcState) :=
  '(Status, NewCmObjDesc, st) <- CpusNodeParser FdtParserHandle FdtBranch st ;;
  if EFI_ERROR Status then Done (Status, st) else
  match NewCmObjDesc with
  | None => Fault
  | Some (Desc, Rintc) =>
      let '(Status, Rintc, st) := ImsicRintcInfoParser FdtParserHandle Rintc st in
      let '(Status, st) :=
        if negb (tolerated Status) then (Status, st)
        else
          let '(Status, Rintc, st) := PlicAplicInfoParser FdtParserHandle Rintc st in
          if negb (tolerated Status) then (Status, st)
          else AddMultipleCmObj FdtParserHandle Rintc st in
      (* exit_handler: FreeCmObjDesc *)
      heap <- FreePool Desc (IntcHeap st) ;;
      Done (Status, with_IntcHeap st heap)
  end.

(** RiscVIntcDispatcher. *)
Definition RiscVIntcDispatcher (FdtParserHandle : FDT_HW_INFO_PARSER_HANDLE)
  (st : IntcState) : outcome (EFI_STATUS * IntcState) :=
  let CpusNode := FdtPathOffset_root_child (Fdt FdtParserHandle) "cpus" in
  if CpusNode <? 0 then Done (EFI_NOT_FOUND, st) else
  '(Status, st) <- RiscVIntcInfoParser FdtParserHandle CpusNode st ;;
  if EFI_ERROR Status then Done (Status, st) else Done (EFI_SUCCESS, st).

End Parser.

(* ================================================================== *)
(** * The two stages in sequence                                       *)
(* ================================================================== *)

(** The identifiers of a list of hart records. *)
Definition uids (l : list CM_RISCV_RINTC_INFO) : list Z := map AcpiProcessorUid l.

(** [ProcUid++] on a UINT32, and the values [n] successive records
    receive from a counter that stands at [u]. *)
Definition next_uid (u : Z) : Z := u32 (u + 1).

Fixpoint uid_run (n : nat) (u : Z) : list Z :=
  match n with
  | O => []
  | S n' => u :: uid_run n' (next_uid u)
  end.

(** What persists between invocations: the statics of the parser
    module, the pool, and the private data of the generator. *)
Record Firmware : Type := mkFirmware {
  fw_intc : IntcState;
  fw_gen  : ACPI_RHCT_GENERATOR
}.

Definition published_harts (objs : list CmObj) : list CM_RISCV_RINTC_INFO :=
  flat_map (fun o => match o with CmRintcInfo r => [r] | _ => [] end) objs.

(** What the controller parsers leave alone: the hart counter and the
    hart records published so far. *)
Definition keeps_harts (st st' : IntcState) : Prop :=
  ProcUid st' = ProcUid st
  /\ published_harts (CmObjs st') = published_harts (CmObjs st).

(** Modelled from the spec: the registry as the generator sees it.  A
    query by type gives the hart records in the order they were
    published, or NotFound when there is none; the other object types
    come from [Board]. *)
Definition PipelineCfg (Board : EDKII_CONFIGURATION_MANAGER_PROTOCOL)
  (harts : list CM_RISCV_RINTC_INFO) : EDKII_CONFIGURATION_MANAGER_PROTOCOL :=
  mkCfgMgr (cm_TimerInfo Board) (cm_IsaStringInfo Board) (cm_CmoInfo Board)
    (match harts with [] => (EFI_NOT_FOUND, []) | _ :: _ => (EFI_SUCCESS, harts) end)
    (cm_AddAcpiHeader Board).

(** Modelled from the spec: the registry that stores the extracted
    objects by type and the caller that runs extraction and then
    synthesis are outside the sources at hand.  An invocation starts
    with an empty registry; a query by type gives the objects of that
    type in the order they were published, or NotFound when there is
    none.  [Board] supplies what other parsers publish (timer, ISA
    string, CMO) and the header writer.  The result is the status, the
    bytes of the table (if one is returned) and the state left behind. *)
Definition Pipeline `{K : IntcDecls} `{L : RhctDecls}
  (FdtParserHandle : FDT_HW_INFO_PARSER_HANDLE)
  (Board : EDKII_CONFIGURATION_MANAGER_PROTOCOL)
  (AcpiTableInfo : CM_STD_OBJ_ACPI_TABLE_INFO) (fw : Firmware)
  : outcome (EFI_STATUS * option (list byte) * Firmware) :=
  '(Status, st) <- RiscVIntcDispatcher FdtParserHandle (with_CmObjs (fw_intc fw) []) ;;
  if EFI_ERROR Status then Done (Status, None, mkFirmware st (fw_gen fw)) else
  let Cfg := PipelineCfg Board (published_harts (CmObjs st)) in
  '(Status, w) <- BuildRhctTable AcpiTableInfo Cfg
                    (mkWorld (fw_gen fw) None (IntcHeap st)) ;;
  Done (Status,
        match Table w with Some (_, bytes) => Some bytes | None => None end,
        mkFirmware (with_IntcHeap st (Heap w)) (Generator w)).

(* ================================================================== *)
(** * Sample inputs                                                    *)
(* ================================================================== *)

Local Open Scope string_scope.

(** A sample property of 32-bit cells, followed in the blob by the
    end-of-node token and zero bytes. *)
Definition cells (vs : list Z) : FdtProp :=
  mkProp (flat_map (be_bytes 4) vs)
         (fun k => if Nat.eqb k 3 then Byte.x02 else x00).

Definition IRQ_M_EXT : Z := 11.

Definition node_root : FdtNode := mkNode EmptyString 0 [] 0 2 [].
Definition node_cpus : FdtNode := mkNode "cpus" 1 [] 0 1 [].
Definition node_cpu (hart : Z) : FdtNode :=
  mkNode "cpu" 2 ["sifive,u74"; "riscv"] 0 2 [("reg", cells [hart])].
Definition node_intc (phandle : Z) : FdtNode :=
  mkNode "interrupt-controller" 3 ["riscv,cpu-intc"] phandle 2 [].
Definition node_soc : FdtNode := mkNode "soc" 1 ["simple-bus"] 0 2 [].

Definition node_aplic (irq : Z) (base : Z) : FdtNode :=
  mkNode "aplic" 2 ["riscv,aplic"] 0 2
    [("interrupts-extended", cells [1; irq; 2; irq]);
     ("riscv,num-sources", cells [96]);
     ("reg", cells [0; base; 0; 32768])].

Definition node_plic (base : Z) (sources : Z) : FdtNode :=
  mkNode "plic" 2 ["sifive,plic-1.0.0"; "riscv,plic0"] 0 2
    [("interrupts-extended", cells [1; IRQ_M_EXT; 1; 9; 2; IRQ_M_EXT; 2; 9]);
     ("riscv,ndev", cells [sources]);
     ("reg", cells [0; base; 0; 67108864])].

Definition node_imsics (irq : Z) (base : Z) : FdtNode :=
  mkNode "imsics" 2 ["riscv,imsics"] 9 2
    [("interrupts-extended", cells [1; irq; 2; irq]);
     ("riscv,num-ids", cells [255]);
     ("reg", cells [0; base; 0; 8192])].

(** Two harts, each with its interrupt controller. *)
Definition cpus_two_harts : FDT :=
  [node_root; node_cpus; node_cpu 0; node_intc 1; node_cpu 1; node_intc 2].

(** One hart. *)
Definition tree_one_hart : FDT :=
  [node_root; node_cpus; node_cpu 0; node_intc 1].

(** One hart whose node has no "interrupt-controller" child. *)
Definition tree_hart_without_intc : FDT :=
  [node_root; node_cpus; node_cpu 0].

(** A machine-mode APLIC followed by a supervisor-mode APLIC. *)
Definition tree_two_aplic : FDT :=
  (cpus_two_harts
   ++ [node_soc; node_aplic IRQ_M_EXT 201326592; node_aplic 9 218103808])%list.

(** Three PLICs. *)
Definition tree_three_plic : FDT :=
  (cpus_two_harts
   ++ [node_soc; node_plic 201326592 32; node_plic 268435456 64;
       node_plic 335544320 16])%list.



(** The records CpusNodeParser makes for [cpus_two_harts] at boot. *)
Definition sample_records : list CM_RISCV_RINTC_INFO :=
  [mkRintc 1 1 0 0 0 0 0; mkRintc 1 1 1 1 0 0 0].

Definition handle_of (t : FDT) : FDT_HW_INFO_PARSER_HANDLE :=
  mkHandle t (fun _ => EFI_SUCCESS).

Definition pool_all : Pool := mkPool 0 [] (fun _ => true).

Definition intc_boot : IntcState := mkIntc 0 None pool_all [].

Definition generator_boot : ACPI_RHCT_GENERATOR := mkGenerator 1 1 0 None.

Definition firmware_boot : Firmware := mkFirmware intc_boot generator_boot.

Definition world_boot : RhctWorld := mkWorld generator_boot None pool_all.

Definition sample_isa : list byte := list_byte_of_string "rv64imafdc".

Definition sample_header (Length : Z) : EFI_STATUS * list byte :=
  (EFI_SUCCESS,
   (list_byte_of_string "RHCT" ++ le_split 4 Length ++ repeat x00 28)%list).

Definition sample_hart (uid : Z) : CM_RISCV_RINTC_INFO := mkRintc 1 1 uid uid 0 0 0.

(** A board with [ncmo] CMO objects and the given harts. *)
Definition sample_cfg (ncmo : nat) (harts : list CM_RISCV_RINTC_INFO)
  : EDKII_CONFIGURATION_MANAGER_PROTOCOL :=
  mkCfgMgr (EFI_SUCCESS, [mkTimer false 10000000])
           (EFI_SUCCESS, [mkIsa (Some sample_isa)])
           (match ncmo with
            | O => (EFI_NOT_FOUND, [])
            | S _ => (EFI_SUCCESS, repeat (mkCmo 6 6 6) ncmo)
            end)
           (EFI_SUCCESS, harts)
           sample_header.

Definition sample_info : CM_STD_OBJ_ACPI_TABLE_INFO := mkTableInfo 1.

Local Close Scope string_scope.

(* ================================================================== *)
(** * The layout of a table, in closed form                            *)
(* ================================================================== *)

(** Rounding up to a multiple of two, as the specification writes it. *)
Definition align2 (v : Z) : Z := 2 * ((v + 1) / 2).

(** The lists the generator works on. *)
Definition IsaListOf (Cfg : EDKII_CONFIGURATION_MANAGER_PROTOCOL) :=
  snd (GetERiscVObjIsaStringInfo Cfg).
Definition CmoListOf (Cfg : EDKII_CONFIGURATION_MANAGER_PROTOCOL) :=
  snd (GetERiscVObjCmoInfo Cfg).
Definition HartListOf (Cfg : EDKII_CONFIGURATION_MANAGER_PROTOCOL) :=
  snd (GetERiscVObjRintcInfo Cfg).

(** The node count the generator computes from the three lists. *)
Definition NodeCountOf (Cfg : EDKII_CONFIGURATION_MANAGER_PROTOCOL) : Z :=
  u32 (u32 (Count (IsaListOf Cfg) + Count (CmoListOf Cfg))
       + Count (HartListOf Cfg)).

Definition zero_indexer (n : Z) : IndexerCursor :=
  ([], repeat (mkIndexer ObjNull 0) (Z.to_nat n)).

Section ClosedForms.
Context `{L : RhctDecls}.

(** Size of the ISA string node: that of the first ISA object. *)
Definition IsaNodeSize (Isa : list CM_RISCV_ISA_STRING_NODE) : Z :=
  match Isa with
  | {| IsaString := Some s |} :: _ =>
      sizeof_RHCT_ISA_STRING_NODE + ALIGN_VALUE (AsciiStrSize s) 2
  | _ => 0
  end.

Definition IsaStringOffsetOf : Z := sizeof_RHCT_TABLE.

Definition CmoOffsetOf (Cfg : EDKII_CONFIGURATION_MANAGER_PROTOCOL) : Z :=
  sizeof_RHCT_TABLE + IsaNodeSize (IsaListOf Cfg).

Definition HartInfoOffsetOf (Cfg : EDKII_CONFIGURATION_MANAGER_PROTOCOL) : Z :=
  CmoOffsetOf Cfg + Count (CmoListOf Cfg) * sizeof_RHCT_CMO_NODE.

(** The number of offsets of a Hart-Info node: the number of nodes
    before the hart group. *)
Definition NumOffsetsOf (Cfg : EDKII_CONFIGURATION_MANAGER_PROTOCOL) : Z :=
  Count (IsaListOf Cfg) + Count (CmoListOf Cfg).

Definition HartNodeSizeOf (Cfg : EDKII_CONFIGURATION_MANAGER_PROTOCOL) : Z :=
  sizeof_RHCT_HART_INFO_NODE + 4 * NumOffsetsOf Cfg.

Definition TableSizeOf (Cfg : EDKII_CONFIGURATION_MANAGER_PROTOCOL) : Z :=
  HartInfoOffsetOf Cfg + Count (HartListOf Cfg) * HartNodeSizeOf Cfg.

(** The table and its node count stay below the 32-bit ceiling. *)
Definition table_fits (Cfg : EDKII_CONFIGURATION_MANAGER_PROTOCOL) : bool :=
  (NumOffsetsOf Cfg + Count (HartListOf Cfg) <? 2 ^ 32)
  && (TableSizeOf Cfg <? 2 ^ 32).

(** The offset of the [k]-th Hart-Info node. *)
Definition HartNodeOffsetOf (Cfg : EDKII_CONFIGURATION_MANAGER_PROTOCOL) (k : nat) : Z :=
  HartInfoOffsetOf Cfg + Z.of_nat k * HartNodeSizeOf Cfg.

(** The scratch array of offsets: the offset of the ISA node if there
    is one, the offset of the CMO group if there is one, and zeros up
    to the number of offsets. *)
Definition OffsetsOf (Cfg : EDKII_CONFIGURATION_MANAGER_PROTOCOL) : list Z :=
  let groups :=
    (if 0 <? Count (IsaListOf Cfg) then [IsaStringOffsetOf] else [])
    ++ (if 0 <? Count (CmoListOf Cfg) then [CmoOffsetOf Cfg] else []) in
  groups ++ repeat 0 (Z.to_nat (NumOffsetsOf Cfg) - length groups).

(** The number of node groups that come before the hart group. *)
Definition GroupsBeforeHarts (Cfg : EDKII_CONFIGURATION_MANAGER_PROTOCOL) : Z :=
  (if 0 <? Count (IsaListOf Cfg) then 1 else 0)
  + (if 0 <? Count (CmoListOf Cfg) then 1 else 0).

(** The offsets of the node groups that come before the hart group:
    that of the ISA node if there is one, then that of the CMO group if
    there is one. *)
Definition GroupOffsetsOf (Cfg : EDKII_CONFIGURATION_MANAGER_PROTOCOL) : list Z :=
  (if 0 <? Count (IsaListOf Cfg) then [IsaStringOffsetOf] else [])
  ++ (if 0 <? Count (CmoListOf Cfg) then [CmoOffsetOf Cfg] else []).

End ClosedForms.

(** The requested revision is one the generator supports. *)
Definition revision_supported (Info : CM_STD_OBJ_ACPI_TABLE_INFO) (w : RhctWorld)
  : bool :=
  negb ((AcpiTableRevision Info <? Gen_MinAcpiTableRevision (Generator w))
        || (Gen_AcpiTableRevision (Generator w) <? AcpiTableRevision Info)).

(** The configuration manager answers the four queries: timer, ISA
    string and harts are found, the CMO objects are found or absent. *)
Definition objects_present (Cfg : EDKII_CONFIGURATION_MANAGER_PROTOCOL) : bool :=
  negb (EFI_ERROR (fst (GetERiscVObjTimerInfo Cfg)))
  && negb (EFI_ERROR (fst (GetERiscVObjIsaStringInfo Cfg)))
  && negb (EFI_ERROR (fst (GetERiscVObjCmoInfo Cfg))
           && negb (is_not_found (fst (GetERiscVObjCmoInfo Cfg))))
  && negb (EFI_ERROR (fst (GetERiscVObjRintcInfo Cfg))).

(** A string of [n] letters. *)
Definition long_isa (n : Z) : list byte := repeat Byte.x61 (Z.to_nat n).

(** What a caller sees of a build: the status, and the table if one
    is returned. *)
Definition build_result (o : outcome (EFI_STATUS * RhctWorld))
  : option (EFI_STATUS * option (list byte)) :=
  match o with
  | Done (s, w) =>
      Some (s, match Table w with Some (_, t) => Some t | None => None end)
  | Fault => None
  end.

(** The status of a build, whether a table is returned, and the pool
    blocks still allocated. *)
Definition build_summary (o : outcome (EFI_STATUS * RhctWorld))
  : option (EFI_STATUS * bool * list nat) :=
  match o with
  | Done (s, w) =>
      Some (s, match Table w with Some _ => true | None => false end,
            pool_live (Heap w))
  | Fault => None
  end.

(* ================================================================== *)
(** * Further closed forms and predicates                              *)
(* ================================================================== *)

(** The PLIC and APLIC records among the published objects, in the
    order they were published. *)
Definition controllers (objs : list CmObj) : list PLIC_APLIC_COMMON_INFO :=
  flat_map (fun o => match o with
                     | CmPlicInfo i => [i]
                     | CmAplicInfo _ i => [i]
                     | _ => []
                     end) objs.

(** Controller records numbered consecutively from [Id], each with the
    interrupt base where the previous one's sources end (in 32 bits),
    the first at [GsiBase]. *)
Fixpoint numbered (Id GsiBase : Z) (l : list PLIC_APLIC_COMMON_INFO) : Prop :=
  match l with
  | [] => True
  | i :: l' =>
      Common_Id i = Id
      /\ Common_GsiBase i = GsiBase
      /\ numbered (Id + 1) (u32 (GsiBase + NumSources i)) l'
  end.

(** Every block of the pool that is allocated was handed out: its
    serial number is below the next one. *)
Definition pool_wf (p : Pool) : bool :=
  forallb (fun id => (id <? pool_next p)%nat) (pool_live p).

(** A tree whose only IMSIC is the machine-mode one. *)
Definition tree_m_imsic : FDT :=
  (cpus_two_harts ++ [node_soc; node_imsics IRQ_M_EXT 603979776])%list.

(** Two harts and a PLIC node that has neither "riscv,num-sources"
    nor "riscv,ndev". *)
Definition tree_plic_without_sources : FDT :=
  (cpus_two_harts
   ++ [node_soc; mkNode "plic"%string 2 ["riscv,plic0"%string] 0 2 []])%list.

(** What the proofs need of the layout of the fixed part of the table:
    the four members the generator assigns lie inside the structure,
    one after the other, and have the widths the code assigns (two
    UINT32, a UINT64, and the flags). *)
Definition rhct_fields_ok `{RhctDecls} : bool :=
  fits Rhct_NodeCount 0 sizeof_RHCT_TABLE
  && fits Rhct_NodeOffset 0 sizeof_RHCT_TABLE
  && fits Rhct_TimeBaseFreq 0 sizeof_RHCT_TABLE
  && fits Rhct_Flags 0 sizeof_RHCT_TABLE
  && before Rhct_NodeCount Rhct_NodeOffset
  && before Rhct_NodeOffset Rhct_TimeBaseFreq
  && before Rhct_TimeBaseFreq Rhct_Flags
  && Nat.eqb (f_size Rhct_NodeCount) 4
  && Nat.eqb (f_size Rhct_NodeOffset) 4
  && Nat.eqb (f_size Rhct_TimeBaseFreq) 8.

(** The three block-size members of a CMO node follow one another. *)
Definition cmo_fields_ok `{RhctDecls} : bool :=
  before Cmo_CbomBlockSize Cmo_CbopBlockSize
  && before Cmo_CbopBlockSize Cmo_CbozBlockSize.

(** What the CMO node at [base] holds after it was filled from [c]. *)
Definition cmo_node_holds `{RhctDecls} (b : list byte) (base : Z)
  (c : CM_RISCV_CMO_NODE) : Prop :=
  load_field b base Node_Type
  = EFI_ACPI_6_6_RHCT_NODE_TYPE_CMO mod 2 ^ (Z.of_nat (f_size Node_Type) * 8)
  /\ load_field b base Node_Length = sizeof_RHCT_CMO_NODE
  /\ load_field b base Node_Revision
     = EFI_ACPI_6_6_RHCT_CMO_NODE_STRUCTURE_VERSION
       mod 2 ^ (Z.of_nat (f_size Node_Revision) * 8)
  /\ load_field b base Cmo_CbomBlockSize
     = CbomBlockSize c mod 2 ^ (Z.of_nat (f_size Cmo_CbomBlockSize) * 8)
  /\ load_field b base Cmo_CbopBlockSize
     = CbopBlockSize c mod 2 ^ (Z.of_nat (f_size Cmo_CbopBlockSize) * 8)
  /\ load_field b base Cmo_CbozBlockSize
     = CbozBlockSize c mod 2 ^ (Z.of_nat (f_size Cmo_CbozBlockSize) * 8).

(** The entries the size planner writes for a node group: one for each
    object, with the offsets of consecutive nodes of size [step]. *)
Fixpoint node_entries {T : Type} (obj : nat -> ObjRef) (start step : Z) (k : nat)
  (l : list T) : list RHCT_NODE_INDEXER :=
  match l with
  | [] => []
  | _ :: l' => mkIndexer (obj k) start :: node_entries obj (start + step) step (S k) l'
  end.

(** The node indexer after a build: the CMO nodes, the Hart-Info
    nodes, and entries left zeroed, as many as there are ISA objects. *)
Definition IndexerOf `{RhctDecls} (Cfg : EDKII_CONFIGURATION_MANAGER_PROTOCOL)
  : list RHCT_NODE_INDEXER :=
  node_entries ObjCmo (CmoOffsetOf Cfg) sizeof_RHCT_CMO_NODE 0 (CmoListOf Cfg)
  ++ node_entries ObjRintc (HartInfoOffsetOf Cfg) (HartNodeSizeOf Cfg) 0 (HartListOf Cfg)
  ++ repeat (mkIndexer ObjNull 0) (length (IsaListOf Cfg)).

(** A board with two CMO objects and two harts. *)
Definition sample_board : EDKII_CONFIGURATION_MANAGER_PROTOCOL :=
  sample_cfg 2 [sample_hart 0; sample_hart 1].

(** What ImsicRintcInfoParser may have done to a hart record: nothing,
    or given it one interrupt file of an IMSIC node of the tree, the
    [i]-th page of the region with index [Idx] of its "reg". *)
Definition imsic_file `{IntcDecls} (Fdt : FDT)
  (r r' : CM_RISCV_RINTC_INFO) : Prop :=
  r' = r
  \/ exists Node Reg Idx i,
       FdtNodeIsCompatible Fdt Node ImsicCompatibleInfo = true
       /\ FdtGetProp Fdt Node "reg" = Some Reg
       /\ 0 <= Idx < (PropLen Reg / 4) / 4
       /\ 0 <= i < cell64 Reg (Idx * 2 + 1) / IMSIC_MMIO_PAGE_SZ
       /\ r' = set_Imsic r (u64 (cell64 Reg (Idx * 2) + i * IMSIC_MMIO_PAGE_SZ))
                 IMSIC_MMIO_PAGE_SZ.







(* ================================================================== *)
(** * Lemmas: integers                                                 *)
(* ================================================================== *)

Lemma u32_small (z : Z) : 0 <= z < 2 ^ 32 -> u32 z = z.
Proof. intros H. unfold u32. apply Z.mod_small. exact H. Qed.

Lemma u16_small (z : Z) : 0 <= z < 2 ^ 16 -> u16 z = z.
Proof. intros H. unfold u16. apply Z.mod_small. exact H. Qed.

Lemma u64_small (z : Z) : 0 <= z < 2 ^ 64 -> u64 z = z.
Proof. intros H. unfold u64. apply Z.mod_small. exact H. Qed.

Lemma u32_range (z : Z) : 0 <= u32 z < 2 ^ 32.
Proof. unfold u32. apply Z.mod_pos_bound. reflexivity. Qed.

Lemma ALIGN_VALUE_2 (v : Z) : ALIGN_VALUE v 2 = v + v mod 2.
Proof.
  unfold ALIGN_VALUE. f_equal.
  change (2 - 1) with (Z.ones 1). rewrite Z.land_ones by lia.
  change (2 ^ 1) with 2.
  replace (2 - v) with (v + (1 - v) * 2) by lia.
  apply Z.mod_add. lia.
Qed.

Lemma ALIGN_VALUE_align2 (v : Z) : ALIGN_VALUE v 2 = align2 v.
Proof.
  rewrite ALIGN_VALUE_2. unfold align2.
  pose proof (Z.div_mod v 2 ltac:(lia)) as Hv.
  pose proof (Z.mod_pos_bound v 2 ltac:(lia)) as Hb.
  assert (Hc : v mod 2 = 0 \/ v mod 2 = 1) by lia.
  destruct Hc as [Hc | Hc]; rewrite Hc in *.
  - replace (v + 1) with (1 + (v / 2) * 2) by lia.
    rewrite Z.div_add by lia. change (1 / 2) with 0. lia.
  - replace (v + 1) with (0 + (v / 2 + 1) * 2) by lia.
    rewrite Z.div_add by lia. change (0 / 2) with 0. lia.
Qed.

Lemma EFI_ERROR_false (s : EFI_STATUS) : EFI_ERROR s = false -> s = EFI_SUCCESS.
Proof. destruct s; simpl; intros H; congruence. Qed.

(* ================================================================== *)
(** * Lemmas: byte buffers                                             *)
(* ================================================================== *)

Lemma blit_nth (bs : list byte) : forall buf r,
  blit bs buf = Done r ->
  (length bs <= length buf)%nat /\
  forall i, nth_error r i =
            if (i <? length bs)%nat then nth_error bs i else nth_error buf i.
Proof.
  induction bs as [| b bs IH]; intros buf r H; simpl in H.
  - inversion H; subst. split; [simpl; lia |]. intros i. reflexivity.
  - destruct buf as [| x buf]; [discriminate |].
    destruct (blit bs buf) as [r' |] eqn:E; simpl in H; [| discriminate].
    inversion H; subst. destruct (IH _ _ E) as [Hlen Hnth].
    split; [simpl; lia |].
    intros [| i]; [reflexivity |]. simpl nth_error. rewrite Hnth.
    reflexivity.
Qed.

Lemma poke_at_nth (off : nat) : forall buf bs r,
  poke_at buf off bs = Done r ->
  (bs <> [] -> (off + length bs <= length buf)%nat) /\
  forall i, nth_error r i =
            if ((off <=? i) && (i <? off + length bs))%nat
            then nth_error bs (i - off) else nth_error buf i.
Proof.
  induction off as [| off IH]; intros buf bs r H; simpl in H.
  - destruct (blit_nth _ _ _ H) as [Hlen Hnth]. split; [intros _; simpl; lia |].
    intros i. rewrite Hnth. simpl. rewrite Nat.sub_0_r. reflexivity.
  - destruct buf as [| x buf].
    + destruct bs; [| discriminate]. inversion H; subst.
      split; [congruence |]. intros i. simpl length. rewrite Nat.add_0_r.
      destruct ((S off <=? i) && (i <? S off))%nat eqn:E; [| reflexivity].
      apply andb_prop in E. destruct E as [E1 E2].
      apply Nat.leb_le in E1. apply Nat.ltb_lt in E2. lia.
    + destruct (poke_at buf off bs) as [r' |] eqn:E; simpl in H; [| discriminate].
      inversion H; subst. destruct (IH _ _ _ E) as [Hlen Hnth].
      split; [intros Hne; specialize (Hlen Hne); simpl; lia |].
      intros [| i]; [reflexivity |]. simpl nth_error. rewrite Hnth.
      reflexivity.
Qed.

Lemma poke_at_length (off : nat) : forall buf bs r,
  poke_at buf off bs = Done r -> length r = length buf.
Proof.
  intros buf bs r H. destruct (poke_at_nth _ _ _ _ H) as [Hlen Hnth].
  destruct (Nat.lt_trichotomy (length r) (length buf)) as [Hlt | [Heq | Hgt]];
    [exfalso | exact Heq | exfalso].
  - specialize (Hnth (length r)).
    rewrite (proj2 (nth_error_None r (length r))) in Hnth by lia.
    destruct ((off <=? length r) && (length r <? off + length bs))%nat eqn:E.
    + apply andb_prop in E. destruct E as [E1 E2].
      apply Nat.leb_le in E1. apply Nat.ltb_lt in E2.
      symmetry in Hnth. apply nth_error_None in Hnth. lia.
    + symmetry in Hnth. apply nth_error_None in Hnth. lia.
  - specialize (Hnth (length buf)).
    assert (Hs : nth_error r (length buf) <> None) by (apply nth_error_Some; lia).
    destruct ((off <=? length buf) && (length buf <? off + length bs))%nat eqn:E.
    + apply andb_prop in E. destruct E as [E1 E2].
      apply Nat.leb_le in E1. apply Nat.ltb_lt in E2.
      assert (Hne : bs <> []) by (destruct bs; [simpl in E2; lia | congruence]).
      specialize (Hlen Hne). lia.
    + rewrite Hnth in Hs. apply Hs. apply nth_error_None. lia.
Qed.

Lemma peek_nth (buf : list byte) (off : Z) (n i : nat) :
  nth_error (peek buf off n) i =
  if (i <? n)%nat then nth_error buf (Z.to_nat off + i) else None.
Proof.
  unfold peek. rewrite nth_error_firstn.
  destruct (i <? n)%nat; [| reflexivity]. apply nth_error_skipn.
Qed.

Lemma poke_length (buf : list byte) (off : Z) (bs r : list byte) :
  poke buf off bs = Done r -> length r = length buf.
Proof.
  unfold poke. destruct (off <? 0); [discriminate |]. apply poke_at_length.
Qed.

Lemma poke_bounds (buf : list byte) (off : Z) (bs r : list byte) :
  poke buf off bs = Done r ->
  0 <= off /\ (bs <> [] -> off + Z.of_nat (length bs) <= Z.of_nat (length buf)).
Proof.
  unfold poke. destruct (off <? 0) eqn:E; [discriminate |]. intros H.
  apply Z.ltb_ge in E. split; [exact E |]. intros Hne.
  destruct (poke_at_nth _ _ _ _ H) as [Hlen _]. specialize (Hlen Hne). lia.
Qed.

(** Reading back what was stored. *)
Lemma peek_poke_same (buf : list byte) (off : Z) (bs r : list byte) :
  poke buf off bs = Done r -> peek r off (length bs) = bs.
Proof.
  intros H. unfold poke in H. destruct (off <? 0) eqn:E; [discriminate |].
  destruct (poke_at_nth _ _ _ _ H) as [Hlen Hnth].
  apply nth_error_ext. intros i. rewrite peek_nth.
  destruct (i <? length bs)%nat eqn:Ei.
  - apply Nat.ltb_lt in Ei. rewrite Hnth.
    replace ((Z.to_nat off <=? Z.to_nat off + i)
             && (Z.to_nat off + i <? Z.to_nat off + length bs))%nat with true.
    + f_equal. lia.
    + symmetry. apply andb_true_intro. split;
        [apply Nat.leb_le | apply Nat.ltb_lt]; lia.
  - apply Nat.ltb_ge in Ei. symmetry. apply nth_error_None. exact Ei.
Qed.

(** A store leaves every disjoint range as it was. *)
Lemma peek_poke_other (buf : list byte) (off : Z) (bs r : list byte) (o : Z) (n : nat) :
  poke buf off bs = Done r ->
  0 <= o ->
  o + Z.of_nat n <= off \/ off + Z.of_nat (length bs) <= o ->
  peek r o n = peek buf o n.
Proof.
  intros H Ho Hd. unfold poke in H. destruct (off <? 0) eqn:E; [discriminate |].
  apply Z.ltb_ge in E.
  destruct (poke_at_nth _ _ _ _ H) as [_ Hnth].
  apply nth_error_ext. intros i. rewrite !peek_nth.
  destruct (i <? n)%nat eqn:Ei; [| reflexivity].
  apply Nat.ltb_lt in Ei. rewrite Hnth.
  destruct ((Z.to_nat off <=? Z.to_nat o + i)
            && (Z.to_nat o + i <? Z.to_nat off + length bs))%nat eqn:E2;
    [| reflexivity].
  apply andb_prop in E2. destruct E2 as [E1 E2].
  apply Nat.leb_le in E1. apply Nat.ltb_lt in E2. lia.
Qed.

Lemma store_length (buf : list byte) (off : Z) (w : nat) (v : Z) (r : list byte) :
  store buf off w v = Done r -> length r = length buf.
Proof. apply poke_length. Qed.

Lemma load_store_same (buf : list byte) (off : Z) (w : nat) (v : Z) (r : list byte) :
  store buf off w v = Done r -> load r off w = v mod 2 ^ (Z.of_nat w * 8).
Proof.
  intros H. unfold load. unfold store in H. apply peek_poke_same in H.
  rewrite length_le_split in H. rewrite H. apply le_combine_split.
Qed.

Lemma peek_store_other (buf : list byte) (off : Z) (w : nat) (v : Z) (r : list byte)
  (o : Z) (n : nat) :
  store buf off w v = Done r ->
  0 <= o ->
  o + Z.of_nat n <= off \/ off + Z.of_nat w <= o ->
  peek r o n = peek buf o n.
Proof.
  intros H Ho Hd. unfold store in H.
  eapply peek_poke_other; [exact H | exact Ho |].
  rewrite length_le_split. exact Hd.
Qed.

Lemma store_bounds (buf : list byte) (off : Z) (w : nat) (v : Z) (r : list byte) :
  store buf off w v = Done r -> 0 <= off.
Proof. intros H. unfold store in H. apply poke_bounds in H. tauto. Qed.

(* ================================================================== *)
(** * Lemmas: BuildRhctTable, the control flow                         *)
(* ================================================================== *)

(** Invert an equation between constructor terms, without reducing
    the terms equated. *)
Lemma Done_inj {A : Type} (a b : A) : Done a = Done b -> a = b.
Proof. intros H. congruence. Qed.

Lemma Some_inj {A : Type} (a b : A) : Some a = Some b -> a = b.
Proof. intros H. congruence. Qed.

Ltac inv_core H :=
  match type of H with
  | Done _ = Done _ => apply Done_inj in H; inv_core H
  | Some _ = Some _ => apply Some_inj in H; inv_core H
  | (_, _) = (_, _) =>
      let H1 := fresh in
      let H2 := fresh in
      apply pair_equal_spec in H; destruct H as [H1 H2];
      inv_core H1; inv_core H2
  | _ => idtac
  end.

Ltac inv H :=
  cbv beta iota zeta delta [EFI_ERROR] in H;
  first [ discriminate H | inv_core H; subst ].

(** Case analysis on the outcome bound first in a hypothesis. *)
Ltac bind_inv H :=
  match type of H with
  | obind ?m _ = Done _ =>
      let E := fresh "E" in
      destruct m eqn:E; cbn [obind] in H; [| discriminate H]
  end.

Ltac bind_inv_as H x E :=
  match type of H with
  | obind ?m _ = Done _ =>
      destruct m as [x |] eqn:E; cbn [obind] in H; [| discriminate H]
  end.

Section GeneratorFlow.
Context `{L : RhctDecls}.

Lemma error_handler_result (Status s : EFI_STATUS) (w w' : RhctWorld) :
  error_handler Status w = Done (s, w') ->
  s = Status /\ Table w' = None /\ NodeIndexer (Generator w') = None.
Proof.
  unfold error_handler. intros H.
  destruct (NodeIndexer (Generator w)) as [[p ix] |] eqn:En; simpl in H.
  - destruct (FreePool p (Heap w)) as [h |]; simpl in H; [| discriminate].
    destruct (Table w) as [[q t] |] eqn:Et; simpl in H.
    + destruct (FreePool q h); simpl in H; [| discriminate]. inv H. auto.
    + inv H. simpl. auto.
  - destruct (Table w) as [[q t] |] eqn:Et; simpl in H.
    + destruct (FreePool q (Heap w)); simpl in H; [| discriminate]. inv H.
      simpl. auto.
    + inv H. auto.
Qed.

Lemma error_handler_not_success (Status : EFI_STATUS) (w w' : RhctWorld) :
  EFI_ERROR Status = true -> error_handler Status w <> Done (EFI_SUCCESS, w').
Proof.
  intros He H. apply error_handler_result in H. destruct H as [H _].
  subst. discriminate.
Qed.

(** A successful build went through the planner, the header writer
    and the node writers, and returns the table they filled. *)
Lemma BuildRhctTable_success_inv (Info : CM_STD_OBJ_ACPI_TABLE_INFO)
  (Cfg : EDKII_CONFIGURATION_MANAGER_PROTOCOL) (w w' : RhctWorld) :
  BuildRhctTable Info Cfg w = Done (EFI_SUCCESS, w') ->
  exists P hdr T0 T1 tb h h1,
    BuildRhctTable_plan (IsaListOf Cfg) (CmoListOf Cfg) (HartListOf Cfg)
      (NodeCountOf Cfg) (zero_indexer (NodeCountOf Cfg)) = Done (EFI_SUCCESS, P)
    /\ cm_AddAcpiHeader Cfg (plan_TableSize P) = (EFI_SUCCESS, hdr)
    /\ poke (repeat x00 (Z.to_nat (plan_TableSize P))) 0 hdr = Done T0
    /\ BuildRhctTable_fill (snd (GetERiscVObjTimerInfo Cfg))
         (IsaListOf Cfg) (CmoListOf Cfg) (HartListOf Cfg) (NodeCountOf Cfg) P T0 h
       = Done (EFI_SUCCESS, T1, h1)
    /\ Table w' = Some (tb, T1)
    /\ Heap w' = h1.
Proof.
  unfold BuildRhctTable, NodeCountOf, zero_indexer, IsaListOf, CmoListOf, HartListOf.
  intros H.
  destruct (_ || _); [discriminate |].
  destruct (GetERiscVObjTimerInfo Cfg) as [s1 Timer].
  destruct (EFI_ERROR s1) eqn:E1;
    [exfalso; eapply error_handler_not_success; eauto |].
  destruct (GetERiscVObjIsaStringInfo Cfg) as [s2 Isa].
  destruct (EFI_ERROR s2) eqn:E2;
    [exfalso; eapply error_handler_not_success; eauto |].
  destruct (GetERiscVObjCmoInfo Cfg) as [s3 Cmo].
  destruct (EFI_ERROR s3 && negb (is_not_found s3)) eqn:E3.
  { exfalso. eapply error_handler_not_success; [| eauto].
    apply andb_prop in E3. tauto. }
  destruct (GetERiscVObjRintcInfo Cfg) as [s4 Rintc].
  destruct (EFI_ERROR s4) eqn:E4;
    [exfalso; eapply error_handler_not_success; eauto |].
  simpl snd.
  destruct (AllocateZeroPool (Heap (with_Table w None))) as [[ni |] h0] eqn:Ea;
    [| exfalso; eapply error_handler_not_success; [| eauto]; reflexivity].
  bind_inv H. destruct a as [s5 P].
  destruct (EFI_ERROR s5) eqn:E5;
    [exfalso; eapply error_handler_not_success; eauto |].
  apply EFI_ERROR_false in E5. subst s5.
  match type of H with
  | context [AllocateZeroPool ?hp] =>
      destruct (AllocateZeroPool hp) as [[tb |] h2] eqn:Eb
  end; [| exfalso; eapply error_handler_not_success; [| eauto]; reflexivity].
  destruct (cm_AddAcpiHeader Cfg (plan_TableSize P)) as [s6 hdr] eqn:Eh.
  destruct (EFI_ERROR s6) eqn:E6;
    [exfalso; eapply error_handler_not_success; eauto |].
  apply EFI_ERROR_false in E6. subst s6.
  bind_inv H. rename a into T0.
  bind_inv H. destruct a as [[s7 T1] h1].
  destruct (EFI_ERROR s7) eqn:E7;
    [exfalso; eapply error_handler_not_success; eauto |].
  apply EFI_ERROR_false in E7. subst s7. inv H.
  exists P, hdr, T0, T1, tb, h2, h1. simpl. repeat split; auto.
Qed.

End GeneratorFlow.

(* ================================================================== *)
(** * Lemmas: the node writers                                         *)
(* ================================================================== *)

(** Turn [layout_ok = true] into arithmetic facts. *)
Ltac layout_facts H :=
  unfold layout_ok, fits, before in H;
  repeat match goal with
         | X : (_ && _) = true |- _ => apply andb_prop in X; destruct X
         | X : (_ <=? _) = true |- _ => apply Z.leb_le in X
         | X : (_ <? _) = true |- _ => apply Z.ltb_lt in X
         | X : (_ =? _) = true |- _ => apply Z.eqb_eq in X
         | X : Nat.eqb _ _ = true |- _ => apply Nat.eqb_eq in X
         end.

Lemma store_field_length (b : list byte) (base : Z) (f : Field) (v : Z) (b' : list byte) :
  store_field b base f v = Done b' -> length b' = length b.
Proof. apply store_length. Qed.

Lemma store_field_frame (b : list byte) (base : Z) (f : Field) (v : Z) (b' : list byte)
  (o : Z) (n : nat) :
  store_field b base f v = Done b' ->
  0 <= o ->
  o + Z.of_nat n <= base + f_off f \/ base + f_off f + Z.of_nat (f_size f) <= o ->
  peek b' o n = peek b o n.
Proof. intros H Ho Hd. eapply peek_store_other; eauto. Qed.

Lemma load_field_same (b : list byte) (base : Z) (f : Field) (v : Z) (b' : list byte) :
  store_field b base f v = Done b' ->
  load_field b' base f = v mod 2 ^ (Z.of_nat (f_size f) * 8).
Proof. apply load_store_same. Qed.

Lemma load_field_peek (b b' : list byte) (base : Z) (f : Field) :
  peek b' (base + f_off f) (f_size f) = peek b (base + f_off f) (f_size f) ->
  load_field b' base f = load_field b base f.
Proof. intros H. unfold load_field, load. rewrite H. reflexivity. Qed.

Lemma length_words_bytes (ws : list Z) :
  length (words_bytes ws) = (4 * length ws)%nat.
Proof.
  unfold words_bytes. induction ws as [| x ws IH]; [reflexivity |].
  cbn [flat_map]. rewrite length_app, length_le_split, IH. cbn [length]. lia.
Qed.

Lemma CopyMem_words_length (Offsets : option (nat * list Z)) (n : Z) (src : list byte) :
  0 <= n ->
  CopyMem_words Offsets n = Done src -> Z.of_nat (length src) = 4 * n.
Proof.
  intros Hn. unfold CopyMem_words.
  destruct (n <=? 0) eqn:E.
  - apply Z.leb_le in E. intros H. inv H. cbn [length]. lia.
  - apply Z.leb_gt in E. destruct Offsets as [[p ws] |]; [| discriminate].
    destruct (n <=? Z.of_nat (length ws)) eqn:E2; [| discriminate].
    apply Z.leb_le in E2. intros H. inv H.
    rewrite length_words_bytes, length_firstn. lia.
Qed.

Section Writers.
Context `{L : RhctDecls}.
Hypothesis Hok : layout_ok = true.

(** AddCmoNodes writes at or after [NodesStartOffset] only. *)
Lemma AddCmoNodes_frame (l : list CM_RISCV_CMO_NODE) :
  forall b base s b',
    0 <= base ->
    AddCmoNodes b base l = Done (s, b') ->
    length b' = length b /\
    forall o n, 0 <= o -> o + Z.of_nat n <= base -> peek b' o n = peek b o n.
Proof.
  pose proof Hok as Hl. layout_facts Hl.
  induction l as [| c l IH]; intros b base s b' Hb Hrun; simpl in Hrun.
  - inv Hrun. auto.
  - repeat bind_inv Hrun.
    destruct (IH _ _ _ _ Hb Hrun) as [Hlen Hfr].
    split.
    + rewrite Hlen.
      repeat match goal with
             | X : store_field _ _ _ _ = Done _ |- _ =>
                 apply store_field_length in X; rewrite X; clear X
             end.
      reflexivity.
    + intros o n Ho Hon. rewrite Hfr by assumption.
      repeat match goal with
             | X : store_field _ _ _ _ = Done ?a |- peek ?a _ _ = _ =>
                 rewrite (store_field_frame _ _ _ _ _ o n X Ho) by lia; clear X
             end.
      reflexivity.
Qed.

(** The hart-info writer: every node carries the count, the uid and
    the same copy of the scratch array; nothing before the first node
    is touched. *)
Lemma AddHartInfoNodes_loop_written (n : Z) (Offsets : option (nat * list Z))
  (l : list CM_RISCV_RINTC_INFO) :
  forall b base b',
    0 <= base -> 0 <= n ->
    Z.of_nat (length b) < 2 ^ 32 ->
    AddHartInfoNodes_loop b base n Offsets l = Done (EFI_SUCCESS, b') ->
    length b' = length b
    /\ (forall o m, 0 <= o -> o + Z.of_nat m <= base -> peek b' o m = peek b o m)
    /\ forall k r, nth_error l k = Some r ->
         let a := base + Z.of_nat k * (sizeof_RHCT_HART_INFO_NODE + 4 * n) in
         exists src,
           CopyMem_words Offsets n = Done src
           /\ sizeof_RHCT_HART_INFO_NODE + 4 * n <= 65535
           /\ load_field b' a Node_Length = sizeof_RHCT_HART_INFO_NODE + 4 * n
           /\ load_field b' a Hart_NumOffsets = n mod 2 ^ 16
           /\ load_field b' a Hart_Uid = AcpiProcessorUid r mod 2 ^ 32
           /\ peek b' (a + Hart_Offsets) (length src) = src.
Proof.
  pose proof Hok as Hl. layout_facts Hl.
  induction l as [| x l IH]; intros b base b' Hb Hn Hlen Hrun; simpl in Hrun.
  - inv Hrun. split; [reflexivity |]. split; [reflexivity |].
    intros [| k] r Hk; discriminate.
  - destruct (MAX_UINT16 <? GetHartInfoSize n) eqn:Emax; [discriminate |].
    apply Z.ltb_ge in Emax.
    bind_inv_as Hrun b1 Et. bind_inv_as Hrun b2 El. bind_inv_as Hrun b3 Er.
    bind_inv_as Hrun b4 En. bind_inv_as Hrun b5 Eu. bind_inv_as Hrun src Es.
    bind_inv_as Hrun b6 Ep.
    pose proof (CopyMem_words_length _ _ _ Hn Es) as Hsrc.
    assert (Hlen6 : length b6 = length b).
    { apply poke_length in Ep.
      apply store_field_length in Et, El, Er, En, Eu. congruence. }
    (* the node length did not wrap *)
    assert (Hnw : GetHartInfoSize n = sizeof_RHCT_HART_INFO_NODE + 4 * n).
    { unfold GetHartInfoSize. apply u32_small.
      destruct (Z.eq_dec n 0) as [-> | Hn0]; [lia |].
      apply poke_bounds in Ep. destruct Ep as [_ Ep].
      assert (Hne : src <> []) by (destruct src; [cbn [length] in Hsrc; lia | congruence]).
      specialize (Ep Hne). apply store_field_length in Et, El, Er, En, Eu.
      assert (length b5 = length b) by congruence. lia. }
    rewrite Hnw in *.
    assert (Hb' : 0 <= base + (sizeof_RHCT_HART_INFO_NODE + 4 * n)) by lia.
    assert (Hlen6' : Z.of_nat (length b6) < 2 ^ 32) by (rewrite Hlen6; exact Hlen).
    destruct (IH _ _ _ Hb' Hn Hlen6' Hrun) as [Hlen' [Hfr Hnodes]].
    split; [congruence |]. split.
    + intros o m Ho Hom. rewrite Hfr by lia.
      rewrite (peek_poke_other _ _ _ _ o m Ep Ho) by lia.
      rewrite (store_field_frame _ _ _ _ _ o m Eu Ho) by lia.
      rewrite (store_field_frame _ _ _ _ _ o m En Ho) by lia.
      rewrite (store_field_frame _ _ _ _ _ o m Er Ho) by lia.
      rewrite (store_field_frame _ _ _ _ _ o m El Ho) by lia.
      rewrite (store_field_frame _ _ _ _ _ o m Et Ho) by lia.
      reflexivity.
    + intros [| k] r Hk; simpl in Hk.
      * inv Hk. cbv zeta. change (Z.of_nat 0) with 0.
        rewrite Z.mul_0_l, Z.add_0_r.
        exists src. split; [reflexivity |].
        split; [unfold MAX_UINT16 in Emax; lia |].
        assert (Hpk : forall o m, 0 <= o ->
                  o + Z.of_nat m <= base + (sizeof_RHCT_HART_INFO_NODE + 4 * n) ->
                  peek b' o m = peek b6 o m) by (intros; apply Hfr; lia).
        split; [| split; [| split]].
        -- (* length *)
           rewrite (load_field_peek b6) by (apply Hpk; lia).
           rewrite (load_field_peek b5)
             by (apply (peek_poke_other _ _ _ _ _ _ Ep); lia).
           rewrite (load_field_peek b4)
             by (apply (store_field_frame _ _ _ _ _ _ _ Eu); lia).
           rewrite (load_field_peek b3)
             by (apply (store_field_frame _ _ _ _ _ _ _ En); lia).
           rewrite (load_field_peek b2)
             by (apply (store_field_frame _ _ _ _ _ _ _ Er); lia).
           rewrite (load_field_same _ _ _ _ _ El).
           replace (f_size Node_Length) with 2%nat by congruence.
           change (Z.of_nat 2 * 8) with 16. unfold u16.
           rewrite Z.mod_mod by lia. apply Z.mod_small. unfold MAX_UINT16 in Emax. lia.
        -- (* count *)
           rewrite (load_field_peek b6) by (apply Hpk; lia).
           rewrite (load_field_peek b5)
             by (apply (peek_poke_other _ _ _ _ _ _ Ep); lia).
           rewrite (load_field_peek b4)
             by (apply (store_field_frame _ _ _ _ _ _ _ Eu); lia).
           rewrite (load_field_same _ _ _ _ _ En).
           replace (f_size Hart_NumOffsets) with 2%nat by congruence.
           reflexivity.
        -- (* uid *)
           rewrite (load_field_peek b6) by (apply Hpk; lia).
           rewrite (load_field_peek b5)
             by (apply (peek_poke_other _ _ _ _ _ _ Ep); lia).
           rewrite (load_field_same _ _ _ _ _ Eu).
           replace (f_size Hart_Uid) with 4%nat by congruence.
           reflexivity.
        -- (* offsets *)
           rewrite Hpk by lia. apply (peek_poke_same _ _ _ _ Ep).
      * cbv zeta. specialize (Hnodes k r Hk). cbv zeta in Hnodes.
        replace (base + Z.of_nat (S k) * (sizeof_RHCT_HART_INFO_NODE + 4 * n))
          with (base + (sizeof_RHCT_HART_INFO_NODE + 4 * n)
                + Z.of_nat k * (sizeof_RHCT_HART_INFO_NODE + 4 * n)) by lia.
        exact Hnodes.
Qed.

End Writers.

(* ================================================================== *)
(** * Lemmas: the size planner                                         *)
(* ================================================================== *)

Lemma AsciiStrLen_nonneg (s : list byte) : 0 <= AsciiStrLen s.
Proof.
  induction s as [| c s IH]; cbn [AsciiStrLen]; [lia |].
  destruct (Byte.eqb c x00); lia.
Qed.

Lemma AsciiStrLen_cstring (s : list byte) :
  Z.of_nat (length (cstring s)) = AsciiStrLen s.
Proof.
  induction s as [| c s IH]; [reflexivity |].
  cbn [cstring AsciiStrLen]. destruct (Byte.eqb c x00); [reflexivity |].
  cbn [length]. lia.
Qed.

Lemma Count_nil {T : Type} : Count (@nil T) = 0.
Proof. reflexivity. Qed.

Lemma Count_cons {T : Type} (x : T) (l : list T) : Count (x :: l) = Count l + 1.
Proof. unfold Count. cbn [length]. lia. Qed.

Lemma Count_nonneg {T : Type} (l : list T) : 0 <= Count l.
Proof. unfold Count. lia. Qed.

Lemma Count_pos_inv {T : Type} (l : list T) :
  (0 <? Count l) = false -> l = [].
Proof.
  destruct l; [reflexivity |]. rewrite Count_cons. intros H.
  apply Z.ltb_ge in H. pose proof (Count_nonneg l). lia.
Qed.

Section Planner.
Context `{L : RhctDecls}.
Hypothesis Hok : layout_ok = true.

Lemma GetSizeofCmoNodes_loop_size (start : Z) (l : list CM_RISCV_CMO_NODE) :
  forall k Size c r c',
    0 <= Size ->
    Size + Count l * sizeof_RHCT_CMO_NODE < 2 ^ 64 ->
    GetSizeofCmoNodes_loop start l k Size c = Done (r, c') ->
    r = Size + Count l * sizeof_RHCT_CMO_NODE.
Proof.
  pose proof Hok as Hl. layout_facts Hl.
  induction l as [| x l IH]; intros k Size c r c' HS Hb Hrun; simpl in Hrun.
  - inv Hrun. unfold Count. cbn [length]. lia.
  - bind_inv Hrun. rewrite Count_cons in *. pose proof (Count_nonneg l).
    apply IH in Hrun.
    + rewrite Hrun. rewrite u64_small by nia. lia.
    + unfold u64. apply Z.mod_pos_bound. lia.
    + rewrite u64_small by nia. nia.
Qed.

Lemma GetSizeofHartInfoNodes_loop_size (start n sz : Z) (l : list CM_RISCV_RINTC_INFO) :
  GetHartInfoSize n = sz -> 0 <= sz ->
  forall k Size c r c',
    0 <= Size ->
    Size + Count l * sz < 2 ^ 64 ->
    GetSizeofHartInfoNodes_loop start l k n Size c = Done (r, c') ->
    r = Size + Count l * sz.
Proof.
  intros Hsz Hnn.
  induction l as [| x l IH]; intros k Size c r c' HS Hb Hrun; simpl in Hrun.
  - inv Hrun. unfold Count. cbn [length]. lia.
  - bind_inv Hrun. rewrite Count_cons in *. pose proof (Count_nonneg l).
    rewrite Hsz in Hrun. apply IH in Hrun.
    + rewrite Hrun. rewrite u64_small by nia. lia.
    + unfold u64. apply Z.mod_pos_bound. lia.
    + rewrite u64_small by nia. nia.
Qed.

Lemma IsaNodeSize_nonneg (Isa : list CM_RISCV_ISA_STRING_NODE) :
  0 <= IsaNodeSize Isa.
Proof.
  pose proof Hok as Hl. layout_facts Hl.
  unfold IsaNodeSize. destruct Isa as [| [[s |]] rest]; try lia.
  rewrite ALIGN_VALUE_2. unfold AsciiStrSize.
  pose proof (AsciiStrLen_nonneg s).
  pose proof (Z.mod_pos_bound (AsciiStrLen s + 1) 2 ltac:(lia)). lia.
Qed.

(** Below the 32-bit ceiling the planner computes the closed forms. *)
Lemma BuildRhctTable_plan_closed (Cfg : EDKII_CONFIGURATION_MANAGER_PROTOCOL)
  (c : IndexerCursor) (P : RhctPlan) :
  table_fits Cfg = true ->
  BuildRhctTable_plan (IsaListOf Cfg) (CmoListOf Cfg) (HartListOf Cfg)
    (NodeCountOf Cfg) c = Done (EFI_SUCCESS, P) ->
  plan_TableSize P = TableSizeOf Cfg
  /\ (0 < Count (IsaListOf Cfg) ->
      plan_IsaStringOffset P = IsaStringOffsetOf
      /\ IsaNodeSize (IsaListOf Cfg) <= 65535
      /\ exists s rest, IsaListOf Cfg = mkIsa (Some s) :: rest)
  /\ (0 < Count (CmoListOf Cfg) -> plan_CmoOffset P = CmoOffsetOf Cfg)
  /\ (0 < Count (HartListOf Cfg) -> plan_HartInfoOffset P = HartInfoOffsetOf Cfg).
Proof.
  pose proof Hok as Hl. layout_facts Hl.
  unfold table_fits, TableSizeOf, HartNodeSizeOf, HartInfoOffsetOf, CmoOffsetOf,
    NumOffsetsOf, IsaStringOffsetOf, NodeCountOf.
  generalize (IsaListOf Cfg) (CmoListOf Cfg) (HartListOf Cfg).
  intros Isa Cmo Harts Hfit Hrun.
  apply andb_prop in Hfit. destruct Hfit as [Hcnt Hsize].
  apply Z.ltb_lt in Hcnt. apply Z.ltb_lt in Hsize.
  pose proof (Count_nonneg Isa) as HcI. pose proof (Count_nonneg Cmo) as HcC.
  pose proof (Count_nonneg Harts) as HcH.
  pose proof (IsaNodeSize_nonneg Isa) as HsI.
  assert (HN : u32 (u32 (Count Isa + Count Cmo) + Count Harts)
               = Count Isa + Count Cmo + Count Harts).
  { rewrite (u32_small (Count Isa + Count Cmo)) by lia. apply u32_small. lia. }
  rewrite HN in Hrun.
  assert (Hn : u32 (Count Isa + Count Cmo + Count Harts - Count Harts)
               = Count Isa + Count Cmo).
  { replace (Count Isa + Count Cmo + Count Harts - Count Harts)
      with (Count Isa + Count Cmo) by lia. apply u32_small. lia. }
  assert (HszT : u32 sizeof_RHCT_TABLE = sizeof_RHCT_TABLE) by (apply u32_small; lia).
  unfold BuildRhctTable_plan in Hrun. rewrite HszT, Hn in Hrun.
  (* ISA *)
  assert (Hmul1 : 0 <= Count Cmo * sizeof_RHCT_CMO_NODE) by nia.
  assert (Hmul2 : 0 <= Count Harts
            * (sizeof_RHCT_HART_INFO_NODE + 4 * (Count Isa + Count Cmo))) by nia.
  bind_inv_as Hrun r1 E1. destruct r1 as [[s1 T1] IsaOff].
  destruct (EFI_ERROR s1) eqn:Es1; [inv Hrun; cbn [EFI_ERROR] in *; discriminate |].
  assert (HI : T1 = sizeof_RHCT_TABLE + IsaNodeSize Isa
               /\ (0 < Count Isa ->
                   IsaOff = sizeof_RHCT_TABLE /\ IsaNodeSize Isa <= 65535
                   /\ exists s rest, Isa = mkIsa (Some s) :: rest)).
  { destruct (0 <? Count Isa) eqn:EI.
    - destruct Isa as [| [[s |]] rest]; try discriminate.
      cbn [IsaString] in E1.
      unfold GetIsaStringNodeSize in E1. unfold IsaNodeSize in *.
      rewrite (u32_small (_ + ALIGN_VALUE _ _)) in E1 by lia.
      destruct (MAX_UINT16 <? _) eqn:Em in E1.
      + inv E1. cbn [EFI_ERROR] in *. discriminate.
      + apply Z.ltb_ge in Em. unfold MAX_UINT16 in Em. cbn [EFI_ERROR] in E1.
        inv E1. rewrite u32_small by lia. split; [reflexivity |].
        intros _. split; [reflexivity |]. split; [lia |]. eauto.
    - inv E1. apply Count_pos_inv in EI. subst Isa. unfold IsaNodeSize.
      unfold Count. cbn [length]. split; lia. }
  destruct HI as [HT1 HIsa]. subst T1.
  (* CMO *)
  bind_inv_as Hrun r2 E2. destruct r2 as [[[s2 T2] CmoOff] c2].
  destruct (EFI_ERROR s2) eqn:Es2; [inv Hrun; cbn [EFI_ERROR] in *; discriminate |].
  assert (HC : T2 = sizeof_RHCT_TABLE + IsaNodeSize Isa
                    + Count Cmo * sizeof_RHCT_CMO_NODE
               /\ (0 < Count Cmo -> CmoOff = sizeof_RHCT_TABLE + IsaNodeSize Isa)).
  { destruct (0 <? Count Cmo) eqn:EC.
    - bind_inv_as E2 r E2'. destruct r as [Size c'].
      unfold GetSizeofCmoNodes in E2'.
      apply GetSizeofCmoNodes_loop_size in E2'; [| lia | lia].
      rewrite Z.add_0_l in E2'. subst Size.
      rewrite (u32_small (Count Cmo * _)) in E2 by lia.
      destruct (MAX_UINT32 <? _) in E2; inv E2; [cbn [EFI_ERROR] in *; discriminate |].
      rewrite u32_small by lia. auto.
    - inv E2. apply Count_pos_inv in EC. subst Cmo. unfold Count. cbn [length].
      split; lia. }
  destruct HC as [HT2 HCmo]. subst T2.
  (* Hart Info *)
  bind_inv_as Hrun r3 E3. destruct r3 as [[[s3 T3] HartOff] c3].
  destruct (EFI_ERROR s3) eqn:Es3; [inv Hrun; cbn [EFI_ERROR] in *; discriminate |].
  assert (HH : T3 = sizeof_RHCT_TABLE + IsaNodeSize Isa
                    + Count Cmo * sizeof_RHCT_CMO_NODE
                    + Count Harts
                      * (sizeof_RHCT_HART_INFO_NODE + 4 * (Count Isa + Count Cmo))
               /\ (0 < Count Harts ->
                   HartOff = sizeof_RHCT_TABLE + IsaNodeSize Isa
                             + Count Cmo * sizeof_RHCT_CMO_NODE)).
  { destruct (0 <? Count Harts) eqn:EH.
    - apply Z.ltb_lt in EH.
      bind_inv_as E3 r E3'. destruct r as [Size c'].
      unfold GetSizeofHartInfoNodes in E3'.
      assert (Hsz : GetHartInfoSize (Count Isa + Count Cmo)
                    = sizeof_RHCT_HART_INFO_NODE + 4 * (Count Isa + Count Cmo)).
      { unfold GetHartInfoSize. apply u32_small. nia. }
      apply (GetSizeofHartInfoNodes_loop_size _ _ _ _ Hsz) in E3'; [| lia | lia | lia].
      rewrite Z.add_0_l in E3'. subst Size.
      rewrite (u32_small (Count Harts * _)) in E3 by lia.
      destruct (MAX_UINT32 <? _) in E3; inv E3; [cbn [EFI_ERROR] in *; discriminate |].
      rewrite u32_small by lia. auto.
    - inv E3. apply Count_pos_inv in EH. subst Harts. unfold Count. cbn [length].
      split; lia. }
  destruct HH as [HT3 HHart]. subst T3.
  destruct (MAX_UINT32 <? _) in Hrun; inv Hrun. cbn [plan_TableSize
    plan_IsaStringOffset plan_CmoOffset plan_HartInfoOffset].
  repeat split; auto; try lia; apply HIsa; assumption.
Qed.

End Planner.

(* ================================================================== *)
(** * Lemmas: the scratch array and the ISA node                       *)
(* ================================================================== *)

Section FillLemmas.
Context `{L : RhctDecls}.
Hypothesis Hok : layout_ok = true.

Lemma firstn_repeat_all {A : Type} (x : A) (n : nat) :
  firstn n (repeat x n) = repeat x n.
Proof.
  rewrite <- (repeat_length x n) at 1. apply firstn_all.
Qed.

Lemma BuildOffsets_result (h h' : Pool) (a c x y : Z)
  (O : option (nat * list Z)) (src : list byte) :
  0 <= a -> 0 <= c ->
  BuildOffsets h (a + c) a c x y = Done (O, h') ->
  CopyMem_words O (a + c) = Done src ->
  let groups := (if 0 <? a then [x] else []) ++ (if 0 <? c then [y] else []) in
  src = words_bytes (groups ++ repeat 0 (Z.to_nat (a + c) - length groups)).
Proof.
  intros Ha Hc Hrun Hcp. unfold BuildOffsets in Hrun.
  destruct (AllocateZeroPool h) as [[id |] h1].
  - (* the array was allocated *)
    remember (Z.to_nat (a + c)) as N eqn:HN.
    unfold CopyMem_words in Hcp.
    destruct (0 <? a) eqn:Ea; destruct (0 <? c) eqn:Ec;
      try apply Z.ltb_lt in Ea; try apply Z.ltb_lt in Ec;
      try apply Z.ltb_ge in Ea; try apply Z.ltb_ge in Ec;
      unfold Offsets_set in Hrun; cbn [obind] in Hrun.
    + destruct N as [| [| N]]; cbn in Hrun; try discriminate. inv Hrun.
      destruct (a + c <=? 0) eqn:E0; [apply Z.leb_le in E0; lia |].
      cbn [length] in Hcp.
      destruct (a + c <=? _) in Hcp; [| discriminate]. inv Hcp.
      try rewrite <- HN. cbn [firstn app length Nat.sub].
      rewrite ?Nat.sub_0_r, firstn_repeat_all. reflexivity.
    + destruct N as [| N]; cbn in Hrun; try discriminate. inv Hrun.
      destruct (a + c <=? 0) eqn:E0; [apply Z.leb_le in E0; lia |].
      destruct (a + c <=? _) in Hcp; [| discriminate]. inv Hcp.
      try rewrite <- HN. cbn [firstn app length Nat.sub].
      rewrite ?Nat.sub_0_r, firstn_repeat_all. reflexivity.
    + destruct N as [| N]; cbn in Hrun; try discriminate. inv Hrun.
      destruct (a + c <=? 0) eqn:E0; [apply Z.leb_le in E0; lia |].
      destruct (a + c <=? _) in Hcp; [| discriminate]. inv Hcp.
      try rewrite <- HN. cbn [firstn app length Nat.sub].
      rewrite ?Nat.sub_0_r, firstn_repeat_all. reflexivity.
    + inv Hrun. assert (a + c = 0) as Hz by lia. rewrite Hz in *.
      cbn in Hcp. inv Hcp. reflexivity.
  - (* the allocation failed *)
    destruct (0 <? a) eqn:Ea; [discriminate |].
    destruct (0 <? c) eqn:Ec; [discriminate |].
    apply Z.ltb_ge in Ea, Ec. assert (a + c = 0) as Hz by lia.
    cbn [obind] in Hrun. inv Hrun. rewrite Hz in *.
    cbn in Hcp. inv Hcp. reflexivity.
Qed.

(** The ISA node as AddIsaStringNode leaves it. *)
Lemma AddIsaStringNode_written (b b' : list byte) (base : Z) (s : list byte) :
  0 <= base ->
  sizeof_RHCT_ISA_STRING_NODE + ALIGN_VALUE (AsciiStrSize s) 2 < 2 ^ 32 ->
  AddIsaStringNode b base s = Done (EFI_SUCCESS, b') ->
  length b' = length b
  /\ sizeof_RHCT_ISA_STRING_NODE + ALIGN_VALUE (AsciiStrSize s) 2 <= 65535
  /\ load_field b' base Node_Length
     = sizeof_RHCT_ISA_STRING_NODE + ALIGN_VALUE (AsciiStrSize s) 2
  /\ peek b' (base + sizeof_RHCT_ISA_STRING_NODE) (S (length (cstring s)))
     = cstring s ++ [x00].
Proof.
  pose proof Hok as Hl. layout_facts Hl.
  intros Hb Hnw Hrun. unfold AddIsaStringNode, GetIsaStringNodeSize in Hrun.
  pose proof (AsciiStrLen_nonneg s) as Hs0.
  assert (Hal : AsciiStrSize s <= ALIGN_VALUE (AsciiStrSize s) 2).
  { rewrite ALIGN_VALUE_2.
    pose proof (Z.mod_pos_bound (AsciiStrSize s) 2 ltac:(lia)). lia. }
  unfold AsciiStrSize in *.
  rewrite u32_small in Hrun by lia.
  destruct (MAX_UINT16 <? _) eqn:Em in Hrun; [inv Hrun |].
  apply Z.ltb_ge in Em. unfold MAX_UINT16 in Em.
  cbv beta iota zeta delta [EFI_ERROR] in Hrun.
  bind_inv_as Hrun b1 Et. bind_inv_as Hrun b2 El. bind_inv_as Hrun b3 Er.
  bind_inv_as Hrun b4 Ei. bind_inv_as Hrun b5 Es. inv Hrun.
  unfold AsciiStrCpyS in Es.
  rewrite (u16_small (AsciiStrLen s + 1 + 1)) in Es by lia.
  destruct (AsciiStrLen s <? _) eqn:Elt in Es; [| apply Z.ltb_ge in Elt; lia].
  split.
  { apply poke_length in Es. apply store_length in Ei.
    apply store_field_length in Et, El, Er. congruence. }
  split; [lia |]. split.
  - rewrite (load_field_peek b4).
    2:{ apply (peek_poke_other _ _ _ _ _ _ Es); lia. }
    rewrite (load_field_peek b3).
    2:{ apply (peek_store_other _ _ _ _ _ _ _ Ei); lia. }
    rewrite (load_field_peek b2).
    2:{ apply (store_field_frame _ _ _ _ _ _ _ Er); lia. }
    rewrite (load_field_same _ _ _ _ _ El).
    replace (f_size Node_Length) with 2%nat by congruence.
    change (Z.of_nat 2 * 8) with 16. unfold u16.
    rewrite Z.mod_mod by lia. apply Z.mod_small. lia.
  - apply peek_poke_same in Es. rewrite length_app in Es. cbn [length] in Es.
    rewrite Nat.add_1_r in Es. exact Es.
Qed.

End FillLemmas.

(* ================================================================== *)
(** * Lemmas: what a successful build leaves in the table              *)
(* ================================================================== *)

Section BuildLemmas.
Context `{L : RhctDecls}.
Hypothesis Hok : layout_ok = true.

Lemma NumOffsets_closed (Cfg : EDKII_CONFIGURATION_MANAGER_PROTOCOL) :
  table_fits Cfg = true ->
  u32 (NodeCountOf Cfg - Count (HartListOf Cfg)) = NumOffsetsOf Cfg.
Proof.
  unfold table_fits, NodeCountOf, NumOffsetsOf. intros Hfit.
  apply andb_prop in Hfit. destruct Hfit as [Hcnt _]. apply Z.ltb_lt in Hcnt.
  pose proof (Count_nonneg (IsaListOf Cfg)).
  pose proof (Count_nonneg (CmoListOf Cfg)).
  pose proof (Count_nonneg (HartListOf Cfg)).
  rewrite (u32_small (Count _ + Count _)) by lia.
  rewrite (u32_small (_ + Count (HartListOf Cfg))) by lia.
  replace (Count (IsaListOf Cfg) + Count (CmoListOf Cfg) + Count (HartListOf Cfg)
           - Count (HartListOf Cfg))
    with (Count (IsaListOf Cfg) + Count (CmoListOf Cfg)) by lia.
  apply u32_small. lia.
Qed.

Lemma nth_error_Count_pos {T : Type} (l : list T) (k : nat) (r : T) :
  nth_error l k = Some r -> (0 <? Count l) = true.
Proof.
  intros H. destruct l; [destruct k; discriminate |].
  rewrite Count_cons. pose proof (Count_nonneg l). apply Z.ltb_lt. lia.
Qed.

(** The contents of a table that BuildRhctTable returns. *)
Lemma BuildRhctTable_written (Info : CM_STD_OBJ_ACPI_TABLE_INFO)
  (Cfg : EDKII_CONFIGURATION_MANAGER_PROTOCOL) (w w' : RhctWorld)
  (tb : nat) (T : list byte) :
  table_fits Cfg = true ->
  BuildRhctTable Info Cfg w = Done (EFI_SUCCESS, w') ->
  Table w' = Some (tb, T) ->
  (forall s rest, IsaListOf Cfg = mkIsa (Some s) :: rest ->
     IsaNodeSize (IsaListOf Cfg) <= 65535
     /\ load_field T IsaStringOffsetOf Node_Length = IsaNodeSize (IsaListOf Cfg)
     /\ peek T (IsaStringOffsetOf + sizeof_RHCT_ISA_STRING_NODE)
          (S (length (cstring s))) = cstring s ++ [x00])
  /\ (forall k r, nth_error (HartListOf Cfg) k = Some r ->
        HartNodeSizeOf Cfg <= 65535
        /\ load_field T (HartNodeOffsetOf Cfg k) Node_Length = HartNodeSizeOf Cfg
        /\ load_field T (HartNodeOffsetOf Cfg k) Hart_NumOffsets = NumOffsetsOf Cfg
        /\ load_field T (HartNodeOffsetOf Cfg k) Hart_Uid
           = AcpiProcessorUid r mod 2 ^ 32
        /\ peek T (HartNodeOffsetOf Cfg k + Hart_Offsets)
             (4 * Z.to_nat (NumOffsetsOf Cfg)) = words_bytes (OffsetsOf Cfg)).
Proof.
  pose proof Hok as Hl. layout_facts Hl.
  intros Hfit Hbuild HT.
  apply BuildRhctTable_success_inv in Hbuild.
  destruct Hbuild as (P & hdr & T0 & T1 & tb' & h & h1 & Hplan & Hhdr & Hpk0 & Hfill & HT' & _).
  assert (HTT : T1 = T) by congruence. subst T1. clear HT'.
  destruct (BuildRhctTable_plan_closed Hok _ _ _ Hfit Hplan)
    as (HTS & HPI & HPC & HPH).
  pose proof (NumOffsets_closed _ Hfit) as HNO.
  pose proof (IsaNodeSize_nonneg Hok (IsaListOf Cfg)) as HsI.
  pose proof (Count_nonneg (IsaListOf Cfg)) as HcI.
  pose proof (Count_nonneg (CmoListOf Cfg)) as HcC.
  pose proof (Count_nonneg (HartListOf Cfg)) as HcH.
  pose proof Hfit as Hfit'. unfold table_fits in Hfit'.
  apply andb_prop in Hfit'. destruct Hfit' as [Hcnt Hsize].
  apply Z.ltb_lt in Hcnt. apply Z.ltb_lt in Hsize.
  assert (HlenT0 : Z.of_nat (length T0) < 2 ^ 32).
  { apply poke_length in Hpk0. rewrite Hpk0, repeat_length, HTS. lia. }
  unfold BuildRhctTable_fill in Hfill. rewrite HNO in Hfill.
  bind_inv_as Hfill Timer Etm.
  bind_inv_as Hfill c1 Ec1. bind_inv_as Hfill c2 Ec2.
  bind_inv_as Hfill c3 Ec3. bind_inv_as Hfill c4 Ec4.
  assert (Hlen4 : length c4 = length T0).
  { apply store_field_length in Ec1, Ec2, Ec3, Ec4. congruence. }
  bind_inv_as Hfill ri Eisa. destruct ri as [si bi].
  destruct (EFI_ERROR si) eqn:Esi; [inv Hfill; cbn [EFI_ERROR] in *; discriminate |].
  apply EFI_ERROR_false in Esi. subst si.
  bind_inv_as Hfill rc Ecmo. destruct rc as [sc bc].
  destruct (EFI_ERROR sc) eqn:Esc; [inv Hfill; cbn [EFI_ERROR] in *; discriminate |].
  apply EFI_ERROR_false in Esc. subst sc.
  bind_inv_as Hfill ro Eoff. destruct ro as [Offs h2].
  (* sizes *)
  assert (Hmul1 : 0 <= Count (CmoListOf Cfg) * sizeof_RHCT_CMO_NODE) by nia.
  assert (Hmul2 : 0 <= Count (HartListOf Cfg) * HartNodeSizeOf Cfg).
  { unfold HartNodeSizeOf, NumOffsetsOf. nia. }
  unfold TableSizeOf, HartInfoOffsetOf, CmoOffsetOf in Hsize.
  (* the ISA node after AddIsaStringNode *)
  assert (HI : length bi = length c4 /\
               forall s rest, IsaListOf Cfg = mkIsa (Some s) :: rest ->
                 IsaNodeSize (IsaListOf Cfg) <= 65535
                 /\ load_field bi IsaStringOffsetOf Node_Length
                    = IsaNodeSize (IsaListOf Cfg)
                 /\ peek bi (IsaStringOffsetOf + sizeof_RHCT_ISA_STRING_NODE)
                      (S (length (cstring s))) = cstring s ++ [x00]).
  { destruct (0 <? Count (IsaListOf Cfg)) eqn:EI.
    - apply Z.ltb_lt in EI. destruct (HPI EI) as (HPI1 & HPI2 & s0 & rest0 & HPI3).
      rewrite HPI3 in Eisa. cbn [IsaString] in Eisa. rewrite HPI1 in Eisa.
      rewrite HPI3 in HsI, Hsize. unfold IsaNodeSize in HsI, Hsize.
      apply AddIsaStringNode_written in Eisa;
        [| exact Hok | unfold IsaStringOffsetOf; lia | lia].
      destruct Eisa as (Hlen & Hle & Hld & Hstr).
      split; [exact Hlen |]. intros s rest Hs. rewrite HPI3 in Hs.
      injection Hs as Hs1 Hs2. subst s0 rest0.
      rewrite HPI3. unfold IsaNodeSize. auto.
    - inv Eisa. split; [reflexivity |]. intros s rest Hs.
      apply Count_pos_inv in EI. congruence. }
  destruct HI as [Hleni HI].
  (* AddCmoNodes keeps what lies before the CMO group *)
  assert (HC : length bc = length bi /\
               forall o m, 0 <= o ->
                 o + Z.of_nat m <= sizeof_RHCT_TABLE + IsaNodeSize (IsaListOf Cfg) ->
                 peek bc o m = peek bi o m).
  { destruct (0 <? Count (CmoListOf Cfg)) eqn:EC.
    - apply Z.ltb_lt in EC. rewrite (HPC EC) in Ecmo.
      apply AddCmoNodes_frame in Ecmo; [| exact Hok | unfold CmoOffsetOf; lia].
      destruct Ecmo as [Hlen Hfr]. split; [exact Hlen |].
      intros o m Ho Hom. apply Hfr; [exact Ho |]. unfold CmoOffsetOf. lia.
    - inv Ecmo. auto. }
  destruct HC as [Hlenc HC].
  (* the hart nodes *)
  assert (HH : (forall o m, 0 <= o ->
                  o + Z.of_nat m <= sizeof_RHCT_TABLE + IsaNodeSize (IsaListOf Cfg) ->
                  peek T o m = peek bc o m)
               /\ forall k r, nth_error (HartListOf Cfg) k = Some r ->
                    HartNodeSizeOf Cfg <= 65535
                    /\ load_field T (HartNodeOffsetOf Cfg k) Node_Length
                       = HartNodeSizeOf Cfg
                    /\ load_field T (HartNodeOffsetOf Cfg k) Hart_NumOffsets
                       = NumOffsetsOf Cfg
                    /\ load_field T (HartNodeOffsetOf Cfg k) Hart_Uid
                       = AcpiProcessorUid r mod 2 ^ 32
                    /\ peek T (HartNodeOffsetOf Cfg k + Hart_Offsets)
                         (4 * Z.to_nat (NumOffsetsOf Cfg))
                       = words_bytes (OffsetsOf Cfg)).
  { destruct (0 <? Count (HartListOf Cfg)) eqn:EH.
    - apply Z.ltb_lt in EH. rewrite (HPH EH) in Hfill.
      bind_inv_as Hfill rh Eh. destruct rh as [sh bh]. inv Hfill.
      unfold AddHartInfoNodes in Eh.
      assert (Hn0 : 0 <= NumOffsetsOf Cfg) by (unfold NumOffsetsOf; lia).
      apply AddHartInfoNodes_loop_written in Eh;
        [| exact Hok | unfold HartInfoOffsetOf, CmoOffsetOf; lia | exact Hn0
         | rewrite Hlenc, Hleni, Hlen4; exact HlenT0].
      destruct Eh as (_ & Hfr & Hnodes). split.
      + intros o m Ho Hom. apply Hfr; [exact Ho |].
        unfold HartInfoOffsetOf, CmoOffsetOf. lia.
      + intros k r Hk. specialize (Hnodes k r Hk). cbv zeta in Hnodes.
        destruct Hnodes as (src & Hcp & Hle & Hlen & Hcnt' & Huid & Hoffs).
        fold (HartNodeSizeOf Cfg) in Hle, Hlen, Hcnt', Huid, Hoffs.
        fold (HartNodeOffsetOf Cfg k) in Hlen, Hcnt', Huid, Hoffs.
        split; [exact Hle |]. split; [exact Hlen |]. split.
        { rewrite Hcnt'. apply Z.mod_small. unfold HartNodeSizeOf in Hle. lia. }
        split; [exact Huid |].
        pose proof (CopyMem_words_length _ _ _ Hn0 Hcp) as Hsl.
        unfold NumOffsetsOf in Eoff, Hcp.
        pose proof (BuildOffsets_result _ _ _ _ _ _ _ _ HcI HcC Eoff Hcp) as Hsrc.
        cbv zeta in Hsrc.
        replace (4 * Z.to_nat (NumOffsetsOf Cfg))%nat with (length src) by lia.
        rewrite Hoffs. rewrite Hsrc. unfold OffsetsOf, NumOffsetsOf.
        destruct (0 <? Count (IsaListOf Cfg)) eqn:XI;
          destruct (0 <? Count (CmoListOf Cfg)) eqn:XC;
          try (apply Z.ltb_lt in XI; destruct (HPI XI) as (-> & _));
          try (apply Z.ltb_lt in XC; rewrite (HPC XC));
          reflexivity.
    - inv Hfill. split; [auto |]. intros k r Hk.
      apply nth_error_Count_pos in Hk. congruence. }
  destruct HH as [HHfr HH].
  split; [| exact HH].
  intros s rest Hs. destruct (HI s rest Hs) as (Hle & Hld & Hstr).
  rewrite Hs in *. unfold IsaNodeSize in HHfr, HC, Hle, Hld |- *.
  pose proof (AsciiStrLen_nonneg s) as Hs0.
  pose proof (AsciiStrLen_cstring s) as Hcs.
  assert (Hal : AsciiStrSize s <= ALIGN_VALUE (AsciiStrSize s) 2).
  { rewrite ALIGN_VALUE_2.
    pose proof (Z.mod_pos_bound (AsciiStrSize s) 2 ltac:(lia)). lia. }
  unfold AsciiStrSize in *. unfold IsaStringOffsetOf in *.
  split; [exact Hle |]. split.
  - rewrite <- Hld. apply load_field_peek.
    rewrite HHfr by lia. apply HC; lia.
  - rewrite <- Hstr. rewrite HHfr by lia. apply HC; lia.
Qed.

End BuildLemmas.

(* ================================================================== *)
(** * Table synthesis: the properties                                  *)
(* ================================================================== *)

Lemma peek_shorter (buf : list byte) (off : Z) (n m : nat) :
  (n <= m)%nat -> peek buf off n = firstn n (peek buf off m).
Proof.
  intros H. unfold peek. rewrite firstn_firstn.
  replace (Nat.min n m) with n by lia. reflexivity.
Qed.

Lemma firstn_words_bytes (g z : list Z) :
  firstn (4 * length g) (words_bytes (g ++ z)) = words_bytes g.
Proof.
  unfold words_bytes. rewrite flat_map_app.
  assert (Hlen : length (flat_map (le_split 4) g) = (4 * length g)%nat).
  { induction g as [| x g IH]; [reflexivity |].
    cbn [flat_map length]. rewrite length_app, IH, length_le_split. lia. }
  rewrite <- Hlen. rewrite firstn_app, firstn_all, Nat.sub_diag.
  cbn [firstn]. apply app_nil_r.
Qed.

(** C2 (as amended).  In a table returned by a successful build, every
    Hart-Info node has an offset count equal to the number of ISA and
    CMO nodes (not the number of node groups), and every Hart-Info node
    carries the same offsets array as the first one; the array starts
    with the offset of the ISA node and the offset of the CMO group,
    for those that exist.  The count equals the number of groups when
    there is at most one ISA object and at most one CMO object. *)
Theorem C2_hart_info_offsets_array `{L : RhctDecls}
  (Info : CM_STD_OBJ_ACPI_TABLE_INFO)
  (Cfg : EDKII_CONFIGURATION_MANAGER_PROTOCOL) (w w' : RhctWorld)
  (tb : nat) (T : list byte) (k : nat) (r : CM_RISCV_RINTC_INFO) :
  layout_ok = true ->
  table_fits Cfg = true ->
  BuildRhctTable Info Cfg w = Done (EFI_SUCCESS, w') ->
  Table w' = Some (tb, T) ->
  nth_error (HartListOf Cfg) k = Some r ->
  load_field T (HartNodeOffsetOf Cfg k) Hart_NumOffsets = NumOffsetsOf Cfg
  /\ peek T (HartNodeOffsetOf Cfg k + Hart_Offsets)
       (4 * Z.to_nat (NumOffsetsOf Cfg))
     = peek T (HartNodeOffsetOf Cfg 0 + Hart_Offsets)
         (4 * Z.to_nat (NumOffsetsOf Cfg))
  /\ peek T (HartNodeOffsetOf Cfg k + Hart_Offsets)
       (4 * Z.to_nat (GroupsBeforeHarts Cfg))
     = words_bytes (GroupOffsetsOf Cfg)
  /\ GroupsBeforeHarts Cfg <= NumOffsetsOf Cfg
  /\ (Count (IsaListOf Cfg) <= 1 -> Count (CmoListOf Cfg) <= 1 ->
      NumOffsetsOf Cfg = GroupsBeforeHarts Cfg).
Proof.
  intros Hok Hfit Hbuild HT Hk.
  destruct (BuildRhctTable_written Hok _ _ _ _ _ _ Hfit Hbuild HT) as [_ HH].
  destruct (HH k r Hk) as (_ & _ & Hn & _ & Ho).
  assert (H0 : exists r0, nth_error (HartListOf Cfg) 0 = Some r0).
  { destruct (HartListOf Cfg) as [| r0 l]; [destruct k; discriminate |].
    exists r0. reflexivity. }
  destruct H0 as [r0 H0].
  destruct (HH 0%nat r0 H0) as (_ & _ & _ & _ & Ho0).
  assert (Hle : GroupsBeforeHarts Cfg <= NumOffsetsOf Cfg
                /\ (Count (IsaListOf Cfg) <= 1 -> Count (CmoListOf Cfg) <= 1 ->
                    NumOffsetsOf Cfg = GroupsBeforeHarts Cfg)).
  { unfold GroupsBeforeHarts, NumOffsetsOf.
    pose proof (Count_nonneg (IsaListOf Cfg)).
    pose proof (Count_nonneg (CmoListOf Cfg)).
    destruct (0 <? Count (IsaListOf Cfg)) eqn:EI;
      destruct (0 <? Count (CmoListOf Cfg)) eqn:EC;
      try apply Z.ltb_lt in EI; try apply Z.ltb_lt in EC;
      try apply Z.ltb_ge in EI; try apply Z.ltb_ge in EC;
      split; lia. }
  assert (Hg : Z.to_nat (GroupsBeforeHarts Cfg) = length (GroupOffsetsOf Cfg)).
  { unfold GroupsBeforeHarts, GroupOffsetsOf.
    destruct (0 <? Count (IsaListOf Cfg)); destruct (0 <? Count (CmoListOf Cfg));
      reflexivity. }
  assert (Hg0 : 0 <= GroupsBeforeHarts Cfg).
  { unfold GroupsBeforeHarts.
    destruct (0 <? Count (IsaListOf Cfg)); destruct (0 <? Count (CmoListOf Cfg)); lia. }
  split; [exact Hn |]. split; [rewrite Ho, Ho0; reflexivity |].
  split; [| exact Hle].
  rewrite (peek_shorter _ _ _ (4 * Z.to_nat (NumOffsetsOf Cfg))) by lia.
  rewrite Ho, Hg.
  change (OffsetsOf Cfg)
    with (GroupOffsetsOf Cfg
          ++ repeat 0 (Z.to_nat (NumOffsetsOf Cfg) - length (GroupOffsetsOf Cfg))).
  apply firstn_words_bytes.
Qed.

Lemma C2_witness :
  exists w' tb T,
    @layout_ok SpecLayout = true
    /\ table_fits (sample_cfg 2 [sample_hart 0; sample_hart 1]) = true
    /\ BuildRhctTable sample_info (sample_cfg 2 [sample_hart 0; sample_hart 1])
         world_boot = Done (EFI_SUCCESS, w')
    /\ Table w' = Some (tb, T)
    /\ load_field T 118 Hart_NumOffsets = 3
    /\ peek T (118 + 11) 12 = peek T (95 + 11) 12
    /\ peek T (118 + 11) 8 = words_bytes [60; 79].
Proof.
  eexists. eexists. eexists.
  split; [reflexivity |]. split; [reflexivity |].
  split; [vm_compute; reflexivity |]. split; [reflexivity |].
  pose proof (@C2_hart_info_offsets_array SpecLayout sample_info
                (sample_cfg 2 [sample_hart 0; sample_hart 1]) world_boot
                _ _ _ 1%nat (sample_hart 1)
                eq_refl eq_refl ltac:(vm_compute; reflexivity) eq_refl eq_refl)
    as (H1 & H2 & H3 & _).
  split; [exact H1 |]. split; [exact H2 | exact H3].
Defined.

(** C2 as stated fails: with one ISA object and two CMO objects there
    are two node groups before the harts, and the offset count written
    into a Hart-Info node is 3. *)
Lemma C2_counterexample :
  exists T,
    build_result (BuildRhctTable (L := SpecLayout) sample_info
                    (sample_cfg 2 [sample_hart 0; sample_hart 1]) world_boot)
    = Some (EFI_SUCCESS, Some T)
    /\ GroupsBeforeHarts (sample_cfg 2 [sample_hart 0; sample_hart 1]) = 2
    /\ load_field T (HartNodeOffsetOf (L := SpecLayout)
                       (sample_cfg 2 [sample_hart 0; sample_hart 1]) 0)
         (Hart_NumOffsets (RhctDecls := SpecLayout)) = 3.
Proof.
  eexists. split; [vm_compute; reflexivity |].
  split; vm_compute; reflexivity.
Qed.

(** C6 (as amended).  In a table returned by a successful build whose
    first ISA object holds the string [S], the length field of the ISA
    node is the size of the ISA node structure (the node header and
    the 2-byte string length; 7 in the layout of the specification)
    plus [align2 (strlen S + 1)], it fits 16 bits, and the node holds
    the characters of [S] followed by the terminator. *)
Theorem C6_isa_node_length_and_string `{L : RhctDecls}
  (Info : CM_STD_OBJ_ACPI_TABLE_INFO)
  (Cfg : EDKII_CONFIGURATION_MANAGER_PROTOCOL) (w w' : RhctWorld)
  (tb : nat) (T : list byte) (S : list byte)
  (rest : list CM_RISCV_ISA_STRING_NODE) :
  layout_ok = true ->
  table_fits Cfg = true ->
  BuildRhctTable Info Cfg w = Done (EFI_SUCCESS, w') ->
  Table w' = Some (tb, T) ->
  IsaListOf Cfg = mkIsa (Some S) :: rest ->
  load_field T IsaStringOffsetOf Node_Length
  = sizeof_RHCT_ISA_STRING_NODE + align2 (AsciiStrLen S + 1)
  /\ sizeof_RHCT_ISA_STRING_NODE + align2 (AsciiStrLen S + 1) <= 65535
  /\ peek T (IsaStringOffsetOf + sizeof_RHCT_ISA_STRING_NODE)
       (Z.to_nat (AsciiStrLen S + 1)) = cstring S ++ [x00].
Proof.
  intros Hok Hfit Hbuild HT HS.
  destruct (BuildRhctTable_written Hok _ _ _ _ _ _ Hfit Hbuild HT) as [HI _].
  destruct (HI S rest HS) as (Hle & Hld & Hstr).
  rewrite HS in Hle, Hld. unfold IsaNodeSize, AsciiStrSize in Hle, Hld.
  rewrite ALIGN_VALUE_align2 in Hle, Hld.
  split; [exact Hld |]. split; [exact Hle |].
  rewrite <- AsciiStrLen_cstring.
  replace (Z.to_nat (Z.of_nat (length (cstring S)) + 1))
    with (Datatypes.S (length (cstring S))) by lia.
  exact Hstr.
Qed.

Lemma C6_witness :
  exists w' tb T,
    @layout_ok SpecLayout = true
    /\ table_fits (sample_cfg 1 [sample_hart 0]) = true
    /\ BuildRhctTable sample_info (sample_cfg 1 [sample_hart 0]) world_boot
       = Done (EFI_SUCCESS, w')
    /\ Table w' = Some (tb, T)
    /\ IsaListOf (sample_cfg 1 [sample_hart 0]) = [mkIsa (Some sample_isa)]
    /\ load_field T 60 Node_Length = 7 + align2 (10 + 1)
    /\ peek T (60 + 7) 11 = cstring sample_isa ++ [x00].
Proof.
  eexists. eexists. eexists.
  split; [reflexivity |]. split; [reflexivity |].
  split; [vm_compute; reflexivity |]. split; [reflexivity |].
  split; [reflexivity |].
  pose proof (@C6_isa_node_length_and_string SpecLayout sample_info
                (sample_cfg 1 [sample_hart 0]) world_boot _ _ _ sample_isa []
                eq_refl eq_refl ltac:(vm_compute; reflexivity) eq_refl eq_refl)
    as (H1 & _ & H2).
  split; [exact H1 | exact H2].
Defined.

(** C6 as stated fails: for the ISA string "rv64imafdc" the length
    field of the serialized node is 19, and 5 + align2 (10 + 1) is 17. *)
Lemma C6_counterexample :
  exists T,
    build_result (BuildRhctTable (L := SpecLayout) sample_info
                    (sample_cfg 1 [sample_hart 0]) world_boot)
    = Some (EFI_SUCCESS, Some T)
    /\ load_field T (IsaStringOffsetOf (L := SpecLayout))
         (Node_Length (RhctDecls := SpecLayout)) = 19
    /\ 5 + align2 (AsciiStrLen sample_isa + 1) = 17.
Proof.
  eexists. split; [vm_compute; reflexivity |].
  split; vm_compute; reflexivity.
Qed.

(** C3 (as amended).  When the size computed for the ISA string node
    exceeds 65535, BuildRhctTable fails with EFI_INVALID_PARAMETER
    before it asks for the table buffer: the only allocation requested
    is the node indexer, which is released, and no table is returned.
    (The ceiling of 65535 is applied to a single node, not to a node
    group.) *)
Theorem C3_isa_node_overflow `{L : RhctDecls}
  (Info : CM_STD_OBJ_ACPI_TABLE_INFO)
  (Cfg : EDKII_CONFIGURATION_MANAGER_PROTOCOL) (w : RhctWorld)
  (S : list byte) (rest : list CM_RISCV_ISA_STRING_NODE) :
  revision_supported Info w = true ->
  objects_present Cfg = true ->
  IsaListOf Cfg = mkIsa (Some S) :: rest ->
  pool_grant (Heap w) (pool_next (Heap w)) = true ->
  MAX_UINT16 < snd (GetIsaStringNodeSize S) ->
  exists w',
    BuildRhctTable Info Cfg w = Done (EFI_INVALID_PARAMETER, w')
    /\ Table w' = None
    /\ NodeIndexer (Generator w') = None
    /\ pool_next (Heap w') = Datatypes.S (pool_next (Heap w))
    /\ pool_live (Heap w')
       = filter (fun x => negb (Nat.eqb (pool_next (Heap w)) x)) (pool_live (Heap w)).
Proof.
  unfold revision_supported, objects_present, IsaListOf.
  intros Hrev Hobj HS Hgrant Hbig.
  apply negb_true_iff in Hrev.
  repeat (apply andb_prop in Hobj; destruct Hobj as [Hobj ?]).
  repeat match goal with
         | X : negb _ = true |- _ => apply negb_true_iff in X
         end.
  unfold BuildRhctTable. rewrite Hrev.
  destruct (GetERiscVObjTimerInfo Cfg) as [s1 Timer].
  destruct (GetERiscVObjIsaStringInfo Cfg) as [s2 Isa].
  destruct (GetERiscVObjCmoInfo Cfg) as [s3 Cmo].
  destruct (GetERiscVObjRintcInfo Cfg) as [s4 Harts].
  cbn [fst snd] in *. subst Isa.
  rewrite Hobj.
  repeat match goal with
         | X : EFI_ERROR _ = false |- _ => rewrite X; clear X
         | X : (_ && _) = false |- _ => rewrite X; clear X
         end.
  unfold AllocateZeroPool. cbn [with_Table Heap]. rewrite Hgrant.
  unfold BuildRhctTable_plan.
  replace (0 <? Count ({| IsaString := Some S |} :: rest)) with true
    by (symmetry; apply Z.ltb_lt; rewrite Count_cons;
        pose proof (Count_nonneg rest); lia).
  cbn [IsaString].
  unfold GetIsaStringNodeSize in *.
  apply Z.ltb_lt in Hbig.
  destruct (MAX_UINT16 <? u32 _) eqn:Em in Hbig |- *.
  2:{ cbn [snd] in Hbig. congruence. }
  cbn [EFI_ERROR obind plan_Indexer].
  unfold error_handler, FreePool, is_live.
  cbn [with_Generator with_Heap with_Table set_NodeIndexer Generator Heap Table
       NodeIndexer pool_live pool_next pool_grant existsb obind filter].
  rewrite Nat.eqb_refl. cbn [orb negb obind].
  eexists. split; [reflexivity |].
  cbn [Table Generator NodeIndexer Heap pool_next pool_live].
  repeat split; reflexivity.
Qed.

Lemma C3_witness :
  revision_supported sample_info world_boot = true
  /\ objects_present
       (mkCfgMgr (EFI_SUCCESS, [mkTimer false 1])
          (EFI_SUCCESS, [mkIsa (Some (long_isa 65530))])
          (EFI_NOT_FOUND, []) (EFI_SUCCESS, [sample_hart 0]) sample_header) = true
  /\ MAX_UINT16 < snd (GetIsaStringNodeSize (L := SpecLayout) (long_isa 65530))
  /\ exists w',
       BuildRhctTable (L := SpecLayout) sample_info
         (mkCfgMgr (EFI_SUCCESS, [mkTimer false 1])
            (EFI_SUCCESS, [mkIsa (Some (long_isa 65530))])
            (EFI_NOT_FOUND, []) (EFI_SUCCESS, [sample_hart 0]) sample_header)
         world_boot = Done (EFI_INVALID_PARAMETER, w')
       /\ Table w' = None
       /\ pool_next (Heap w') = 1%nat.
Proof.
  split; [reflexivity |]. split; [reflexivity |].
  split; [vm_compute; reflexivity |].
  destruct (@C3_isa_node_overflow SpecLayout sample_info
              (mkCfgMgr (EFI_SUCCESS, [mkTimer false 1])
                 (EFI_SUCCESS, [mkIsa (Some (long_isa 65530))])
                 (EFI_NOT_FOUND, []) (EFI_SUCCESS, [sample_hart 0]) sample_header)
              world_boot (long_isa 65530) []
              eq_refl eq_refl eq_refl eq_refl ltac:(vm_compute; reflexivity))
    as (w' & H1 & H2 & _ & H3 & _).
  exists w'. split; [exact H1 |]. split; [exact H2 | exact H3].
Defined.

(** C3 as stated fails: 8192 CMO objects make a CMO node group of
    65536 bytes, and the build succeeds and returns a table. *)
Lemma C3_counterexample :
  Count (CmoListOf (sample_cfg (Z.to_nat 8192) [sample_hart 0]))
  * sizeof_RHCT_CMO_NODE (RhctDecls := SpecLayout) = 65536
  /\ build_summary (BuildRhctTable (L := SpecLayout) sample_info
                      (sample_cfg (Z.to_nat 8192) [sample_hart 0]) world_boot)
     = Some (EFI_SUCCESS, true, [2%nat; 1%nat; 0%nat]).
Proof. split; vm_compute; reflexivity. Qed.

(** C4.  The code at the failing input: 16384 CMO objects make the
    Hart-Info node longer than 65535 bytes, AddHartInfoNodes fails
    after the scratch array [Offsets] was allocated, and the build
    returns EFI_INVALID_PARAMETER with no table while block 2, the
    scratch array, is still allocated. *)
Theorem C4_offsets_scratch_array_not_released :
  build_summary (BuildRhctTable (L := SpecLayout) sample_info
                   (sample_cfg (Z.to_nat 16384) [sample_hart 0]) world_boot)
  = Some (EFI_INVALID_PARAMETER, false, [2%nat]).
Proof. vm_compute. reflexivity. Qed.

(** C7 (as amended).  After a call of FreeRhctTableResources that
    succeeded, a second call frees nothing, changes nothing and does
    not fault, but it reports EFI_INVALID_PARAMETER: the table pointer
    is already NULL. *)
Theorem C7_second_free_reports_invalid_parameter (w w1 : RhctWorld) :
  FreeRhctTableResources w = Done (EFI_SUCCESS, w1) ->
  FreeRhctTableResources w1 = Done (EFI_INVALID_PARAMETER, w1).
Proof.
  unfold FreeRhctTableResources. intros H.
  bind_inv_as H w0 E0.
  assert (Hn : NodeIndexer (Generator w0) = None).
  { destruct (NodeIndexer (Generator w)) as [[p ix] |] eqn:En.
    - bind_inv_as E0 h Eh. inv E0. reflexivity.
    - inv E0. exact En. }
  destruct (Table w0) as [[p t] |] eqn:Et; [| inv H].
  bind_inv_as H h Eh. inv H.
  cbn [with_Heap with_Table Generator Table]. rewrite Hn.
  cbn [obind with_Heap with_Table Generator Table]. reflexivity.
Qed.

Lemma C7_witness :
  exists w w1,
    BuildRhctTable (L := SpecLayout) sample_info (sample_cfg 1 [sample_hart 0])
      world_boot = Done (EFI_SUCCESS, w)
    /\ FreeRhctTableResources w = Done (EFI_SUCCESS, w1)
    /\ FreeRhctTableResources w1 = Done (EFI_INVALID_PARAMETER, w1).
Proof.
  eexists. eexists.
  split; [vm_compute; reflexivity |].
  match goal with
  | |- ?A = ?B /\ _ => assert (H : A = B) by (vm_compute; reflexivity)
  end.
  split; [exact H |].
  exact (C7_second_free_reports_invalid_parameter _ _ H).
Defined.

(** C7 as stated fails: the second call reports an error. *)
Lemma C7_counterexample :
  exists w w1 w2,
    BuildRhctTable (L := SpecLayout) sample_info (sample_cfg 1 [sample_hart 0])
      world_boot = Done (EFI_SUCCESS, w)
    /\ FreeRhctTableResources w = Done (EFI_SUCCESS, w1)
    /\ FreeRhctTableResources w1 = Done (EFI_INVALID_PARAMETER, w2)
    /\ EFI_ERROR EFI_INVALID_PARAMETER = true.
Proof.
  eexists. eexists. eexists.
  split; [vm_compute; reflexivity |].
  split; [vm_compute; reflexivity |].
  split; [vm_compute; reflexivity | reflexivity].
Qed.

(* ================================================================== *)
(** * Topology extraction: harts                                       *)
(* ================================================================== *)

Section HartLemmas.
Context `{K : IntcDecls}.

(** CpuNodeParser does not look at the status of the search for the
    "interrupt-controller" node: with a well-formed "reg" it succeeds
    whatever that search returns. *)
Lemma CpuNodeParser_ignores_intc_status (h : FDT_HW_INFO_PARSER_HANDLE)
  (CpuNode AddressCells : Z) (st : IntcState) (Data : FdtProp) :
  FdtGetProp (Fdt h) CpuNode "reg" = Some Data ->
  PropLen Data = 4 \/ PropLen Data = 8 ->
  CpuNodeParser h CpuNode AddressCells st
  = (EFI_SUCCESS,
     Some (mkRintc 1 EFI_ACPI_6_6_RINTC_FLAG_ENABLE
             (if AddressCells =? 2 then cell64 Data 0 else cell32 Data 0)
             (ProcUid st) 0 0 0),
     with_ProcUid st (u32 (ProcUid st + 1))).
Proof.
  intros Hreg Hlen. unfold CpuNodeParser. rewrite Hreg.
  replace (negb (PropLen Data =? 4) && negb (PropLen Data =? 8)) with false.
  - destruct (FdtGetNextNamedNodeInBranch _ _ _ _) as [s n]. reflexivity.
  - symmetry. destruct Hlen as [-> | ->]; reflexivity.
Qed.

End HartLemmas.

(** C5.  The code at the failing input: a "cpu" node with a valid
    "reg" and no "interrupt-controller" node below it.  The search for
    the sub-node reports EFI_NOT_FOUND, CpuNodeParser nevertheless
    returns EFI_SUCCESS with a hart record, and the dispatcher
    succeeds and publishes that record. *)
Theorem C5_hart_without_intc_is_accepted :
  fst (FdtGetNextNamedNodeInBranch tree_hart_without_intc 2
         "interrupt-controller" 2) = EFI_NOT_FOUND
  /\ CpuNodeParser (K := RiscVDecls) (handle_of tree_hart_without_intc) 2 1 intc_boot
     = (EFI_SUCCESS, Some (mkRintc 1 1 0 0 0 0 0), with_ProcUid intc_boot 1)
  /\ exists st,
       RiscVIntcDispatcher (K := RiscVDecls) (handle_of tree_hart_without_intc)
         intc_boot = Done (EFI_SUCCESS, st)
       /\ CmObjs st = [CmRintcInfo (mkRintc 1 1 0 0 0 0 0)].
Proof.
  split; [vm_compute; reflexivity |]. split; [vm_compute; reflexivity |].
  eexists. split; [vm_compute; reflexivity | reflexivity].
Qed.

(* ================================================================== *)
(** * Topology extraction: the default of HartIndexBits                *)
(* ================================================================== *)




Section ImsicLemmas.
Context `{K : IntcDecls}.




End ImsicLemmas.


(* ================================================================== *)
(** * Topology extraction: the external controller list                *)
(* ================================================================== *)

Section ExtIntcLemmas.
Context `{K : IntcDecls}.

(** Registering a controller initialises the list head before the
    insertion. *)
Lemma FdtCreateExtIntcList_singleton (ExtIntcNode GsiBase : Z)
  (st st' : IntcState) :
  FdtCreateExtIntcList ExtIntcNode GsiBase st = (EFI_SUCCESS, st') ->
  ExtIntcList st'
  = Some [(pool_next (IntcHeap st), mkExtIntc ExtIntcNode GsiBase)]
  /\ (forall Irq, FdtConvertToGsi ExtIntcNode Irq st' = Done (u32 (GsiBase + Irq)))
  /\ (forall Other Irq, Other <> ExtIntcNode ->
        FdtConvertToGsi Other Irq st' = Done Irq).
Proof.
  unfold FdtCreateExtIntcList, AllocateZeroPool. intros H.
  destruct (pool_grant (IntcHeap st) (pool_next (IntcHeap st))); [| inv H].
  inv H.
  cbn [with_ExtIntcList with_IntcHeap ExtIntcList InitializeListHead
       InsertTailList app IntcHeap].
  split; [reflexivity |].
  unfold FdtConvertToGsi.
  cbn [with_ExtIntcList with_IntcHeap ExtIntcList FdtConvertToGsi_walk
       Data_ExtIntcNode Data_GsiBase].
  split.
  - intros Irq. rewrite Z.eqb_refl. reflexivity.
  - intros Other Irq Hne.
    replace (ExtIntcNode =? Other) with false
      by (symmetry; apply Z.eqb_neq; congruence).
    reflexivity.
Qed.

End ExtIntcLemmas.

(* ================================================================== *)
(** * Topology extraction: the controller scan                         *)
(* ================================================================== *)

Lemma FdtNodeIsCompatible_outside (Fdt : FDT) (n : Z) (c : list string) :
  n < 0 \/ Z.of_nat (length Fdt) <= n -> FdtNodeIsCompatible Fdt n c = false.
Proof.
  intros Hn. unfold FdtNodeIsCompatible, fdt_node.
  destruct (n <? 0) eqn:E; [reflexivity |].
  apply Z.ltb_ge in E.
  assert (Hnone : nth_error Fdt (Z.to_nat n) = None)
    by (apply nth_error_None; lia).
  rewrite Hnone. reflexivity.
Qed.

Section ScanLemmas.
Context `{K : IntcDecls}.

Lemma FdtNextNode_next (Fdt : FDT) (Prev : Z) :
  0 <= Prev -> Prev + 1 < Z.of_nat (length Fdt) -> FdtNextNode Fdt Prev = Prev + 1.
Proof.
  intros H0 H1. unfold FdtNextNode.
  replace (0 <=? Prev) with true by (symmetry; apply Z.leb_le; lia).
  replace (Prev + 1 <? Z.of_nat (length Fdt)) with true
    by (symmetry; apply Z.ltb_lt; lia).
  reflexivity.
Qed.

Lemma FdtNextNode_cases (Fdt : FDT) (Prev : Z) :
  FdtNextNode Fdt Prev = -1
  \/ (FdtNextNode Fdt Prev = Prev + 1 /\ 0 <= Prev).
Proof.
  unfold FdtNextNode. destruct (0 <=? Prev) eqn:E0; [| auto].
  destruct (Prev + 1 <? Z.of_nat (length Fdt)); [| auto].
  right. apply Z.leb_le in E0. auto.
Qed.

(** Nodes that fail the test leave no trace: a scan over such nodes
    only ends with EFI_SUCCESS. *)
Lemma PlicAplicScan_skips (h : FDT_HW_INFO_PARSER_HANDLE) (fuel : nat) :
  forall Prev GsiBase Id R st,
    (forall n, Prev < n -> is_ext_intc (Fdt h) n = false) ->
    PlicAplicScan fuel h Prev GsiBase Id R st = (EFI_SUCCESS, R, st).
Proof.
  induction fuel as [| fuel IH]; intros Prev GsiBase Id R st Hno;
    cbn [PlicAplicScan]; [reflexivity |].
  destruct (FdtNextNode_cases (Fdt h) Prev) as [-> | [-> H0]]; [reflexivity |].
  replace (Prev + 1 <? 0) with false by (symmetry; apply Z.ltb_ge; lia).
  fold (is_ext_intc (Fdt h) (Prev + 1)).
  rewrite (Hno (Prev + 1)) by lia. cbn [negb].
  apply IH. intros n Hn. apply Hno. lia.
Qed.

(** The scan reaches the first node that passes the test with the
    counters untouched. *)
Lemma PlicAplicScan_reaches (h : FDT_HW_INFO_PARSER_HANDLE) (Node : Z) (d : nat) :
  forall fuel Prev GsiBase Id R st,
    0 <= Prev ->
    Prev + 1 + Z.of_nat d = Node ->
    Node < Z.of_nat (length (Fdt h)) ->
    (d < fuel)%nat ->
    (forall n, Prev < n < Node -> is_ext_intc (Fdt h) n = false) ->
    is_ext_intc (Fdt h) Node = true ->
    PlicAplicScan fuel h Prev GsiBase Id R st
    = let '(ret, GsiBase', R', st') := PlicAplicNode h Node GsiBase Id R st in
      match ret with
      | Some Status => (Status, R', st')
      | None => PlicAplicScan (fuel - S d) h Node GsiBase' (Id + 1) R' st'
      end.
Proof.
  induction d as [| d IH]; intros fuel Prev GsiBase Id R st H0 HN Hlen Hf Hno Hyes;
    (destruct fuel as [| fuel]; [lia |]); cbn [PlicAplicScan].
  - rewrite FdtNextNode_next by lia.
    replace (Prev + 1) with Node by lia.
    replace (Node <? 0) with false by (symmetry; apply Z.ltb_ge; lia).
    fold (is_ext_intc (Fdt h) Node). rewrite Hyes. cbn [negb].
    replace (S fuel - 1)%nat with fuel by lia. reflexivity.
  - rewrite FdtNextNode_next by lia.
    replace (Prev + 1 <? 0) with false by (symmetry; apply Z.ltb_ge; lia).
    fold (is_ext_intc (Fdt h) (Prev + 1)).
    rewrite (Hno (Prev + 1)) by lia. cbn [negb].
    rewrite (IH fuel (Prev + 1)); try lia; try assumption.
    + replace (S fuel - S (S d))%nat with (fuel - S d)%nat by lia. reflexivity.
    + intros n Hn. apply Hno. lia.
Qed.

Lemma AllocateZeroPool_granted (p : Pool) :
  (forall n, pool_grant p n = true) ->
  AllocateZeroPool p
  = (Some (pool_next p),
     mkPool (S (pool_next p)) (pool_next p :: pool_live p) (pool_grant p)).
Proof. intros H. unfold AllocateZeroPool. rewrite H. reflexivity. Qed.

Lemma is_ext_intc_outside (Fdt : FDT) (n : Z) :
  n < 0 \/ Z.of_nat (length Fdt) <= n -> is_ext_intc Fdt n = false.
Proof.
  intros Hn.
  unfold is_ext_intc, IsPlicNode, IsAplicNode, FdtNodeIsCompatible, fdt_node.
  destruct (n <? 0) eqn:E; [reflexivity |].
  apply Z.ltb_ge in E.
  assert (Hnone : nth_error Fdt (Z.to_nat n) = None)
    by (apply nth_error_None; lia).
  rewrite Hnone. reflexivity.
Qed.



End ScanLemmas.




(* ================================================================== *)
(** * Topology extraction: the default of HartIndexBits                *)
(* ================================================================== *)

Section ImsicDefaultLemmas.
Context `{K : IntcDecls}.



End ImsicDefaultLemmas.


(* ================================================================== *)
(** * Topology extraction: the list after the controller scan          *)
(* ================================================================== *)

Section ScanListLemmas.
Context `{K : IntcDecls}.

(** The body of the scan at a controller node, with a pool that grants
    every request: the node is registered alone in the list with the
    interrupt base of the moment; the body either returns an error, or
    publishes one controller record, which has that interrupt base. *)
Lemma PlicAplicNode_registers (h : FDT_HW_INFO_PARSER_HANDLE)
  (Node GsiBase Id : Z) (R : list CM_RISCV_RINTC_INFO) (st : IntcState) :
  (forall n, pool_grant (IntcHeap st) n = true) ->
  is_ext_intc (Fdt h) Node = true ->
  forall ret G R1 s1,
    PlicAplicNode h Node GsiBase Id R st = (ret, G, R1, s1) ->
    (forall n, pool_grant (IntcHeap s1) n = true)
    /\ (exists p, ExtIntcList s1 = Some [(p, mkExtIntc Node GsiBase)])
    /\ match ret with
       | Some e => EFI_ERROR e = true
       | None =>
           exists o c,
             CmObjs s1 = CmObjs st ++ [o]
             /\ controllers [o] = [c]
             /\ Common_GsiBase c = GsiBase
       end.
Proof.
  intros Hgrant Hext ret G R1 s1 Hrun.
  unfold PlicAplicNode, FdtCreateExtIntcList in Hrun.
  rewrite (AllocateZeroPool_granted _ Hgrant) in Hrun.
  cbn [snd with_IntcHeap with_ExtIntcList InitializeListHead InsertTailList
       ExtIntcList IntcHeap app] in Hrun.
  set (s0 := mkIntc (ProcUid st)
               (Some [(pool_next (IntcHeap st), mkExtIntc Node GsiBase)])
               (mkPool (S (pool_next (IntcHeap st)))
                  (pool_next (IntcHeap st) :: pool_live (IntcHeap st))
                  (pool_grant (IntcHeap st)))
               (CmObjs st)) in *.
  assert (Hg0 : forall n, pool_grant (IntcHeap s0) n = true) by exact Hgrant.
  assert (Hl0 : exists p, ExtIntcList s0 = Some [(p, mkExtIntc Node GsiBase)])
    by (eexists; reflexivity).
  destruct (match FdtGetProp (Fdt h) Node "riscv,num-sources" with
            | Some p => Some p
            | None => FdtGetProp (Fdt h) Node "riscv,ndev"
            end) as [p1 |]; [| inv Hrun; auto].
  destruct (FdtGetProp (Fdt h) Node "reg") as [p2 |]; [| inv Hrun; auto].
  destruct (0 <? PropLen p2 mod 4); [inv Hrun; auto |].
  destruct (FdtNodeIsCompatible (Fdt h) Node PlicCompatibleInfo) eqn:EcP.
  - destruct (FdtGetProp (Fdt h) Node "interrupts-extended") as [p3 |];
      [| inv Hrun; auto].
    destruct (PropLen p3 <? 4); [inv Hrun; auto |].
    rewrite AllocateZeroPool_granted in Hrun by (intros n; apply Hgrant).
    unfold AddSingleCmObj in Hrun.
    match type of Hrun with
    | context [HwInfoAdd h ?o] => destruct (EFI_ERROR (HwInfoAdd h o)) eqn:Ee
    end.
    + rewrite Ee in Hrun. inv Hrun. auto.
    + cbn [EFI_ERROR] in Hrun. inv Hrun.
      split; [exact Hgrant |]. split; [eexists; reflexivity |].
      eexists. eexists. split; [reflexivity |]. split; reflexivity.
  - destruct (FdtNodeIsCompatible (Fdt h) Node AplicCompatibleInfo) eqn:EcA.
    + rewrite AllocateZeroPool_granted in Hrun by (intros n; apply Hgrant).
      destruct (match FdtGetProp (Fdt h) Node "interrupts-extended" with
                | Some x => _
                | None => _
                end) as [n R2] in Hrun.
      unfold AddSingleCmObj in Hrun.
      match type of Hrun with
      | context [HwInfoAdd h ?o] => destruct (EFI_ERROR (HwInfoAdd h o)) eqn:Ee
      end.
      * rewrite Ee in Hrun. inv Hrun. auto.
      * cbn [EFI_ERROR] in Hrun. inv Hrun.
        split; [exact Hgrant |]. split; [eexists; reflexivity |].
        eexists. eexists. split; [reflexivity |]. split; reflexivity.
    + (* a node that passed the test is a PLIC or an APLIC *)
      unfold is_ext_intc, IsPlicNode, IsAplicNode in Hext.
      rewrite EcP, EcA in Hext. discriminate.
Qed.

(** A scan that succeeds leaves in the list the last controller node of
    the tree alone, with the interrupt base of the last record it
    published. *)
Lemma PlicAplicScan_last (h : FDT_HW_INFO_PARSER_HANDLE) (Last : Z) :
  is_ext_intc (Fdt h) Last = true ->
  (forall n, Last < n -> is_ext_intc (Fdt h) n = false) ->
  forall d fuel Prev GsiBase Id R st R' st',
    0 <= Prev ->
    Prev + 1 + Z.of_nat d = Last ->
    (d < fuel)%nat ->
    (forall n, pool_grant (IntcHeap st) n = true) ->
    PlicAplicScan fuel h Prev GsiBase Id R st = (EFI_SUCCESS, R', st') ->
    exists p pre o c,
      CmObjs st' = CmObjs st ++ pre ++ [o]
      /\ controllers [o] = [c]
      /\ ExtIntcList st' = Some [(p, mkExtIntc Last (Common_GsiBase c))].
Proof.
  intros HLast Hafter.
  assert (Hin : Last < Z.of_nat (length (Fdt h))).
  { destruct (Z_lt_le_dec Last (Z.of_nat (length (Fdt h)))) as [Hlt | Hge];
      [exact Hlt |].
    rewrite is_ext_intc_outside in HLast by (right; exact Hge). discriminate. }
  induction d as [| d IH]; intros fuel Prev GsiBase Id R st R' st' H0 HN Hf Hgrant Hrun;
    (destruct fuel as [| fuel]; [lia |]); cbn [PlicAplicScan] in Hrun;
    rewrite FdtNextNode_next in Hrun by lia;
    (replace (Prev + 1 <? 0) with false in Hrun by (symmetry; apply Z.ltb_ge; lia));
    fold (is_ext_intc (Fdt h) (Prev + 1)) in Hrun.
  - replace (Prev + 1) with Last in Hrun by lia.
    rewrite HLast in Hrun. cbn [negb] in Hrun.
    destruct (PlicAplicNode h Last GsiBase Id R st) as [[[ret G] R1] s1] eqn:En.
    destruct (PlicAplicNode_registers h Last GsiBase Id R st Hgrant HLast _ _ _ _ En)
      as (_ & [p Hl] & Hret).
    destruct ret as [e |].
    + inv Hrun. cbn [EFI_ERROR] in Hret. discriminate.
    + rewrite PlicAplicScan_skips in Hrun by exact Hafter. inv Hrun.
      destruct Hret as (o & c & Ho & Hc & Hg).
      exists p, [], o, c. rewrite Hg. auto.
  - destruct (is_ext_intc (Fdt h) (Prev + 1)) eqn:Ee; cbn [negb] in Hrun.
    + destruct (PlicAplicNode h (Prev + 1) GsiBase Id R st) as [[[ret G] R1] s1] eqn:En.
      destruct (PlicAplicNode_registers h (Prev + 1) GsiBase Id R st Hgrant Ee
                  _ _ _ _ En) as (Hg1 & _ & Hret).
      destruct ret as [e |].
      * inv Hrun. cbn [EFI_ERROR] in Hret. discriminate.
      * destruct Hret as (o1 & c1 & Ho1 & _ & _).
        destruct (IH fuel (Prev + 1) G (Id + 1) R1 s1 R' st'
                    ltac:(lia) ltac:(lia) ltac:(lia) Hg1 Hrun)
          as (p & pre & o & c & H1 & H2 & H3).
        exists p, (o1 :: pre), o, c.
        rewrite H1, Ho1, <- app_assoc. auto.
    + apply (IH fuel (Prev + 1) GsiBase Id R st R' st'); try lia; assumption.
Qed.

(** C10.  FdtCreateExtIntcList initialises the list head before every
    insertion, so a registration that succeeds leaves the list with the
    controller just registered alone, whatever it held before.  Hence
    after a controller scan that succeeds (with a pool that grants the
    requests) on a tree with at least one controller, the list holds
    exactly one entry: the last controller node of the tree, with the
    interrupt base of the last controller record published.
    FdtConvertToGsi then returns that base plus Irq (in 32 bits) for
    that node, and Irq unchanged for every other node, the earlier
    controllers included. *)
Theorem C10_ext_intc_list_holds_last_only (h : FDT_HW_INFO_PARSER_HANDLE)
  (Last : Z) (Rintc Rintc' : list CM_RISCV_RINTC_INFO) (st st' : IntcState) :
  (forall n, pool_grant (IntcHeap st) n = true) ->
  (* the last controller node of the tree *)
  0 < Last ->
  is_ext_intc (Fdt h) Last = true ->
  (forall n, Last < n -> is_ext_intc (Fdt h) n = false) ->
  PlicAplicInfoParser h Rintc st = (EFI_SUCCESS, Rintc', st') ->
  (exists p pre o c,
     CmObjs st' = CmObjs st ++ pre ++ [o]
     /\ controllers [o] = [c]
     /\ ExtIntcList st' = Some [(p, mkExtIntc Last (Common_GsiBase c))]
     /\ (forall Irq,
           FdtConvertToGsi Last Irq st' = Done (u32 (Common_GsiBase c + Irq)))
     /\ (forall Other Irq, Other <> Last ->
           FdtConvertToGsi Other Irq st' = Done Irq))
  /\ (forall Node GsiBase s s',
        FdtCreateExtIntcList Node GsiBase s = (EFI_SUCCESS, s') ->
        ExtIntcList s' = Some [(pool_next (IntcHeap s), mkExtIntc Node GsiBase)]).
Proof.
  intros Hgrant Hpos HLast Hafter Hrun. split.
  - unfold PlicAplicInfoParser in Hrun.
    assert (Hin : Last < Z.of_nat (length (Fdt h))).
    { destruct (Z_lt_le_dec Last (Z.of_nat (length (Fdt h)))) as [Hlt | Hge];
        [exact Hlt |].
      rewrite is_ext_intc_outside in HLast by (right; exact Hge). discriminate. }
    destruct (PlicAplicScan_last h Last HLast Hafter (Z.to_nat (Last - 1))
                (length (Fdt h)) 0 0 0 Rintc st Rintc' st'
                ltac:(lia) ltac:(lia) ltac:(lia) Hgrant Hrun)
      as (p & pre & o & c & H1 & H2 & H3).
    exists p, pre, o, c.
    split; [exact H1 |]. split; [exact H2 |]. split; [exact H3 |].
    unfold FdtConvertToGsi. rewrite H3.
    cbn [FdtConvertToGsi_walk Data_ExtIntcNode Data_GsiBase].
    split.
    + intros Irq. rewrite Z.eqb_refl. reflexivity.
    + intros Other Irq Hne.
      replace (Last =? Other) with false
        by (symmetry; apply Z.eqb_neq; congruence).
      reflexivity.
  - intros Node GsiBase s s' Hreg.
    apply (FdtCreateExtIntcList_singleton _ _ _ _ Hreg).
Qed.

End ScanListLemmas.

Lemma C10_witness :
  exists R st',
    PlicAplicInfoParser (K := RiscVDecls) (handle_of tree_three_plic)
      sample_records intc_boot = (EFI_SUCCESS, R, st')
    /\ (exists p, ExtIntcList st' = Some [(p, mkExtIntc 9 96)])
    /\ FdtConvertToGsi 9 5 st' = Done 101
    /\ FdtConvertToGsi 8 5 st' = Done 5
    /\ FdtConvertToGsi 7 5 st' = Done 5.
Proof.
  eexists. eexists.
  match goal with
  | |- ?A = ?B /\ _ => assert (H : A = B) by (vm_compute; reflexivity)
  end.
  split; [exact H |].
  assert (Hgrant : forall n, pool_grant (IntcHeap intc_boot) n = true)
    by (intros n; reflexivity).
  assert (H0 : 0 < 9) by lia.
  assert (Hafter : forall n, 9 < n ->
             is_ext_intc (K := RiscVDecls) (Fdt (handle_of tree_three_plic)) n
             = false).
  { intros n Hn. apply is_ext_intc_outside. right.
    cbn [Fdt handle_of].
    assert (Hl : Z.of_nat (length tree_three_plic) = 10) by reflexivity.
    rewrite Hl. lia. }
  destruct (C10_ext_intc_list_holds_last_only (K := RiscVDecls)
              (handle_of tree_three_plic) 9 sample_records _ intc_boot _
              Hgrant H0 eq_refl Hafter H)
    as [(p & pre & o & c & H1 & H2 & H3 & H4 & H5) _].
  assert (Hc : Common_GsiBase c = 96).
  { vm_compute in H1.
    destruct pre as [| o1 [| o2 [| o3 pre]]]; try discriminate;
      try (destruct pre; discriminate).
    injection H1 as E1 E2 E3. subst o. vm_compute in H2.
    injection H2 as <-. reflexivity. }
  rewrite Hc in H3, H4.
  split; [exists p; exact H3 |].
  split; [exact (H4 5) |].
  split; apply H5; discriminate.
Defined.

(* ================================================================== *)
(** * The hart identifiers through extraction                          *)
(* ================================================================== *)

Lemma keeps_harts_refl (st : IntcState) : keeps_harts st st.
Proof. split; reflexivity. Qed.

Lemma keeps_harts_trans (a b c : IntcState) :
  keeps_harts a b -> keeps_harts b c -> keeps_harts a c.
Proof. intros [H1 H2] [H3 H4]. split; congruence. Qed.

Lemma update_at_uids (l : list CM_RISCV_RINTC_INFO) (f : CM_RISCV_RINTC_INFO -> CM_RISCV_RINTC_INFO) :
  (forall r, AcpiProcessorUid (f r) = AcpiProcessorUid r) ->
  forall i, uids (update_at l i f) = uids l.
Proof.
  intros Hf. unfold uids.
  induction l as [| x l IH]; intros i; [destruct i; reflexivity |].
  destruct i as [| i]; cbn [update_at map].
  - rewrite Hf. reflexivity.
  - rewrite IH. reflexivity.
Qed.

Lemma fold_left_uids {A : Type} (f : list CM_RISCV_RINTC_INFO -> A -> list CM_RISCV_RINTC_INFO)
  (xs : list A) :
  (forall R x, uids (f R x) = uids R) ->
  forall R, uids (fold_left f xs R) = uids R.
Proof.
  intros Hf. induction xs as [| x xs IH]; intros R; cbn [fold_left];
    [reflexivity |].
  rewrite IH. apply Hf.
Qed.

Lemma published_harts_app (a b : list CmObj) :
  published_harts (a ++ b) = published_harts a ++ published_harts b.
Proof. unfold published_harts. apply flat_map_app. Qed.

Lemma published_harts_records (l : list CM_RISCV_RINTC_INFO) :
  published_harts (map CmRintcInfo l) = l.
Proof.
  induction l as [| r l IH]; [reflexivity |].
  cbn [map]. change (published_harts (CmRintcInfo r :: map CmRintcInfo l))
    with (r :: published_harts (map CmRintcInfo l)).
  rewrite IH. reflexivity.
Qed.

(** A controller object handed to the callback is no hart record. *)
Lemma AddSingleCmObj_keeps (h : FDT_HW_INFO_PARSER_HANDLE) (o : CmObj) (st : IntcState) :
  published_harts [o] = [] ->
  keeps_harts st (snd (AddSingleCmObj h o st)).
Proof.
  intros Ho. unfold AddSingleCmObj.
  destruct (EFI_ERROR (HwInfoAdd h o)); cbn [snd]; [apply keeps_harts_refl |].
  split; [reflexivity |].
  cbn [with_CmObjs CmObjs]. rewrite published_harts_app, Ho. apply app_nil_r.
Qed.

Lemma AddMultipleCmObj_published (h : FDT_HW_INFO_PARSER_HANDLE)
  (l : list CM_RISCV_RINTC_INFO) :
  forall st Status st',
    AddMultipleCmObj h l st = (Status, st') ->
    EFI_ERROR Status = false ->
    ProcUid st' = ProcUid st
    /\ CmObjs st' = CmObjs st ++ map CmRintcInfo l
    /\ IntcHeap st' = IntcHeap st.
Proof.
  induction l as [| r l IH]; intros st Status st' Hrun Hs; cbn [AddMultipleCmObj] in Hrun.
  - inv Hrun. cbn [map]. rewrite app_nil_r. auto.
  - unfold AddSingleCmObj in Hrun.
    destruct (EFI_ERROR (HwInfoAdd h (CmRintcInfo r))) eqn:Ee.
    + rewrite Ee in Hrun. inv Hrun. congruence.
    + cbn [EFI_ERROR] in Hrun.
      destruct (IH _ _ _ Hrun Hs) as (H1 & H2 & H3).
      cbn [with_CmObjs ProcUid CmObjs IntcHeap] in H1, H2, H3.
      rewrite H1, H2, H3, <- app_assoc. auto.
Qed.

Section UidLemmas.
Context `{K : IntcDecls}.

Lemma RiscVUpdateRintc_uids (Fdt : FDT) (R : list CM_RISCV_RINTC_INFO) (CpuNode Id : Z) :
  uids (snd (RiscVUpdateRintc Fdt R CpuNode Id)) = uids R.
Proof.
  unfold RiscVUpdateRintc.
  destruct (_ <? 0); [reflexivity |].
  destruct (FdtGetProp _ _ _) as [Data |]; [| reflexivity].
  destruct (negb _ && negb _); [reflexivity |].
  destruct (RiscVFindRintc _ _ _) as [k |]; [| reflexivity].
  cbn [snd]. apply update_at_uids. reflexivity.
Qed.

Lemma PlicContextLoop_uids (Fdt : FDT) (p : FdtProp) (Len Id : Z)
  (R : list CM_RISCV_RINTC_INFO) :
  uids (PlicContextLoop Fdt p Len Id R) = uids R.
Proof.
  unfold PlicContextLoop. apply fold_left_uids. intros R0 x.
  destruct (_ =? _); [apply RiscVUpdateRintc_uids | reflexivity].
Qed.

Lemma AplicIdcLoop_uids (Fdt : FDT) (p : FdtProp) (Len Id : Z)
  (R : list CM_RISCV_RINTC_INFO) :
  uids (AplicIdcLoop Fdt p Len Id R) = uids R.
Proof.
  unfold AplicIdcLoop. apply fold_left_uids. intros R0 x.
  apply RiscVUpdateRintc_uids.
Qed.

Lemma FdtCreateExtIntcList_keeps (Node GsiBase : Z) (st : IntcState) :
  keeps_harts st (snd (FdtCreateExtIntcList Node GsiBase st)).
Proof.
  unfold FdtCreateExtIntcList.
  destruct (AllocateZeroPool (IntcHeap st)) as [[b |] heap]; cbn [snd];
    split; reflexivity.
Qed.

Lemma PlicAplicNode_keeps (h : FDT_HW_INFO_PARSER_HANDLE)
  (Node GsiBase Id : Z) (R : list CM_RISCV_RINTC_INFO) (st : IntcState) :
  uids (snd (fst (PlicAplicNode h Node GsiBase Id R st))) = uids R
  /\ keeps_harts st (snd (PlicAplicNode h Node GsiBase Id R st)).
Proof.
  unfold PlicAplicNode.
  pose proof (FdtCreateExtIntcList_keeps Node GsiBase st) as H0.
  set (s0 := snd (FdtCreateExtIntcList Node GsiBase st)) in *.
  assert (Hal : forall s, keeps_harts s0 s ->
                  keeps_harts st (with_IntcHeap s (snd (AllocateZeroPool (IntcHeap s))))).
  { intros s Hs. eapply keeps_harts_trans; [exact H0 |].
    eapply keeps_harts_trans; [exact Hs |]. split; reflexivity. }
  destruct (match FdtGetProp (Fdt h) Node "riscv,num-sources" with
            | Some p => Some p
            | None => FdtGetProp (Fdt h) Node "riscv,ndev"
            end) as [p1 |]; [| split; [reflexivity | exact H0]].
  destruct (FdtGetProp (Fdt h) Node "reg") as [p2 |];
    [| split; [reflexivity | exact H0]].
  destruct (0 <? PropLen p2 mod 4); [split; [reflexivity | exact H0] |].
  destruct (FdtNodeIsCompatible (Fdt h) Node PlicCompatibleInfo).
  - destruct (FdtGetProp (Fdt h) Node "interrupts-extended") as [p3 |];
      [| split; [reflexivity | exact H0]].
    destruct (PropLen p3 <? 4); [split; [reflexivity | exact H0] |].
    pose proof (Hal s0 (keeps_harts_refl s0)) as H1.
    destruct (AllocateZeroPool (IntcHeap s0)) as [[q |] hp] eqn:Ea;
      cbn [snd] in H1; [| split; [reflexivity | exact H1]].
    match goal with
    | |- context [AddSingleCmObj h ?o ?s] =>
        pose proof (AddSingleCmObj_keeps h o s eq_refl) as Hx;
        destruct (AddSingleCmObj h o s) as [e s1]
    end.
    cbn [snd] in Hx.
    destruct (EFI_ERROR e); cbn [fst snd];
      (split; [apply PlicContextLoop_uids | eapply keeps_harts_trans; eassumption]).
  - destruct (FdtNodeIsCompatible (Fdt h) Node AplicCompatibleInfo);
      [| split; [reflexivity | exact H0]].
    pose proof (Hal s0 (keeps_harts_refl s0)) as H1.
    destruct (AllocateZeroPool (IntcHeap s0)) as [[q |] hp] eqn:Ea;
      cbn [snd] in H1; [| split; [reflexivity | exact H1]].
    assert (HR : uids (snd (match FdtGetProp (Fdt h) Node "interrupts-extended" with
                            | Some IntExtProp =>
                                if (PropLen IntExtProp / 4) mod 2 =? 0
                                then ((PropLen IntExtProp / 4) / 2,
                                      AplicIdcLoop (Fdt h) IntExtProp
                                        (PropLen IntExtProp / 4) Id R)
                                else (0, R)
                            | None => (0, R)
                            end)) = uids R).
    { destruct (FdtGetProp (Fdt h) Node "interrupts-extended") as [p3 |];
        [| reflexivity].
      destruct (_ =? 0); [apply AplicIdcLoop_uids | reflexivity]. }
    destruct (match FdtGetProp (Fdt h) Node "interrupts-extended" with
              | Some x => _
              | None => _
              end) as [n R'].
    cbn [snd] in HR.
    match goal with
    | |- context [AddSingleCmObj h ?o ?s] =>
        pose proof (AddSingleCmObj_keeps h o s eq_refl) as Hx;
        destruct (AddSingleCmObj h o s) as [e s1]
    end.
    cbn [snd] in Hx.
    destruct (EFI_ERROR e); cbn [fst snd];
      (split; [exact HR | eapply keeps_harts_trans; eassumption]).
Qed.

Lemma PlicAplicScan_keeps (h : FDT_HW_INFO_PARSER_HANDLE) (fuel : nat) :
  forall Prev GsiBase Id R st,
    uids (snd (fst (PlicAplicScan fuel h Prev GsiBase Id R st))) = uids R
    /\ keeps_harts st (snd (PlicAplicScan fuel h Prev GsiBase Id R st)).
Proof.
  induction fuel as [| fuel IH]; intros Prev GsiBase Id R st; cbn [PlicAplicScan];
    [split; [reflexivity | apply keeps_harts_refl] |].
  destruct (_ <? 0); [split; [reflexivity | apply keeps_harts_refl] |].
  destruct (negb _); [apply IH |].
  pose proof (PlicAplicNode_keeps h (FdtNextNode (Fdt h) Prev) GsiBase Id R st)
    as [H1 H2].
  destruct (PlicAplicNode h (FdtNextNode (Fdt h) Prev) GsiBase Id R st)
    as [[[ret g] R1] s1].
  cbn [fst snd] in H1, H2.
  destruct ret as [e |]; cbn [fst snd]; [split; assumption |].
  destruct (IH (FdtNextNode (Fdt h) Prev) g (Id + 1) R1 s1) as [H3 H4].
  split; [congruence | eapply keeps_harts_trans; eassumption].
Qed.

Lemma ImsicHartLoop_uids (fuel : nat) (Fdt : FDT) (IntExtProp : FdtProp)
  (Base Limit NumPhandle : Z) :
  forall Idx1 Idx2 R,
    uids (snd (ImsicHartLoop fuel Fdt IntExtProp Base Limit NumPhandle Idx1 Idx2 R))
    = uids R.
Proof.
  induction fuel as [| fuel IH]; intros Idx1 Idx2 R; cbn [ImsicHartLoop];
    [reflexivity |].
  destruct (_ && _); [| reflexivity].
  destruct (FdtAddressCells _ _ <? 0); [reflexivity |].
  destruct (FdtGetProp _ _ _) as [Data |]; [| reflexivity].
  destruct (negb _ && negb _); [reflexivity |].
  destruct (RiscVFindRintc _ _ _) as [k |]; [| reflexivity].
  rewrite IH. apply update_at_uids. reflexivity.
Qed.

Lemma ImsicRegionLoop_uids (Fdt : FDT) (IntExtProp ImsicRegProp : FdtProp)
  (NumPhandle : Z) (Idxs : list Z) :
  forall Idx2 R,
    uids (snd (ImsicRegionLoop Fdt IntExtProp ImsicRegProp NumPhandle Idxs Idx2 R))
    = uids R.
Proof.
  induction Idxs as [| Idx Idxs IH]; intros Idx2 R; cbn [ImsicRegionLoop];
    [reflexivity |].
  match goal with
  | |- context [ImsicHartLoop ?f ?t ?p ?b ?l ?n ?i1 ?i2 ?r] =>
      pose proof (ImsicHartLoop_uids f t p b l n i1 i2 r) as Hx;
      destruct (ImsicHartLoop f t p b l n i1 i2 r) as [[ret i] R1]
  end.
  cbn [snd] in Hx. destruct ret as [e |]; cbn [snd]; [exact Hx |].
  rewrite IH. exact Hx.
Qed.

Lemma ImsicSModeNode_keeps (h : FDT_HW_INFO_PARSER_HANDLE) (Node : Z)
  (IntExtProp : FdtProp) (R : list CM_RISCV_RINTC_INFO) (st : IntcState) :
  uids (snd (fst (ImsicSModeNode h Node IntExtProp R st))) = uids R
  /\ keeps_harts st (snd (ImsicSModeNode h Node IntExtProp R st)).
Proof.
  unfold ImsicSModeNode.
  destruct (_ =? 0); [split; [reflexivity | apply keeps_harts_refl] |].
  destruct (FdtGetProp (Fdt h) Node "riscv,num-ids") as [p |];
    [| split; [reflexivity | apply keeps_harts_refl]].
  destruct (FdtGetProp (Fdt h) Node "reg") as [reg |];
    [| split; [reflexivity | apply keeps_harts_refl]].
  destruct (negb _); [split; [reflexivity | apply keeps_harts_refl] |].
  match goal with
  | |- context [ImsicRegionLoop ?t ?p ?r ?n ?ix ?i ?R] =>
      pose proof (ImsicRegionLoop_uids t p r n ix i R) as Hx;
      destruct (ImsicRegionLoop t p r n ix i R) as [ret R1]
  end.
  cbn [snd] in Hx.
  destruct ret as [e |]; [split; [exact Hx | apply keeps_harts_refl] |].
  match goal with
  | |- context [AddSingleCmObj h ?o ?s] =>
      pose proof (AddSingleCmObj_keeps h o s eq_refl) as Hy;
      destruct (AddSingleCmObj h o s) as [e s1]
  end.
  cbn [fst snd] in *. split; assumption.
Qed.

Lemma ImsicScan_keeps (h : FDT_HW_INFO_PARSER_HANDLE) (fuel : nat) :
  forall Prev R st,
    uids (snd (fst (ImsicScan fuel h Prev R st))) = uids R
    /\ keeps_harts st (snd (ImsicScan fuel h Prev R st)).
Proof.
  induction fuel as [| fuel IH]; intros Prev R st; cbn [ImsicScan];
    [split; [reflexivity | apply keeps_harts_refl] |].
  destruct (_ <? 0); [split; [reflexivity | apply keeps_harts_refl] |].
  destruct (FdtNodeIsCompatible _ _ _); [| apply IH].
  destruct (FdtGetProp _ _ _) as [p |];
    [| split; [reflexivity | apply keeps_harts_refl]].
  destruct (negb _); [split; [reflexivity | apply keeps_harts_refl] |].
  destruct (_ =? IRQ_S_EXT); [apply ImsicSModeNode_keeps | apply IH].
Qed.

End UidLemmas.

(** The values a run of records receives, in closed form. *)
Lemma uid_run_length (n : nat) : forall u, length (uid_run n u) = n.
Proof. induction n as [| n IH]; intros u; cbn [uid_run length]; [| rewrite IH]; reflexivity. Qed.

Lemma next_uid_add (u : Z) (n : Z) : u32 (next_uid u + n) = u32 (u + (1 + n)).
Proof.
  unfold next_uid, u32. rewrite Zplus_mod_idemp_l. f_equal. lia.
Qed.

Lemma uid_run_nth (n : nat) : forall u k v,
  0 <= u < 2 ^ 32 ->
  nth_error (uid_run n u) k = Some v ->
  v = u32 (u + Z.of_nat k).
Proof.
  induction n as [| n IH]; intros u k v Hu Hk; cbn [uid_run] in Hk.
  - destruct k; discriminate.
  - destruct k as [| k]; cbn [nth_error] in Hk.
    + apply Some_inj in Hk. subst v. rewrite Z.add_0_r, u32_small; auto.
    + apply IH in Hk; [| apply u32_range].
      rewrite Hk, next_uid_add. f_equal. lia.
Qed.

Section HartUidLemmas.
Context `{K : IntcDecls}.

Lemma CpuNodeParser_success (h : FDT_HW_INFO_PARSER_HANDLE) (CpuNode AddressCells : Z)
  (st st' : IntcState) (Status : EFI_STATUS) (r : option CM_RISCV_RINTC_INFO) :
  CpuNodeParser h CpuNode AddressCells st = (Status, r, st') ->
  EFI_ERROR Status = false ->
  exists x, r = Some x
            /\ AcpiProcessorUid x = ProcUid st
            /\ st' = with_ProcUid st (next_uid (ProcUid st)).
Proof.
  unfold CpuNodeParser. intros Hrun Hs.
  destruct (FdtGetProp _ _ _) as [Data |]; [| inv Hrun; discriminate].
  destruct (negb _ && negb _); [inv Hrun; discriminate |].
  destruct (FdtGetNextNamedNodeInBranch _ _ _ _) as [s1 n1].
  inv Hrun. eexists. split; [reflexivity |]. split; reflexivity.
Qed.

(** The records the loop appends carry the successive values of the
    counter, and the counter is left after the last of them. *)
Lemma CpusNodeParser_loop_uids (h : FDT_HW_INFO_PARSER_HANDLE) (CpusNode AddressCells : Z)
  (n : nat) :
  forall CpuNode Buffer st Status Buffer' st',
    0 <= ProcUid st < 2 ^ 32 ->
    CpusNodeParser_loop h CpusNode AddressCells n CpuNode Buffer st
    = (Status, Buffer', st') ->
    EFI_ERROR Status = false ->
    exists new,
      Buffer' = Buffer ++ new
      /\ uids new = uid_run n (ProcUid st)
      /\ ProcUid st' = u32 (ProcUid st + Z.of_nat n)
      /\ CmObjs st' = CmObjs st
      /\ IntcHeap st' = IntcHeap st.
Proof.
  induction n as [| n IH]; intros CpuNode Buffer st Status Buffer' st' Hu Hrun Hs;
    cbn [CpusNodeParser_loop] in Hrun.
  - inv Hrun. exists []. rewrite app_nil_r, Z.add_0_r, u32_small by exact Hu.
    repeat split; reflexivity.
  - destruct (FdtGetNextNamedNodeInBranch _ _ _ _) as [s1 n1].
    destruct (EFI_ERROR s1) eqn:E1.
    { apply pair_equal_spec in Hrun. destruct Hrun as [Hrun _].
      apply pair_equal_spec in Hrun. destruct Hrun as [Hrun _].
      subst Status. destruct s1; cbn in E1, Hs; discriminate. }
    destruct (negb _); [inv Hrun; discriminate |].
    destruct (CpuNodeParser h n1 AddressCells st) as [[s2 r] st2] eqn:E2.
    destruct (EFI_ERROR s2) eqn:E3; [inv Hrun; congruence |].
    destruct (CpuNodeParser_success _ _ _ _ _ _ _ E2 E3) as (x & Hr & Hx & Hst).
    subst r st2.
    apply IH in Hrun; [| cbn [with_ProcUid ProcUid]; apply u32_range | exact Hs].
    destruct Hrun as (new & HB & HU & HP & HC & HH).
    cbn [with_ProcUid ProcUid CmObjs IntcHeap] in HU, HP, HC, HH.
    exists (x :: new). rewrite HB, <- app_assoc. split; [reflexivity |].
    split; [unfold uids in *; cbn [map uid_run]; rewrite HU, Hx; reflexivity |].
    split; [rewrite HP, next_uid_add; f_equal; lia |].
    split; assumption.
Qed.

Lemma CpusNodeParser_uids (h : FDT_HW_INFO_PARSER_HANDLE) (CpusNode : Z)
  (st st' : IntcState) (Status : EFI_STATUS)
  (Desc : option (nat * list CM_RISCV_RINTC_INFO)) :
  0 <= ProcUid st < 2 ^ 32 ->
  CpusNodeParser h CpusNode st = Done (Status, Desc, st') ->
  EFI_ERROR Status = false ->
  exists d Buffer,
    Desc = Some (d, Buffer)
    /\ uids Buffer = uid_run (length Buffer) (ProcUid st)
    /\ ProcUid st' = u32 (ProcUid st + Z.of_nat (length Buffer))
    /\ CmObjs st' = CmObjs st.
Proof.
  unfold CpusNodeParser. intros Hu Hrun Hs.
  destruct (_ <? 0); [inv Hrun; discriminate |].
  destruct (FdtCountNamedNodeInBranch _ _ _) as [s1 cnt].
  destruct (EFI_ERROR s1) eqn:E1; [inv Hrun; congruence |].
  destruct (cnt =? 0); [inv Hrun; discriminate |].
  destruct (AllocateZeroPool (IntcHeap st)) as [[b |] heap]; [| inv Hrun; discriminate].
  destruct (CpusNodeParser_loop _ _ _ _ _ _ _) as [[s2 Buffer] st2] eqn:E2.
  destruct (EFI_ERROR s2) eqn:E3.
  { bind_inv Hrun. inv Hrun. congruence. }
  apply CpusNodeParser_loop_uids in E2; [| exact Hu | exact E3].
  destruct E2 as (new & HB & HU & HP & HC & HH).
  cbn [app] in HB. subst Buffer.
  cbn [with_IntcHeap ProcUid CmObjs] in HU, HP, HC.
  assert (Hlen : length new = Z.to_nat cnt).
  { rewrite <- (uid_run_length (Z.to_nat cnt) (ProcUid st)), <- HU.
    unfold uids. symmetry. apply length_map. }
  unfold CreateCmObjDesc in Hrun.
  destruct (AllocateZeroPool (IntcHeap st2)) as [[d |] heap2].
  - bind_inv Hrun. inv Hrun. exists d, new.
    cbn [with_IntcHeap ProcUid CmObjs]. rewrite Hlen.
    split; [reflexivity |]. split; [exact HU |]. split; [| exact HC].
    rewrite HP. reflexivity.
  - bind_inv Hrun. inv Hrun. discriminate.
Qed.

Lemma tolerated_success (Status : EFI_STATUS) :
  EFI_ERROR Status = false -> tolerated Status = true.
Proof. intros H. unfold tolerated. rewrite H. reflexivity. Qed.

(** A successful run of the parser publishes one record for each
    "cpu" node, with the successive values of the counter. *)
Lemma RiscVIntcInfoParser_uids (h : FDT_HW_INFO_PARSER_HANDLE) (Branch : Z)
  (st st' : IntcState) (Status : EFI_STATUS) :
  0 <= ProcUid st < 2 ^ 32 ->
  RiscVIntcInfoParser h Branch st = Done (Status, st') ->
  EFI_ERROR Status = false ->
  exists R,
    published_harts (CmObjs st') = published_harts (CmObjs st) ++ R
    /\ uids R = uid_run (length R) (ProcUid st)
    /\ ProcUid st' = u32 (ProcUid st + Z.of_nat (length R)).
Proof.
  unfold RiscVIntcInfoParser. intros Hu Hrun Hs.
  bind_inv_as Hrun r1 E1. destruct r1 as [[s1 Desc] st1].
  destruct (EFI_ERROR s1) eqn:Es1; [inv Hrun; congruence |].
  destruct (CpusNodeParser_uids _ _ _ _ _ _ Hu E1 Es1) as (d & Buffer & HD & HU & HP & HC).
  subst Desc.
  unfold ImsicRintcInfoParser, PlicAplicInfoParser in Hrun.
  destruct (ImsicScan_keeps h (length (Fdt h)) 0 Buffer st1) as [Hi1 [Hi2 Hi3]].
  destruct (ImsicScan (length (Fdt h)) h 0 Buffer st1) as [[s2 R2] st2].
  cbn [fst snd] in Hi1, Hi2, Hi3.
  destruct (negb (tolerated s2)) eqn:Et2.
  { bind_inv Hrun. inv Hrun. unfold tolerated in Et2. rewrite Hs in Et2. discriminate. }
  destruct (PlicAplicScan_keeps h (length (Fdt h)) 0 0 0 R2 st2) as [Hp1 [Hp2 Hp3]].
  destruct (PlicAplicScan (length (Fdt h)) h 0 0 0 R2 st2) as [[s3 R3] st3].
  cbn [fst snd] in Hp1, Hp2, Hp3.
  destruct (negb (tolerated s3)) eqn:Et3.
  { bind_inv Hrun. inv Hrun. unfold tolerated in Et3. rewrite Hs in Et3. discriminate. }
  destruct (AddMultipleCmObj h R3 st3) as [s4 st4] eqn:E4.
  bind_inv Hrun. inv Hrun.
  destruct (AddMultipleCmObj_published _ _ _ _ _ E4 Hs) as (Ha1 & Ha2 & Ha3).
  assert (HUR : uids R3 = uids Buffer) by congruence.
  assert (HLR : length R3 = length Buffer).
  { unfold uids in HUR. rewrite <- (length_map AcpiProcessorUid R3), HUR.
    apply length_map. }
  exists R3. cbn [with_IntcHeap CmObjs ProcUid].
  rewrite Ha2, published_harts_app, published_harts_records.
  rewrite Hp3, Hi3, HC, HUR, HLR.
  split; [reflexivity |]. split; [exact HU |]. congruence.
Qed.

Lemma RiscVIntcDispatcher_uids (h : FDT_HW_INFO_PARSER_HANDLE)
  (st st' : IntcState) (Status : EFI_STATUS) :
  0 <= ProcUid st < 2 ^ 32 ->
  RiscVIntcDispatcher h st = Done (Status, st') ->
  EFI_ERROR Status = false ->
  exists R,
    published_harts (CmObjs st') = published_harts (CmObjs st) ++ R
    /\ uids R = uid_run (length R) (ProcUid st)
    /\ ProcUid st' = u32 (ProcUid st + Z.of_nat (length R)).
Proof.
  unfold RiscVIntcDispatcher. intros Hu Hrun Hs.
  destruct (_ <? 0); [inv Hrun; discriminate |].
  bind_inv_as Hrun r1 E1. destruct r1 as [s1 st1].
  destruct (EFI_ERROR s1) eqn:Es1; [inv Hrun; congruence |].
  inv Hrun. eapply RiscVIntcInfoParser_uids; eassumption.
Qed.

End HartUidLemmas.

(* ================================================================== *)
(** * Extraction followed by synthesis                                 *)
(* ================================================================== *)

Lemma HartListOf_PipelineCfg (Board : EDKII_CONFIGURATION_MANAGER_PROTOCOL)
  (harts : list CM_RISCV_RINTC_INFO) :
  HartListOf (PipelineCfg Board harts) = harts.
Proof. destruct harts; reflexivity. Qed.

Section PipelineLemmas.
Context `{K : IntcDecls} `{L : RhctDecls}.
Hypothesis Hok : layout_ok = true.

(** C1 (as amended).  The hart counter is a function-static that is
    never reset: an invocation that starts with the counter at [u] and
    succeeds with N harts writes the identifier (u + k) mod 2^32 into
    the k-th Hart-Info node of its table and leaves the counter at
    (u + N) mod 2^32, so a second invocation on the same tree continues
    the sequence at N rather than at 0. *)
Theorem C1_hart_uids_continue_across_invocations
  (h : FDT_HW_INFO_PARSER_HANDLE) (Board : EDKII_CONFIGURATION_MANAGER_PROTOCOL)
  (Info : CM_STD_OBJ_ACPI_TABLE_INFO) (fw fw' : Firmware) (T : list byte) :
  0 <= ProcUid (fw_intc fw) < 2 ^ 32 ->
  Pipeline h Board Info fw = Done (EFI_SUCCESS, Some T, fw') ->
  let harts := published_harts (CmObjs (fw_intc fw')) in
  let Cfg := PipelineCfg Board harts in
  table_fits Cfg = true ->
  ProcUid (fw_intc fw') = u32 (ProcUid (fw_intc fw) + Z.of_nat (length harts))
  /\ forall k, (k < length harts)%nat ->
       load_field T (HartNodeOffsetOf Cfg k) Hart_Uid
       = u32 (ProcUid (fw_intc fw) + Z.of_nat k).
Proof.
  intros Hu Hrun harts Cfg Hfit. subst Cfg harts.
  unfold Pipeline in Hrun.
  bind_inv_as Hrun r1 E1. destruct r1 as [s1 st1].
  destruct (EFI_ERROR s1) eqn:Es1; [inv Hrun |].
  bind_inv_as Hrun r2 E2. destruct r2 as [s2 w2].
  apply Done_inj in Hrun.
  apply pair_equal_spec in Hrun. destruct Hrun as [Hrun Hfw].
  apply pair_equal_spec in Hrun. destruct Hrun as [Hs2 HT].
  subst s2 fw'. cbn [fw_intc with_IntcHeap CmObjs ProcUid] in *.
  destruct (Table w2) as [[tb T2] |] eqn:ET; [| discriminate HT].
  apply Some_inj in HT. subst T2.
  destruct (RiscVIntcDispatcher_uids h (with_CmObjs (fw_intc fw) []) _ _ Hu E1 Es1)
    as (R & HR & HU & HP).
  cbn [with_CmObjs CmObjs ProcUid published_harts flat_map app] in HR, HU, HP.
  rewrite HR in *.
  split; [exact HP |].
  intros k Hk.
  destruct (nth_error R k) as [r |] eqn:Er;
    [| apply nth_error_None in Er; lia].
  destruct (BuildRhctTable_written Hok _ _ _ _ _ _ Hfit E2 ET) as [_ Hh].
  rewrite HartListOf_PipelineCfg in Hh.
  destruct (Hh k r Er) as (_ & _ & _ & Huid & _).
  rewrite Huid.
  assert (Hv : AcpiProcessorUid r = u32 (ProcUid (fw_intc fw) + Z.of_nat k)).
  { eapply uid_run_nth; [exact Hu |].
    rewrite <- HU. unfold uids. rewrite nth_error_map, Er. reflexivity. }
  rewrite Hv. apply Z.mod_small. apply u32_range.
Qed.

End PipelineLemmas.

Lemma C1_witness :
  exists T fw',
    Pipeline (K := RiscVDecls) (L := SpecLayout) (handle_of tree_two_aplic)
      (sample_cfg 0 []) sample_info firmware_boot
    = Done (EFI_SUCCESS, Some T, fw')
    /\ ProcUid (fw_intc fw') = 2
    /\ load_field T 79 (Hart_Uid (RhctDecls := SpecLayout)) = 0
    /\ load_field T 94 (Hart_Uid (RhctDecls := SpecLayout)) = 1.
Proof.
  eexists. eexists.
  match goal with
  | |- ?A = ?B /\ _ => assert (H : A = B) by (vm_compute; reflexivity)
  end.
  split; [exact H |].
  assert (Hu : 0 <= ProcUid (fw_intc firmware_boot) < 2 ^ 32)
    by (change (0 <= 0 < 2 ^ 32); lia).
  destruct (C1_hart_uids_continue_across_invocations (K := RiscVDecls)
              (L := SpecLayout) eq_refl _ _ _ _ _ _ Hu H eq_refl) as [H1 H2].
  split; [exact H1 |].
  split; [apply (H2 0%nat) | apply (H2 1%nat)]; vm_compute; lia.
Defined.

(** Two invocations on the same tree: both succeed, and the tables
    differ in the identifier of the Hart-Info node. *)
Lemma C1_counterexample :
  exists T1 fw1 T2 fw2,
    Pipeline (K := RiscVDecls) (L := SpecLayout) (handle_of tree_one_hart)
      (sample_cfg 0 []) sample_info firmware_boot
    = Done (EFI_SUCCESS, Some T1, fw1)
    /\ Pipeline (K := RiscVDecls) (L := SpecLayout) (handle_of tree_one_hart)
         (sample_cfg 0 []) sample_info fw1
       = Done (EFI_SUCCESS, Some T2, fw2)
    /\ T1 <> T2
    /\ load_field T1 79 (Hart_Uid (RhctDecls := SpecLayout)) = 0
    /\ load_field T2 79 (Hart_Uid (RhctDecls := SpecLayout)) = 1.
Proof.
  do 4 eexists.
  split; [vm_compute; reflexivity |].
  split; [vm_compute; reflexivity |].
  split; [| split; vm_compute; reflexivity].
  intros Heq. apply (f_equal (fun l => nth 86 l x00)) in Heq.
  vm_compute in Heq. discriminate Heq.
Qed.

(* ================================================================== *)
(** * The hart records: lookup and update                              *)
(* ================================================================== *)

Lemma update_at_length {A : Type} (f : A -> A) (l : list A) :
  forall i, length (update_at l i f) = length l.
Proof.
  induction l as [| x l IH]; intros i; [destruct i; reflexivity |].
  destruct i; cbn [update_at length]; [| rewrite IH]; reflexivity.
Qed.

Lemma update_at_nth {A : Type} (f : A -> A) (l : list A) :
  forall i j,
    nth_error (update_at l i f) j
    = if Nat.eqb j i then option_map f (nth_error l j) else nth_error l j.
Proof.
  induction l as [| x l IH]; intros i j.
  - destruct i, j; cbn; try reflexivity; destruct (Nat.eqb _ _); reflexivity.
  - destruct i as [| i], j as [| j]; cbn [update_at nth_error Nat.eqb option_map];
      try reflexivity.
    apply IH.
Qed.

Lemma RiscVFindRintc_found (l : list CM_RISCV_RINTC_INFO) (Id : Z) :
  forall Idx k,
    RiscVFindRintc l Id Idx = Some k ->
    exists j r,
      k = (Idx + j)%nat
      /\ nth_error l j = Some r
      /\ HartId r = Id
      /\ forall i r', (i < j)%nat -> nth_error l i = Some r' -> HartId r' <> Id.
Proof.
  induction l as [| x l IH]; intros Idx k Hk; cbn [RiscVFindRintc] in Hk;
    [discriminate |].
  destruct (HartId x =? Id) eqn:E.
  - apply Some_inj in Hk. subst k. apply Z.eqb_eq in E.
    exists 0%nat, x. split; [lia |]. split; [reflexivity |]. split; [exact E |].
    intros i r' Hi. lia.
  - apply Z.eqb_neq in E.
    destruct (IH _ _ Hk) as (j & r & Hj & Hn & Hr & Hfirst).
    exists (S j), r. split; [lia |]. split; [exact Hn |]. split; [exact Hr |].
    intros i r' Hi Hi'. destruct i as [| i]; cbn [nth_error] in Hi'.
    + apply Some_inj in Hi'. subst r'. exact E.
    + apply (Hfirst i r'); [lia | exact Hi'].
Qed.

Lemma RiscVFindRintc_absent (l : list CM_RISCV_RINTC_INFO) (Id : Z) :
  forall Idx,
    RiscVFindRintc l Id Idx = None ->
    forall r, In r l -> HartId r <> Id.
Proof.
  induction l as [| x l IH]; intros Idx Hk r Hin; [destruct Hin |].
  cbn [RiscVFindRintc] in Hk.
  destruct (HartId x =? Id) eqn:E; [discriminate |].
  apply Z.eqb_neq in E. destruct Hin as [-> | Hin]; [exact E |].
  eapply IH; eassumption.
Qed.

(** X1.  RiscVFindRintc returns the first record whose HartId is the
    one looked for, and NULL exactly when no record has it. *)
Theorem X1_find_rintc_first_match (l : list CM_RISCV_RINTC_INFO) (Id : Z) :
  match RiscVFindRintc l Id 0 with
  | Some k =>
      exists r,
        nth_error l k = Some r
        /\ HartId r = Id
        /\ forall i r', (i < k)%nat -> nth_error l i = Some r' -> HartId r' <> Id
  | None => forall r, In r l -> HartId r <> Id
  end.
Proof.
  destruct (RiscVFindRintc l Id 0) as [k |] eqn:E.
  - destruct (RiscVFindRintc_found _ _ _ _ E) as (j & r & Hj & Hn & Hr & Hfirst).
    cbn [Nat.add] in Hj. subst k. exists r. auto.
  - eapply RiscVFindRintc_absent. exact E.
Qed.

Section UpdateLemmas.
Context `{K : IntcDecls}.

(** X2.  RiscVUpdateRintc either fails and leaves the records as they
    are, or succeeds and stores the identifier into the ExtIntcId of
    one record: the first whose HartId is the hart id read through the
    pointer to "reg" of the cpu node, as one 64-bit cell when the
    parent has two address cells and as one 32-bit cell otherwise,
    whichever of the two lengths the property has (for a property of 4
    bytes the 64-bit read takes in the 4 bytes that follow it in the
    blob).  No record is added or removed, and no other member and no
    other record changes. *)
Theorem X2_update_rintc_touches_one_record (Fdt : FDT)
  (Rintc : list CM_RISCV_RINTC_INFO) (CpuNode ExtIntcId : Z) :
  let Status := fst (RiscVUpdateRintc Fdt Rintc CpuNode ExtIntcId) in
  let Rintc' := snd (RiscVUpdateRintc Fdt Rintc CpuNode ExtIntcId) in
  length Rintc' = length Rintc
  /\ (EFI_ERROR Status = true -> Rintc' = Rintc)
  /\ (Status = EFI_SUCCESS ->
      exists Data k r,
        FdtGetProp Fdt CpuNode "reg" = Some Data
        /\ (PropLen Data = 4 \/ PropLen Data = 8)
        /\ nth_error Rintc k = Some r
        /\ HartId r
           = (if u32 (FdtAddressCells Fdt (FdtParentOffset Fdt CpuNode)) =? 2
              then cell64 Data 0 else cell32 Data 0)
        /\ (forall i r', (i < k)%nat -> nth_error Rintc i = Some r' ->
              HartId r' <> HartId r)
        /\ nth_error Rintc' k = Some (set_ExtIntcId r ExtIntcId)
        /\ forall i, i <> k -> nth_error Rintc' i = nth_error Rintc i).
Proof.
  cbv zeta. unfold RiscVUpdateRintc.
  destruct (u32 _ <? 0); [cbn [fst snd]; repeat split; try reflexivity; discriminate |].
  destruct (FdtGetProp Fdt CpuNode "reg") as [Data |];
    [| cbn [fst snd]; repeat split; try reflexivity; discriminate].
  destruct (negb (PropLen Data =? 4) && negb (PropLen Data =? 8)) eqn:El;
    [cbn [fst snd]; repeat split; try reflexivity; discriminate |].
  destruct (RiscVFindRintc Rintc _ 0) as [k |] eqn:Ef;
    [| cbn [fst snd]; repeat split; try reflexivity; discriminate].
  cbn [fst snd]. split; [apply update_at_length |].
  split; [discriminate |]. intros _.
  destruct (RiscVFindRintc_found _ _ _ _ Ef) as (j & r & Hj & Hn & Hr & Hfirst).
  cbn [Nat.add] in Hj. subst k.
  exists Data, j, r. split; [reflexivity |].
  split.
  { apply andb_false_iff in El. destruct El as [El | El];
      apply negb_false_iff, Z.eqb_eq in El; auto. }
  split; [exact Hn |]. split; [exact Hr |].
  split; [intros i r' Hi Hi'; rewrite Hr; eapply Hfirst; eassumption |].
  split.
  - rewrite update_at_nth, Nat.eqb_refl, Hn. reflexivity.
  - intros i Hi. rewrite update_at_nth.
    replace (Nat.eqb i j) with false by (symmetry; apply Nat.eqb_neq; exact Hi).
    reflexivity.
Qed.

End UpdateLemmas.

(** A read longer than the property takes in what follows it in the
    blob: a "reg" of one cell with the value 5, followed by the token
    that opens the next property (3), read as one 64-bit cell; and the
    second 64-bit cell of a "reg" of two cells, read from that token
    and the length word after it (12). *)
Lemma cell64_takes_in_what_follows :
  cell64 (mkProp (be_bytes 4 5) (fun k => nth k (be_bytes 4 3) x00)) 0
  = 5 * 2 ^ 32 + 3
  /\ cell64 (mkProp (be_bytes 4 0 ++ be_bytes 4 201326592)
               (fun k => nth k (be_bytes 4 3 ++ be_bytes 4 12) x00)) 1
     = 3 * 2 ^ 32 + 12.
Proof. split; reflexivity. Qed.

(* ================================================================== *)
(** * What the controller parsers change in the hart records           *)
(* ================================================================== *)

Lemma update_at_map {A B : Type} (g : A -> B) (f : A -> A) (l : list A) :
  (forall r, g (f r) = g r) ->
  forall i, map g (update_at l i f) = map g l.
Proof.
  intros Hf. induction l as [| x l IH]; intros i; [destruct i; reflexivity |].
  destruct i as [| i]; cbn [update_at map].
  - rewrite Hf. reflexivity.
  - rewrite IH. reflexivity.
Qed.

Lemma fold_left_map {A B C : Type} (g : A -> B) (f : list A -> C -> list A)
  (xs : list C) :
  (forall R x, map g (f R x) = map g R) ->
  forall R, map g (fold_left f xs R) = map g R.
Proof.
  intros Hf. induction xs as [| x xs IH]; intros R; cbn [fold_left];
    [reflexivity |].
  rewrite IH. apply Hf.
Qed.

Section ExtIntcIdOnly.
Context `{K : IntcDecls}.
Context {B : Type} (g : CM_RISCV_RINTC_INFO -> B).
Hypothesis g_ext : forall r v, g (set_ExtIntcId r v) = g r.

Lemma RiscVUpdateRintc_map (Fdt : FDT) (R : list CM_RISCV_RINTC_INFO) (CpuNode Id : Z) :
  map g (snd (RiscVUpdateRintc Fdt R CpuNode Id)) = map g R.
Proof.
  unfold RiscVUpdateRintc.
  destruct (_ <? 0); [reflexivity |].
  destruct (FdtGetProp _ _ _) as [Data |]; [| reflexivity].
  destruct (negb _ && negb _); [reflexivity |].
  destruct (RiscVFindRintc _ _ _) as [k |]; [| reflexivity].
  cbn [snd]. apply update_at_map. intros r. apply g_ext.
Qed.

Lemma PlicContextLoop_map (Fdt : FDT) (p : FdtProp) (Len Id : Z)
  (R : list CM_RISCV_RINTC_INFO) :
  map g (PlicContextLoop Fdt p Len Id R) = map g R.
Proof.
  unfold PlicContextLoop. apply fold_left_map. intros R0 x.
  destruct (_ =? _); [apply RiscVUpdateRintc_map | reflexivity].
Qed.

Lemma AplicIdcLoop_map (Fdt : FDT) (p : FdtProp) (Len Id : Z)
  (R : list CM_RISCV_RINTC_INFO) :
  map g (AplicIdcLoop Fdt p Len Id R) = map g R.
Proof.
  unfold AplicIdcLoop. apply fold_left_map. intros R0 x.
  apply RiscVUpdateRintc_map.
Qed.

Lemma PlicAplicNode_map (h : FDT_HW_INFO_PARSER_HANDLE)
  (Node GsiBase Id : Z) (R : list CM_RISCV_RINTC_INFO) (st : IntcState) :
  map g (snd (fst (PlicAplicNode h Node GsiBase Id R st))) = map g R.
Proof.
  unfold PlicAplicNode.
  set (s0 := snd (FdtCreateExtIntcList Node GsiBase st)).
  destruct (match FdtGetProp (Fdt h) Node "riscv,num-sources" with
            | Some p => Some p
            | None => FdtGetProp (Fdt h) Node "riscv,ndev"
            end) as [p1 |]; [| reflexivity].
  destruct (FdtGetProp (Fdt h) Node "reg") as [p2 |]; [| reflexivity].
  destruct (0 <? PropLen p2 mod 4); [reflexivity |].
  destruct (FdtNodeIsCompatible (Fdt h) Node PlicCompatibleInfo).
  - destruct (FdtGetProp (Fdt h) Node "interrupts-extended") as [p3 |];
      [| reflexivity].
    destruct (PropLen p3 <? 4); [reflexivity |].
    destruct (AllocateZeroPool (IntcHeap s0)) as [[q |] hp]; [| reflexivity].
    destruct (AddSingleCmObj h _ _) as [e s1].
    destruct (EFI_ERROR e); cbn [fst snd]; apply PlicContextLoop_map.
  - destruct (FdtNodeIsCompatible (Fdt h) Node AplicCompatibleInfo); [| reflexivity].
    destruct (AllocateZeroPool (IntcHeap s0)) as [[q |] hp]; [| reflexivity].
    assert (HR : map g (snd (match FdtGetProp (Fdt h) Node "interrupts-extended" with
                             | Some IntExtProp =>
                                 if (PropLen IntExtProp / 4) mod 2 =? 0
                                 then ((PropLen IntExtProp / 4) / 2,
                                       AplicIdcLoop (Fdt h) IntExtProp
                                         (PropLen IntExtProp / 4) Id R)
                                 else (0, R)
                             | None => (0, R)
                             end)) = map g R).
    { destruct (FdtGetProp (Fdt h) Node "interrupts-extended") as [p3 |];
        [| reflexivity].
      destruct (_ =? 0); [apply AplicIdcLoop_map | reflexivity]. }
    destruct (match FdtGetProp (Fdt h) Node "interrupts-extended" with
              | Some x => _
              | None => _
              end) as [n R'].
    cbn [snd] in HR.
    destruct (AddSingleCmObj h _ _) as [e s1].
    destruct (EFI_ERROR e); cbn [fst snd]; exact HR.
Qed.

Lemma PlicAplicScan_map (h : FDT_HW_INFO_PARSER_HANDLE) (fuel : nat) :
  forall Prev GsiBase Id R st,
    map g (snd (fst (PlicAplicScan fuel h Prev GsiBase Id R st))) = map g R.
Proof.
  induction fuel as [| fuel IH]; intros Prev GsiBase Id R st; cbn [PlicAplicScan];
    [reflexivity |].
  destruct (_ <? 0); [reflexivity |].
  destruct (negb _); [apply IH |].
  pose proof (PlicAplicNode_map h (FdtNextNode (Fdt h) Prev) GsiBase Id R st) as H1.
  destruct (PlicAplicNode h (FdtNextNode (Fdt h) Prev) GsiBase Id R st)
    as [[[ret g0] R1] s1].
  cbn [fst snd] in H1.
  destruct ret as [e |]; cbn [fst snd]; [exact H1 |].
  rewrite IH. exact H1.
Qed.

End ExtIntcIdOnly.

Section ImsicOnly.
Context `{K : IntcDecls}.
Context {B : Type} (g : CM_RISCV_RINTC_INFO -> B).
Hypothesis g_imsic : forall r a s, g (set_Imsic r a s) = g r.

Lemma ImsicHartLoop_map (fuel : nat) (Fdt : FDT) (IntExtProp : FdtProp)
  (Base Limit NumPhandle : Z) :
  forall Idx1 Idx2 R,
    map g (snd (ImsicHartLoop fuel Fdt IntExtProp Base Limit NumPhandle Idx1 Idx2 R))
    = map g R.
Proof.
  induction fuel as [| fuel IH]; intros Idx1 Idx2 R; cbn [ImsicHartLoop];
    [reflexivity |].
  destruct (_ && _); [| reflexivity].
  destruct (FdtAddressCells _ _ <? 0); [reflexivity |].
  destruct (FdtGetProp _ _ _) as [Data |]; [| reflexivity].
  destruct (negb _ && negb _); [reflexivity |].
  destruct (RiscVFindRintc _ _ _) as [k |]; [| reflexivity].
  rewrite IH. apply update_at_map. intros r. apply g_imsic.
Qed.

Lemma ImsicRegionLoop_map (Fdt : FDT) (IntExtProp ImsicRegProp : FdtProp)
  (NumPhandle : Z) (Idxs : list Z) :
  forall Idx2 R,
    map g (snd (ImsicRegionLoop Fdt IntExtProp ImsicRegProp NumPhandle Idxs Idx2 R))
    = map g R.
Proof.
  induction Idxs as [| Idx Idxs IH]; intros Idx2 R; cbn [ImsicRegionLoop];
    [reflexivity |].
  match goal with
  | |- context [ImsicHartLoop ?f ?t ?p ?b ?l ?n ?i1 ?i2 ?r] =>
      pose proof (ImsicHartLoop_map f t p b l n i1 i2 r) as Hx;
      destruct (ImsicHartLoop f t p b l n i1 i2 r) as [[ret i] R1]
  end.
  cbn [snd] in Hx. destruct ret as [e |]; cbn [snd]; [exact Hx |].
  rewrite IH. exact Hx.
Qed.

Lemma ImsicSModeNode_map (h : FDT_HW_INFO_PARSER_HANDLE) (Node : Z)
  (IntExtProp : FdtProp) (R : list CM_RISCV_RINTC_INFO) (st : IntcState) :
  map g (snd (fst (ImsicSModeNode h Node IntExtProp R st))) = map g R.
Proof.
  unfold ImsicSModeNode.
  destruct (_ =? 0); [reflexivity |].
  destruct (FdtGetProp (Fdt h) Node "riscv,num-ids") as [p |]; [| reflexivity].
  destruct (FdtGetProp (Fdt h) Node "reg") as [reg |]; [| reflexivity].
  destruct (negb _); [reflexivity |].
  match goal with
  | |- context [ImsicRegionLoop ?t ?p ?r ?n ?ix ?i ?R] =>
      pose proof (ImsicRegionLoop_map t p r n ix i R) as Hx;
      destruct (ImsicRegionLoop t p r n ix i R) as [ret R1]
  end.
  cbn [snd] in Hx.
  destruct ret as [e |]; [exact Hx |].
  destruct (AddSingleCmObj h _ _) as [e s1]. exact Hx.
Qed.

Lemma ImsicScan_map (h : FDT_HW_INFO_PARSER_HANDLE) (fuel : nat) :
  forall Prev R st,
    map g (snd (fst (ImsicScan fuel h Prev R st))) = map g R.
Proof.
  induction fuel as [| fuel IH]; intros Prev R st; cbn [ImsicScan]; [reflexivity |].
  destruct (_ <? 0); [reflexivity |].
  destruct (FdtNodeIsCompatible _ _ _); [| apply IH].
  destruct (FdtGetProp _ _ _) as [p |]; [| reflexivity].
  destruct (negb _); [reflexivity |].
  destruct (_ =? IRQ_S_EXT); [apply ImsicSModeNode_map | apply IH].
Qed.

End ImsicOnly.

Section AnnotationLemmas.
Context `{K : IntcDecls}.

(** X3.  The two controller parsers only annotate the hart records:
    whatever they return, the records are the ones they were given, in
    the same order, and ImsicRintcInfoParser has changed at most
    ImsicBaseAddress and ImsicSize in them, PlicAplicInfoParser at most
    ExtIntcId. *)
Theorem X3_controller_parsers_only_annotate (h : FDT_HW_INFO_PARSER_HANDLE)
  (Rintc : list CM_RISCV_RINTC_INFO) (st : IntcState) :
  map (fun r => set_Imsic r 0 0) (snd (fst (ImsicRintcInfoParser h Rintc st)))
  = map (fun r => set_Imsic r 0 0) Rintc
  /\ map (fun r => set_ExtIntcId r 0) (snd (fst (PlicAplicInfoParser h Rintc st)))
     = map (fun r => set_ExtIntcId r 0) Rintc.
Proof.
  split.
  - unfold ImsicRintcInfoParser. apply ImsicScan_map. reflexivity.
  - unfold PlicAplicInfoParser. apply PlicAplicScan_map. reflexivity.
Qed.

End AnnotationLemmas.

(* ================================================================== *)
(** * The numbering of the PLIC and APLIC records                      *)
(* ================================================================== *)

Lemma controllers_app (a b : list CmObj) :
  controllers (a ++ b) = controllers a ++ controllers b.
Proof. unfold controllers. apply flat_map_app. Qed.

Section NumberingLemmas.
Context `{K : IntcDecls}.

Lemma is_ext_intc_compatible (Fdt : FDT) (Node : Z) :
  is_ext_intc Fdt Node = true ->
  FdtNodeIsCompatible Fdt Node PlicCompatibleInfo = true
  \/ FdtNodeIsCompatible Fdt Node AplicCompatibleInfo = true.
Proof.
  unfold is_ext_intc, IsPlicNode, IsAplicNode. intros H.
  destruct (FdtNodeIsCompatible Fdt Node PlicCompatibleInfo); [left; reflexivity |].
  destruct (FdtNodeIsCompatible Fdt Node AplicCompatibleInfo); [right; reflexivity |].
  cbn in H. discriminate.
Qed.

(** The body of the scan at a PLIC or supervisor-mode APLIC node: it
    either returns, having published nothing, or publishes one record
    that carries [Id] and [GsiBase] and moves the base past the
    sources of the node. *)
Lemma PlicAplicNode_numbered (h : FDT_HW_INFO_PARSER_HANDLE)
  (Node GsiBase Id : Z) (R : list CM_RISCV_RINTC_INFO) (st : IntcState) :
  is_ext_intc (Fdt h) Node = true ->
  forall ret g R' st',
    PlicAplicNode h Node GsiBase Id R st = (ret, g, R', st') ->
    match ret with
    | Some e => CmObjs st' = CmObjs st
    | None =>
        exists o i,
          CmObjs st' = CmObjs st ++ [o]
          /\ controllers [o] = [i]
          /\ Common_Id i = Id
          /\ Common_GsiBase i = GsiBase
          /\ g = u32 (GsiBase + NumSources i)
    end.
Proof.
  intros Hq ret g R' st'. unfold PlicAplicNode.
  assert (H0 : CmObjs (snd (FdtCreateExtIntcList Node GsiBase st)) = CmObjs st).
  { unfold FdtCreateExtIntcList.
    destruct (AllocateZeroPool (IntcHeap st)) as [[b |] hp]; reflexivity. }
  set (s0 := snd (FdtCreateExtIntcList Node GsiBase st)) in *.
  destruct (match FdtGetProp (Fdt h) Node "riscv,num-sources" with
            | Some p => Some p
            | None => FdtGetProp (Fdt h) Node "riscv,ndev"
            end) as [p1 |]; [| intros Hrun; inv Hrun; exact H0].
  destruct (FdtGetProp (Fdt h) Node "reg") as [p2 |];
    [| intros Hrun; inv Hrun; exact H0].
  destruct (0 <? PropLen p2 mod 4); [intros Hrun; inv Hrun; exact H0 |].
  destruct (FdtNodeIsCompatible (Fdt h) Node PlicCompatibleInfo) eqn:EP.
  - destruct (FdtGetProp (Fdt h) Node "interrupts-extended") as [p3 |];
      [| intros Hrun; inv Hrun; exact H0].
    destruct (PropLen p3 <? 4); [intros Hrun; inv Hrun; exact H0 |].
    destruct (AllocateZeroPool (IntcHeap s0)) as [[q |] hp];
      [| intros Hrun; inv Hrun; exact H0].
    unfold AddSingleCmObj.
    destruct (EFI_ERROR (HwInfoAdd h _)) eqn:Ee.
    + rewrite Ee. intros Hrun. inv Hrun. exact H0.
    + cbn [EFI_ERROR]. intros Hrun. inv Hrun.
      cbn [with_CmObjs with_IntcHeap CmObjs]. rewrite H0.
      eexists. eexists. split; [reflexivity |].
      split; [reflexivity |]. cbn [Common_Id Common_GsiBase NumSources].
      repeat split; reflexivity.
  - destruct (FdtNodeIsCompatible (Fdt h) Node AplicCompatibleInfo) eqn:EA.
    2:{ destruct (is_ext_intc_compatible _ _ Hq); congruence. }
    destruct (AllocateZeroPool (IntcHeap s0)) as [[q |] hp];
      [| intros Hrun; inv Hrun; exact H0].
    destruct (match FdtGetProp (Fdt h) Node "interrupts-extended" with
              | Some x => _
              | None => _
              end) as [n R1].
    unfold AddSingleCmObj.
    destruct (EFI_ERROR (HwInfoAdd h _)) eqn:Ee.
    + rewrite Ee. intros Hrun. inv Hrun. exact H0.
    + cbn [EFI_ERROR]. intros Hrun. inv Hrun.
      cbn [with_CmObjs with_IntcHeap CmObjs]. rewrite H0.
      eexists. eexists. split; [reflexivity |].
      split; [reflexivity |]. cbn [Common_Id Common_GsiBase NumSources].
      repeat split; reflexivity.
Qed.

Lemma PlicAplicScan_numbered (h : FDT_HW_INFO_PARSER_HANDLE) (fuel : nat) :
  forall Prev GsiBase Id R st,
    exists new,
      CmObjs (snd (PlicAplicScan fuel h Prev GsiBase Id R st)) = CmObjs st ++ new
      /\ length (controllers new) = length new
      /\ numbered Id GsiBase (controllers new).
Proof.
  induction fuel as [| fuel IH]; intros Prev GsiBase Id R st; cbn [PlicAplicScan].
  - exists []. rewrite app_nil_r. repeat split.
  - destruct (_ <? 0); [exists []; rewrite app_nil_r; repeat split |].
    destruct (negb _) eqn:Eq; [apply IH |].
    apply negb_false_iff in Eq. fold (is_ext_intc (Fdt h) (FdtNextNode (Fdt h) Prev)) in Eq.
    pose proof (PlicAplicNode_numbered h _ GsiBase Id R st Eq) as Hn.
    destruct (PlicAplicNode h (FdtNextNode (Fdt h) Prev) GsiBase Id R st)
      as [[[ret g] R1] s1].
    specialize (Hn _ _ _ _ eq_refl).
    destruct ret as [e |]; cbn [snd].
    + exists []. rewrite app_nil_r. repeat split. exact Hn.
    + destruct Hn as (o & i & Ho & Hc & Hid & Hg & Hnext).
      destruct (IH (FdtNextNode (Fdt h) Prev) g (Id + 1) R1 s1)
        as (new & Hnew & Hlen & Hnum).
      exists (o :: new). rewrite Hnew, Ho, <- app_assoc. split; [reflexivity |].
      change (o :: new) with ([o] ++ new). rewrite controllers_app, Hc.
      cbn [app length numbered]. rewrite Hlen.
      split; [reflexivity |]. subst g. auto.
Qed.

(** X4.  Whatever PlicAplicInfoParser returns, the objects it has
    published are PLIC and APLIC records only, numbered 0, 1, 2, .. in
    the order of the nodes, and their interrupt ranges follow one
    another from 0: each GsiBase is the previous GsiBase plus the
    previous NumSources, in 32 bits. *)
Theorem X4_controller_ids_and_gsi_ranges (h : FDT_HW_INFO_PARSER_HANDLE)
  (Rintc : list CM_RISCV_RINTC_INFO) (st : IntcState) :
  exists new,
    CmObjs (snd (PlicAplicInfoParser h Rintc st)) = CmObjs st ++ new
    /\ length (controllers new) = length new
    /\ numbered 0 0 (controllers new).
Proof. unfold PlicAplicInfoParser. apply PlicAplicScan_numbered. Qed.

End NumberingLemmas.

(* ================================================================== *)
(** * The IMSIC scan without a supervisor-mode node                    *)
(* ================================================================== *)

Section ImsicAbsentLemmas.
Context `{K : IntcDecls}.

Lemma ImsicScan_none (h : FDT_HW_INFO_PARSER_HANDLE) (fuel : nat) :
  (forall n, FdtNodeIsCompatible (Fdt h) n ImsicCompatibleInfo = true ->
     exists p,
       FdtGetProp (Fdt h) n "interrupts-extended" = Some p
       /\ (PropLen p / 4) mod 2 = 0
       /\ cell32 p 1 <> IRQ_S_EXT) ->
  forall Prev R st, ImsicScan fuel h Prev R st = (EFI_NOT_FOUND, R, st).
Proof.
  intros Hm. induction fuel as [| fuel IH]; intros Prev R st; cbn [ImsicScan];
    [reflexivity |].
  destruct (_ <? 0); [reflexivity |].
  destruct (FdtNodeIsCompatible _ _ _) eqn:Ec; [| apply IH].
  destruct (Hm _ Ec) as (p & Hp & Hpar & Hirq).
  rewrite Hp.
  replace ((PropLen p / 4) mod 2 =? 0) with true by (symmetry; apply Z.eqb_eq; exact Hpar).
  cbn [negb].
  replace (cell32 p 1 =? IRQ_S_EXT) with false by (symmetry; apply Z.eqb_neq; exact Hirq).
  apply IH.
Qed.

(** X5.  When the tree has no IMSIC node, or only IMSIC nodes whose
    (well-formed) routing property starts with an interrupt other than
    the supervisor external one, ImsicRintcInfoParser returns
    EFI_NOT_FOUND and changes neither the hart records nor the state:
    nothing is published. *)
Theorem X5_imsic_parser_not_found (h : FDT_HW_INFO_PARSER_HANDLE)
  (Rintc : list CM_RISCV_RINTC_INFO) (st : IntcState) :
  (forall n, FdtNodeIsCompatible (Fdt h) n ImsicCompatibleInfo = true ->
     exists p,
       FdtGetProp (Fdt h) n "interrupts-extended" = Some p
       /\ (PropLen p / 4) mod 2 = 0
       /\ cell32 p 1 <> IRQ_S_EXT) ->
  ImsicRintcInfoParser h Rintc st = (EFI_NOT_FOUND, Rintc, st).
Proof. intros Hm. unfold ImsicRintcInfoParser. apply ImsicScan_none. exact Hm. Qed.

End ImsicAbsentLemmas.

Lemma X5_witness :
  ImsicRintcInfoParser (K := RiscVDecls) (handle_of tree_m_imsic)
    sample_records intc_boot
  = (EFI_NOT_FOUND, sample_records, intc_boot).
Proof.
  apply (X5_imsic_parser_not_found (K := RiscVDecls)).
  intros n Hc. cbn [Fdt handle_of] in *.
  destruct (Z_lt_le_dec n 0) as [Hneg | Hpos].
  { rewrite FdtNodeIsCompatible_outside in Hc by (left; exact Hneg). discriminate. }
  destruct (Z_lt_le_dec n 8) as [Hlt | Hge].
  2:{ rewrite FdtNodeIsCompatible_outside in Hc by (right; vm_compute; exact Hge).
      discriminate. }
  assert (Hcases : n = 0 \/ n = 1 \/ n = 2 \/ n = 3 \/ n = 4 \/ n = 5 \/ n = 6 \/ n = 7)
    by lia.
  repeat (destruct Hcases as [-> | Hcases]; [vm_compute in Hc; discriminate |]).
  subst n. eexists. split; [vm_compute; reflexivity |].
  split; [vm_compute; reflexivity | vm_compute; discriminate].
Defined.

(* ================================================================== *)
(** * The pool: blocks that are released and blocks that are not       *)
(* ================================================================== *)

Lemma filter_fresh (id : nat) (l : list nat) (n : nat) :
  forallb (fun x => (x <? n)%nat) l = true ->
  (n <= id)%nat ->
  filter (fun x => negb (Nat.eqb id x)) l = l.
Proof.
  intros Hl Hid. induction l as [| x l IH]; [reflexivity |].
  cbn [forallb] in Hl. apply andb_prop in Hl. destruct Hl as [Hx Hl].
  apply Nat.ltb_lt in Hx. cbn [filter].
  replace (Nat.eqb id x) with false by (symmetry; apply Nat.eqb_neq; lia).
  cbn [negb]. rewrite IH by exact Hl. reflexivity.
Qed.

Lemma pool_wf_alloc (p : Pool) :
  pool_wf p = true -> pool_wf (snd (AllocateZeroPool p)) = true.
Proof.
  unfold pool_wf, AllocateZeroPool. intros H.
  assert (Hw : forallb (fun id => (id <? S (pool_next p))%nat) (pool_live p) = true).
  { rewrite forallb_forall in *. intros x Hx. specialize (H x Hx).
    apply Nat.ltb_lt in H. apply Nat.ltb_lt. lia. }
  destruct (pool_grant p (pool_next p)); cbn [snd pool_live pool_next forallb];
    [| exact Hw].
  rewrite Hw. replace (pool_next p <? S (pool_next p))%nat with true
    by (symmetry; apply Nat.ltb_lt; lia).
  reflexivity.
Qed.

(** Releasing the block that was allocated last gives back the blocks
    that were allocated before it. *)
Lemma FreePool_last (p : Pool) (id : nat) (p1 : Pool) :
  pool_wf p = true ->
  AllocateZeroPool p = (Some id, p1) ->
  FreePool id p1
  = Done (mkPool (S (pool_next p)) (pool_live p) (pool_grant p)).
Proof.
  unfold AllocateZeroPool, FreePool, is_live. intros Hwf Ha.
  destruct (pool_grant p (pool_next p)); [| inv Ha].
  inv Ha. cbn [pool_live pool_next pool_grant existsb filter].
  rewrite Nat.eqb_refl. cbn [orb negb].
  rewrite (filter_fresh _ _ (pool_next p)) by (try exact Hwf; lia).
  reflexivity.
Qed.

Section ExtIntcFreeLemmas.
Context `{K : IntcDecls}.

(** X6.  FdtFreeExtIntcList releases what the list holds, and the list
    holds the last registration only: after one registration it gives
    the pool back as it was and leaves the list empty; after two
    registrations it releases the second node and leaves the first
    one allocated. *)
Theorem X6_free_ext_intc_list_releases_last_only (Node1 Gsi1 Node2 Gsi2 : Z)
  (st st1 st2 : IntcState) :
  pool_wf (IntcHeap st) = true ->
  FdtCreateExtIntcList Node1 Gsi1 st = (EFI_SUCCESS, st1) ->
  FdtCreateExtIntcList Node2 Gsi2 st1 = (EFI_SUCCESS, st2) ->
  (exists s, FdtFreeExtIntcList st1 = Done s
             /\ ExtIntcList s = Some []
             /\ pool_live (IntcHeap s) = pool_live (IntcHeap st))
  /\ (exists s, FdtFreeExtIntcList st2 = Done s
                /\ ExtIntcList s = Some []
                /\ pool_live (IntcHeap s)
                   = pool_next (IntcHeap st) :: pool_live (IntcHeap st)).
Proof.
  intros Hwf H1 H2.
  unfold FdtCreateExtIntcList in H1.
  destruct (AllocateZeroPool (IntcHeap st)) as [[b1 |] hp1] eqn:Ea1; [| inv H1].
  pose proof (FreePool_last _ _ _ Hwf Ea1) as Hf1.
  pose proof (pool_wf_alloc _ Hwf) as Hwf1. rewrite Ea1 in Hwf1. cbn [snd] in Hwf1.
  inv H1.
  unfold FdtCreateExtIntcList in H2.
  cbn [with_ExtIntcList with_IntcHeap IntcHeap ExtIntcList InitializeListHead
       InsertTailList app] in H2.
  destruct (AllocateZeroPool hp1) as [[b2 |] hp2] eqn:Ea2; [| inv H2].
  pose proof (FreePool_last _ _ _ Hwf1 Ea2) as Hf2.
  inv H2.
  assert (Hhp1 : pool_live hp1 = b1 :: pool_live (IntcHeap st)
                 /\ b1 = pool_next (IntcHeap st)).
  { unfold AllocateZeroPool in Ea1.
    destruct (pool_grant (IntcHeap st) (pool_next (IntcHeap st))); inv Ea1.
    split; reflexivity. }
  destruct Hhp1 as [Hl1 Hb1].
  split.
  - unfold FdtFreeExtIntcList.
    cbn [with_ExtIntcList with_IntcHeap IntcHeap ExtIntcList InitializeListHead
         InsertTailList app FdtFreeExtIntcList_walk].
    rewrite Hf1. cbn [obind]. eexists. split; [reflexivity |].
    split; reflexivity.
  - unfold FdtFreeExtIntcList.
    cbn [with_ExtIntcList with_IntcHeap IntcHeap ExtIntcList InitializeListHead
         InsertTailList app FdtFreeExtIntcList_walk].
    rewrite Hf2. cbn [obind]. eexists. split; [reflexivity |].
    split; [reflexivity |].
    cbn [with_ExtIntcList with_IntcHeap IntcHeap pool_live].
    rewrite Hl1, Hb1. reflexivity.
Qed.

End ExtIntcFreeLemmas.

Lemma X6_witness :
  exists s,
    FdtFreeExtIntcList
      (snd (FdtCreateExtIntcList 8 32 (snd (FdtCreateExtIntcList 7 0 intc_boot))))
    = Done s
    /\ ExtIntcList s = Some []
    /\ pool_live (IntcHeap s) = [0%nat].
Proof.
  destruct (X6_free_ext_intc_list_releases_last_only 7 0 8 32 intc_boot
              (snd (FdtCreateExtIntcList 7 0 intc_boot))
              (snd (FdtCreateExtIntcList 8 32 (snd (FdtCreateExtIntcList 7 0 intc_boot))))
              eq_refl eq_refl eq_refl) as [_ (s & H1 & H2 & H3)].
  exists s. split; [exact H1 |]. split; [exact H2 | exact H3].
Defined.

Section HartBufferLemmas.
Context `{K : IntcDecls}.

Lemma CpuNodeParser_heap (h : FDT_HW_INFO_PARSER_HANDLE) (CpuNode AddressCells : Z)
  (st : IntcState) :
  IntcHeap (snd (CpuNodeParser h CpuNode AddressCells st)) = IntcHeap st
  /\ CmObjs (snd (CpuNodeParser h CpuNode AddressCells st)) = CmObjs st.
Proof.
  unfold CpuNodeParser.
  destruct (FdtGetProp _ _ _) as [Data |]; [| split; reflexivity].
  destruct (negb _ && negb _); [split; reflexivity |].
  destruct (FdtGetNextNamedNodeInBranch _ _ _ _) as [s1 n1]. split; reflexivity.
Qed.

Lemma CpusNodeParser_loop_heap (h : FDT_HW_INFO_PARSER_HANDLE) (CpusNode AddressCells : Z)
  (n : nat) :
  forall CpuNode Buffer st,
    IntcHeap (snd (CpusNodeParser_loop h CpusNode AddressCells n CpuNode Buffer st))
    = IntcHeap st
    /\ CmObjs (snd (CpusNodeParser_loop h CpusNode AddressCells n CpuNode Buffer st))
       = CmObjs st.
Proof.
  induction n as [| n IH]; intros CpuNode Buffer st; cbn [CpusNodeParser_loop];
    [split; reflexivity |].
  destruct (FdtGetNextNamedNodeInBranch _ _ _ _) as [s1 n1].
  destruct (EFI_ERROR s1); [split; reflexivity |].
  destruct (negb _); [split; reflexivity |].
  pose proof (CpuNodeParser_heap h n1 AddressCells st) as [H1 H2].
  destruct (CpuNodeParser h n1 AddressCells st) as [[s2 r] st2].
  cbn [snd] in H1, H2.
  destruct (EFI_ERROR s2); cbn [snd]; [split; assumption |].
  destruct (IH n1 (Buffer ++ [match r with Some x => x | None => zero_rintc end]) st2)
    as [H3 H4].
  split; congruence.
Qed.

(** X7.  CpusNodeParser does not fault and releases its temporary
    record buffer on every path: when it returns, the pool holds what
    it held before, and, when a descriptor is returned, the block of
    the descriptor.  A descriptor is returned exactly on success. *)
Theorem X7_cpus_parser_releases_buffer (h : FDT_HW_INFO_PARSER_HANDLE) (CpusNode : Z)
  (st : IntcState) :
  pool_wf (IntcHeap st) = true ->
  exists Status Desc st',
    CpusNodeParser h CpusNode st = Done (Status, Desc, st')
    /\ pool_live (IntcHeap st')
       = match Desc with
         | Some (d, _) => d :: pool_live (IntcHeap st)
         | None => pool_live (IntcHeap st)
         end
    /\ (EFI_ERROR Status = true <-> Desc = None).
Proof.
  intros Hwf. unfold CpusNodeParser.
  destruct (_ <? 0).
  { do 3 eexists. split; [reflexivity |]. split; [reflexivity |]. split; reflexivity. }
  destruct (FdtCountNamedNodeInBranch _ _ _) as [s1 cnt].
  destruct (EFI_ERROR s1) eqn:E1.
  { do 3 eexists. split; [reflexivity |]. split; [reflexivity |].
    split; [reflexivity | intros _; exact E1]. }
  destruct (cnt =? 0).
  { do 3 eexists. split; [reflexivity |]. split; [reflexivity |]. split; reflexivity. }
  unfold AllocateZeroPool at 1.
  destruct (pool_grant (IntcHeap st) (pool_next (IntcHeap st))).
  2:{ do 3 eexists. split; [reflexivity |]. split; [reflexivity |]. split; reflexivity. }
  set (n := pool_next (IntcHeap st)). set (L := pool_live (IntcHeap st)).
  set (g := pool_grant (IntcHeap st)).
  match goal with
  | |- context [CpusNodeParser_loop ?a ?b ?c ?d ?e ?f ?s] =>
      pose proof (CpusNodeParser_loop_heap a b c d e f s) as [Hh _];
      destruct (CpusNodeParser_loop a b c d e f s) as [[s2 Buffer] st2]
  end.
  cbn [snd with_IntcHeap IntcHeap] in Hh.
  assert (HnL : filter (fun x => negb (Nat.eqb n x)) L = L).
  { apply (filter_fresh _ _ n); [exact Hwf | lia]. }
  assert (Hn : Nat.eqb n (S n) = false) by (apply Nat.eqb_neq; lia).
  destruct (EFI_ERROR s2) eqn:E2.
  - unfold FreePool, is_live. rewrite Hh.
    cbn [pool_live pool_next pool_grant existsb filter]. rewrite Nat.eqb_refl.
    cbn [orb negb obind]. rewrite HnL.
    do 3 eexists. split; [reflexivity |]. split; [reflexivity |].
    split; [reflexivity | intros _; exact E2].
  - unfold CreateCmObjDesc, AllocateZeroPool. rewrite Hh.
    cbn [pool_live pool_next pool_grant].
    destruct (g (S n)).
    + unfold FreePool, is_live.
      cbn [with_IntcHeap IntcHeap pool_live pool_next pool_grant existsb filter].
      rewrite Hn, Nat.eqb_refl. cbn [orb negb obind]. rewrite HnL.
      do 3 eexists. split; [reflexivity |]. split; [reflexivity |].
      split; discriminate.
    + unfold FreePool, is_live.
      cbn [with_IntcHeap IntcHeap pool_live pool_next pool_grant existsb filter].
      rewrite Nat.eqb_refl. cbn [orb negb obind]. rewrite HnL.
      do 3 eexists. split; [reflexivity |]. split; [reflexivity |].
      split; reflexivity.
Qed.

End HartBufferLemmas.

Lemma X7_witness :
  exists Status Desc st',
    CpusNodeParser (K := RiscVDecls) (handle_of tree_hart_without_intc) 1 intc_boot
    = Done (Status, Desc, st')
    /\ pool_live (IntcHeap st')
       = match Desc with
         | Some (d, _) => d :: pool_live (IntcHeap intc_boot)
         | None => pool_live (IntcHeap intc_boot)
         end
    /\ (EFI_ERROR Status = true <-> Desc = None).
Proof.
  apply (X7_cpus_parser_releases_buffer (K := RiscVDecls)). reflexivity.
Defined.

(* ================================================================== *)
(** * The parser as a whole: what is published, and when               *)
(* ================================================================== *)

Lemma AddMultipleCmObj_accepted (h : FDT_HW_INFO_PARSER_HANDLE)
  (l : list CM_RISCV_RINTC_INFO) :
  (forall r, HwInfoAdd h (CmRintcInfo r) = EFI_SUCCESS) ->
  forall st, fst (AddMultipleCmObj h l st) = EFI_SUCCESS.
Proof.
  intros Hadd. induction l as [| r l IH]; intros st; cbn [AddMultipleCmObj];
    [reflexivity |].
  unfold AddSingleCmObj. rewrite Hadd. cbn [EFI_ERROR]. apply IH.
Qed.

Section PublicationLemmas.
Context `{K : IntcDecls}.

Lemma CpusNodeParser_CmObjs (h : FDT_HW_INFO_PARSER_HANDLE) (CpusNode : Z)
  (st st' : IntcState) (Status : EFI_STATUS)
  (Desc : option (nat * list CM_RISCV_RINTC_INFO)) :
  CpusNodeParser h CpusNode st = Done (Status, Desc, st') ->
  CmObjs st' = CmObjs st.
Proof.
  unfold CpusNodeParser. intros Hrun.
  destruct (_ <? 0); [inv Hrun; reflexivity |].
  destruct (FdtCountNamedNodeInBranch _ _ _) as [s1 cnt].
  destruct (EFI_ERROR s1); [inv Hrun; reflexivity |].
  destruct (cnt =? 0); [inv Hrun; reflexivity |].
  destruct (AllocateZeroPool (IntcHeap st)) as [[b |] heap]; [| inv Hrun; reflexivity].
  match type of Hrun with
  | context [CpusNodeParser_loop ?a ?b ?c ?d ?e ?f ?s] =>
      pose proof (CpusNodeParser_loop_heap a b c d e f s) as [_ Hc];
      destruct (CpusNodeParser_loop a b c d e f s) as [[s2 Buffer] st2]
  end.
  cbn [snd with_IntcHeap CmObjs] in Hc.
  destruct (EFI_ERROR s2).
  - bind_inv Hrun. inv Hrun. exact Hc.
  - unfold CreateCmObjDesc in Hrun.
    destruct (AllocateZeroPool (IntcHeap st2)) as [[d |] heap2];
      bind_inv Hrun; inv Hrun; exact Hc.
Qed.

(** X8.  The hart records are handed over in the last step only: when
    RiscVIntcInfoParser returns an error and the callback accepts hart
    records, no hart record has been published, whichever of the hart,
    IMSIC or PLIC/APLIC steps failed. *)
Theorem X8_no_hart_record_on_failure (h : FDT_HW_INFO_PARSER_HANDLE) (Branch : Z)
  (st st' : IntcState) (Status : EFI_STATUS) :
  (forall r, HwInfoAdd h (CmRintcInfo r) = EFI_SUCCESS) ->
  RiscVIntcInfoParser h Branch st = Done (Status, st') ->
  EFI_ERROR Status = true ->
  published_harts (CmObjs st') = published_harts (CmObjs st).
Proof.
  unfold RiscVIntcInfoParser. intros Hadd Hrun Hs.
  bind_inv_as Hrun r1 E1. destruct r1 as [[s1 Desc] st1].
  apply CpusNodeParser_CmObjs in E1.
  destruct (EFI_ERROR s1); [inv Hrun; rewrite E1; reflexivity |].
  destruct Desc as [[d Buffer] |]; [| discriminate Hrun].
  unfold ImsicRintcInfoParser, PlicAplicInfoParser in Hrun.
  destruct (ImsicScan_keeps h (length (Fdt h)) 0 Buffer st1) as [_ [_ Hi]].
  destruct (ImsicScan (length (Fdt h)) h 0 Buffer st1) as [[s2 R2] st2].
  cbn [snd] in Hi.
  destruct (negb (tolerated s2)).
  { bind_inv Hrun. inv Hrun. cbn [with_IntcHeap CmObjs]. congruence. }
  destruct (PlicAplicScan_keeps h (length (Fdt h)) 0 0 0 R2 st2) as [_ [_ Hp]].
  destruct (PlicAplicScan (length (Fdt h)) h 0 0 0 R2 st2) as [[s3 R3] st3].
  cbn [snd] in Hp.
  destruct (negb (tolerated s3)).
  { bind_inv Hrun. inv Hrun. cbn [with_IntcHeap CmObjs]. congruence. }
  pose proof (AddMultipleCmObj_accepted h R3 Hadd st3) as Ha.
  destruct (AddMultipleCmObj h R3 st3) as [s4 st4]. cbn [fst] in Ha.
  bind_inv Hrun. inv Hrun. discriminate Hs.
Qed.

End PublicationLemmas.

Lemma X8_witness :
  exists st',
    RiscVIntcInfoParser (K := RiscVDecls) (handle_of tree_plic_without_sources)
      1 intc_boot
    = Done (EFI_INVALID_PARAMETER, st')
    /\ published_harts (CmObjs st') = [].
Proof.
  eexists.
  match goal with
  | |- ?A = ?B /\ _ => assert (H : A = B) by (vm_compute; reflexivity)
  end.
  split; [exact H |].
  apply (X8_no_hart_record_on_failure (K := RiscVDecls)
           (handle_of tree_plic_without_sources) 1 intc_boot _ _
           (fun _ => eq_refl) H eq_refl).
Defined.

Lemma map_const_Forall {A B : Type} (g : A -> B) (c : B) (l l' : list A) :
  map g l' = map g l ->
  Forall (fun r => g r = c) l -> Forall (fun r => g r = c) l'.
Proof.
  revert l'. induction l as [| x l IH]; intros l' Hm Hl.
  - destruct l'; [constructor | discriminate].
  - destruct l' as [| y l']; [discriminate |].
    cbn [map] in Hm. injection Hm as Hy Hm.
    inversion Hl as [| ? ? Hx Hl']. subst.
    constructor; [congruence | apply IH; assumption].
Qed.

Section HartCountLemmas.
Context `{K : IntcDecls}.

Lemma CpuNodeParser_record (h : FDT_HW_INFO_PARSER_HANDLE) (CpuNode AddressCells : Z)
  (st st' : IntcState) (Status : EFI_STATUS) (r : option CM_RISCV_RINTC_INFO) :
  CpuNodeParser h CpuNode AddressCells st = (Status, r, st') ->
  EFI_ERROR Status = false ->
  exists x, r = Some x
            /\ (Rintc_Version x, Rintc_Flags x) = (1, EFI_ACPI_6_6_RINTC_FLAG_ENABLE).
Proof.
  unfold CpuNodeParser. intros Hrun Hs.
  destruct (FdtGetProp _ _ _) as [Data |]; [| inv Hrun; discriminate].
  destruct (negb _ && negb _); [inv Hrun; discriminate |].
  destruct (FdtGetNextNamedNodeInBranch _ _ _ _) as [s1 n1].
  inv Hrun. eexists. split; reflexivity.
Qed.

Lemma CpusNodeParser_loop_records (h : FDT_HW_INFO_PARSER_HANDLE)
  (CpusNode AddressCells : Z) (n : nat) :
  forall CpuNode Buffer st Status Buffer' st',
    CpusNodeParser_loop h CpusNode AddressCells n CpuNode Buffer st
    = (Status, Buffer', st') ->
    EFI_ERROR Status = false ->
    exists new,
      Buffer' = Buffer ++ new
      /\ length new = n
      /\ Forall (fun r => (Rintc_Version r, Rintc_Flags r)
                          = (1, EFI_ACPI_6_6_RINTC_FLAG_ENABLE)) new.
Proof.
  induction n as [| n IH]; intros CpuNode Buffer st Status Buffer' st' Hrun Hs;
    cbn [CpusNodeParser_loop] in Hrun.
  - inv Hrun. exists []. rewrite app_nil_r. repeat split. constructor.
  - destruct (FdtGetNextNamedNodeInBranch _ _ _ _) as [s1 n1].
    destruct (EFI_ERROR s1) eqn:E1.
    { apply pair_equal_spec in Hrun. destruct Hrun as [Hrun _].
      apply pair_equal_spec in Hrun. destruct Hrun as [Hrun _].
      subst Status. destruct s1; cbn in E1, Hs; discriminate. }
    destruct (negb _); [inv Hrun; discriminate |].
    destruct (CpuNodeParser h n1 AddressCells st) as [[s2 r] st2] eqn:E2.
    destruct (EFI_ERROR s2) eqn:E3; [inv Hrun; congruence |].
    destruct (CpuNodeParser_record _ _ _ _ _ _ _ E2 E3) as (x & Hr & Hx).
    subst r.
    apply IH in Hrun; [| exact Hs].
    destruct Hrun as (new & HB & HL & HF).
    exists (x :: new). rewrite HB, <- app_assoc. split; [reflexivity |].
    split; [cbn [length]; rewrite HL; reflexivity |].
    constructor; assumption.
Qed.

Lemma CpusNodeParser_records (h : FDT_HW_INFO_PARSER_HANDLE) (CpusNode : Z)
  (st st' : IntcState) (Status : EFI_STATUS)
  (Desc : option (nat * list CM_RISCV_RINTC_INFO)) :
  CpusNodeParser h CpusNode st = Done (Status, Desc, st') ->
  EFI_ERROR Status = false ->
  exists d Buffer,
    Desc = Some (d, Buffer)
    /\ Z.of_nat (length Buffer)
       = snd (FdtCountNamedNodeInBranch (Fdt h) CpusNode "cpu")
    /\ (0 < length Buffer)%nat
    /\ Forall (fun r => (Rintc_Version r, Rintc_Flags r)
                        = (1, EFI_ACPI_6_6_RINTC_FLAG_ENABLE)) Buffer.
Proof.
  unfold CpusNodeParser. intros Hrun Hs.
  destruct (_ <? 0); [inv Hrun; discriminate |].
  assert (Hcnt : 0 <= snd (FdtCountNamedNodeInBranch (Fdt h) CpusNode "cpu"))
    by (unfold FdtCountNamedNodeInBranch; cbn [snd]; apply Count_nonneg).
  destruct (FdtCountNamedNodeInBranch _ _ _) as [s1 cnt]. cbn [snd] in Hcnt |- *.
  destruct (EFI_ERROR s1) eqn:E1; [inv Hrun; congruence |].
  destruct (cnt =? 0) eqn:E0; [inv Hrun; discriminate |].
  apply Z.eqb_neq in E0.
  destruct (AllocateZeroPool (IntcHeap st)) as [[b |] heap]; [| inv Hrun; discriminate].
  destruct (CpusNodeParser_loop _ _ _ _ _ _ _) as [[s2 Buffer] st2] eqn:E2.
  destruct (EFI_ERROR s2) eqn:E3.
  { bind_inv Hrun. inv Hrun. congruence. }
  apply CpusNodeParser_loop_records in E2; [| exact E3].
  destruct E2 as (new & HB & HL & HF). cbn [app] in HB. subst Buffer.
  unfold CreateCmObjDesc in Hrun.
  destruct (AllocateZeroPool (IntcHeap st2)) as [[d |] heap2].
  - bind_inv Hrun. inv Hrun. exists d, new.
    split; [reflexivity |]. rewrite HL.
    split; [lia |]. split; [lia | exact HF].
  - bind_inv Hrun. inv Hrun. discriminate.
Qed.

(** X9.  A successful run of the dispatcher publishes exactly one hart
    record for each "cpu" node counted under /cpus, and at least one;
    every one of them has Version 1 and the enabled flag. *)
Theorem X9_one_hart_record_per_cpu_node (h : FDT_HW_INFO_PARSER_HANDLE)
  (st st' : IntcState) :
  RiscVIntcDispatcher h st = Done (EFI_SUCCESS, st') ->
  exists R,
    published_harts (CmObjs st') = published_harts (CmObjs st) ++ R
    /\ Z.of_nat (length R)
       = snd (FdtCountNamedNodeInBranch (Fdt h)
                (FdtPathOffset_root_child (Fdt h) "cpus") "cpu")
    /\ (0 < length R)%nat
    /\ Forall (fun r => (Rintc_Version r, Rintc_Flags r)
                        = (1, EFI_ACPI_6_6_RINTC_FLAG_ENABLE)) R.
Proof.
  unfold RiscVIntcDispatcher. intros Hrun.
  destruct (_ <? 0); [inv Hrun |].
  bind_inv_as Hrun r0 E0. destruct r0 as [s0 st0].
  destruct (EFI_ERROR s0) eqn:Es0; [inv Hrun; discriminate |].
  inv Hrun. unfold RiscVIntcInfoParser in E0.
  bind_inv_as E0 r1 E1. destruct r1 as [[s1 Desc] st1].
  destruct (EFI_ERROR s1) eqn:Es1; [inv E0; congruence |].
  pose proof (CpusNodeParser_CmObjs _ _ _ _ _ _ E1) as HC.
  destruct (CpusNodeParser_records _ _ _ _ _ _ E1 Es1) as (d & Buffer & HD & HN & HP & HF).
  subst Desc.
  unfold ImsicRintcInfoParser, PlicAplicInfoParser in E0.
  set (g := fun r : CM_RISCV_RINTC_INFO => (Rintc_Version r, Rintc_Flags r)) in *.
  pose proof (ImsicScan_map g (fun _ _ _ => eq_refl) h (length (Fdt h)) 0 Buffer st1)
    as Hm2.
  destruct (ImsicScan_keeps h (length (Fdt h)) 0 Buffer st1) as [_ [_ Hi]].
  destruct (ImsicScan (length (Fdt h)) h 0 Buffer st1) as [[s2 R2] st2].
  cbn [fst snd] in Hm2, Hi.
  destruct (negb (tolerated s2)) eqn:Et2.
  { bind_inv E0. inv E0. unfold tolerated in Et2. rewrite Es0 in Et2. discriminate. }
  pose proof (PlicAplicScan_map g (fun _ _ => eq_refl) h (length (Fdt h)) 0 0 0 R2 st2)
    as Hm3.
  destruct (PlicAplicScan_keeps h (length (Fdt h)) 0 0 0 R2 st2) as [_ [_ Hp]].
  destruct (PlicAplicScan (length (Fdt h)) h 0 0 0 R2 st2) as [[s3 R3] st3].
  cbn [fst snd] in Hm3, Hp.
  destruct (negb (tolerated s3)) eqn:Et3.
  { bind_inv E0. inv E0. unfold tolerated in Et3. rewrite Es0 in Et3. discriminate. }
  destruct (AddMultipleCmObj h R3 st3) as [s4 st4] eqn:E4.
  bind_inv E0. inv E0.
  destruct (AddMultipleCmObj_published _ _ _ _ _ E4 Es0) as (_ & Ha & _).
  assert (Hmap : map g R3 = map g Buffer) by congruence.
  assert (Hlen : length R3 = length Buffer).
  { rewrite <- (length_map g R3), Hmap. apply length_map. }
  exists R3. cbn [with_IntcHeap CmObjs].
  rewrite Ha, published_harts_app, published_harts_records, Hp, Hi, HC, Hlen.
  split; [reflexivity |]. split; [exact HN |]. split; [exact HP |].
  eapply map_const_Forall; eassumption.
Qed.

End HartCountLemmas.

Lemma X9_witness :
  exists st' R,
    RiscVIntcDispatcher (K := RiscVDecls) (handle_of tree_two_aplic) intc_boot
    = Done (EFI_SUCCESS, st')
    /\ published_harts (CmObjs st') = R
    /\ length R = 2%nat.
Proof.
  eexists.
  match goal with
  | |- exists R, ?A = ?B /\ _ =>
      assert (H : A = B) by (vm_compute; reflexivity)
  end.
  destruct (X9_one_hart_record_per_cpu_node (K := RiscVDecls) _ _ _ H)
    as (R & H1 & H2 & _).
  exists R. split; [exact H |]. split; [exact H1 |].
  match type of H2 with
  | _ = ?c => assert (Hc : c = 2) by (vm_compute; reflexivity); rewrite Hc in H2
  end.
  lia.
Defined.

(* ================================================================== *)
(** * ACPI_BUILD_EXT_INTC_ID                                           *)
(* ================================================================== *)

Lemma land_shiftl_low (a c : Z) (n : Z) :
  0 <= n -> 0 <= c < 2 ^ n -> Z.land (Z.shiftl a n) c = 0.
Proof.
  intros Hn Hc.
  rewrite <- (Z.mod_small c (2 ^ n)) by exact Hc.
  rewrite <- Z.land_ones by exact Hn.
  apply Z.bits_inj'. intros i Hi.
  rewrite !Z.land_spec, Z.bits_0.
  destruct (Z_lt_le_dec i n) as [Hlt | Hge].
  - rewrite Z.shiftl_spec_low by exact Hlt. reflexivity.
  - rewrite Z.ones_spec_high by lia. rewrite !andb_false_r. reflexivity.
Qed.

(** X10.  ACPI_BUILD_EXT_INTC_ID packs without loss as long as the
    controller id fits in the 8 bits left above the shift: for a
    controller id from 0 to 255 and a context or IDC id below 2^24 the
    32-bit value is Id * 2^24 + Ctx, its bits from 24 up give the
    controller id back and its low 24 bits the context id, so that
    different pairs get different identifiers. *)
Theorem X10_ext_intc_id_round_trip (PlicAplicId CtxIdcId : Z) :
  0 <= PlicAplicId < 2 ^ 8 ->
  0 <= CtxIdcId < 2 ^ 24 ->
  ACPI_BUILD_EXT_INTC_ID PlicAplicId CtxIdcId = PlicAplicId * 2 ^ 24 + CtxIdcId
  /\ Z.shiftr (ACPI_BUILD_EXT_INTC_ID PlicAplicId CtxIdcId) 24 = PlicAplicId
  /\ Z.land (ACPI_BUILD_EXT_INTC_ID PlicAplicId CtxIdcId) (2 ^ 24 - 1) = CtxIdcId.
Proof.
  intros Hid Hctx.
  assert (Hv : ACPI_BUILD_EXT_INTC_ID PlicAplicId CtxIdcId
               = PlicAplicId * 2 ^ 24 + CtxIdcId).
  { unfold ACPI_BUILD_EXT_INTC_ID.
    rewrite <- Z.lxor_lor by (apply land_shiftl_low; lia).
    rewrite <- Z.add_nocarry_lxor by (apply land_shiftl_low; lia).
    rewrite Z.shiftl_mul_pow2 by lia. apply u32_small. lia. }
  rewrite Hv. split; [reflexivity |]. split.
  - rewrite Z.shiftr_div_pow2 by lia.
    rewrite Z.div_add_l by lia. rewrite Z.div_small by exact Hctx. lia.
  - change (2 ^ 24 - 1) with (Z.ones 24). rewrite Z.land_ones by lia.
    rewrite Z.add_comm, Z.mod_add by lia. apply Z.mod_small. exact Hctx.
Qed.

Lemma X10_witness :
  ACPI_BUILD_EXT_INTC_ID 2 5 = 2 * 2 ^ 24 + 5
  /\ Z.shiftr (ACPI_BUILD_EXT_INTC_ID 2 5) 24 = 2
  /\ Z.land (ACPI_BUILD_EXT_INTC_ID 2 5) (2 ^ 24 - 1) = 5.
Proof. apply X10_ext_intc_id_round_trip; lia. Defined.

(* ================================================================== *)
(** * BuildRhctTable: what a result tells                              *)
(* ================================================================== *)

Section BuildOutcomeLemmas.
Context `{L : RhctDecls}.

(** X11.  BuildRhctTable succeeds only when the requested revision is
    one the generator supports, the timer, ISA string and hart queries
    succeed, the CMO query succeeds or reports EFI_NOT_FOUND, and there
    is a timer object; it then returns a table and keeps the node
    indexer. *)
Theorem X11_build_success_requires (Info : CM_STD_OBJ_ACPI_TABLE_INFO)
  (Cfg : EDKII_CONFIGURATION_MANAGER_PROTOCOL) (w w' : RhctWorld) :
  BuildRhctTable Info Cfg w = Done (EFI_SUCCESS, w') ->
  revision_supported Info w = true
  /\ objects_present Cfg = true
  /\ snd (GetERiscVObjTimerInfo Cfg) <> []
  /\ Table w' <> None
  /\ NodeIndexer (Generator w') <> None.
Proof.
  intros H. pose proof H as H0. unfold BuildRhctTable in H.
  unfold revision_supported, objects_present.
  destruct (_ || _); [inv H |]. split; [reflexivity |].
  destruct (GetERiscVObjTimerInfo Cfg) as [s1 Timer].
  destruct (EFI_ERROR s1) eqn:E1;
    [exfalso; eapply error_handler_not_success; eauto |].
  destruct (GetERiscVObjIsaStringInfo Cfg) as [s2 Isa].
  destruct (EFI_ERROR s2) eqn:E2;
    [exfalso; eapply error_handler_not_success; eauto |].
  destruct (GetERiscVObjCmoInfo Cfg) as [s3 Cmo].
  destruct (EFI_ERROR s3 && negb (is_not_found s3)) eqn:E3.
  { exfalso. eapply error_handler_not_success; [| eauto].
    apply andb_prop in E3. tauto. }
  destruct (GetERiscVObjRintcInfo Cfg) as [s4 Rintc].
  destruct (EFI_ERROR s4) eqn:E4;
    [exfalso; eapply error_handler_not_success; eauto |].
  cbn [fst snd]. rewrite E1, E2, E3, E4. split; [reflexivity |].
  destruct (AllocateZeroPool (Heap (with_Table w None))) as [[ni |] h0] eqn:Ea;
    [| exfalso; eapply error_handler_not_success; [| eauto]; reflexivity].
  bind_inv_as H r5 Eplan. destruct r5 as [s5 P].
  destruct (EFI_ERROR s5) eqn:E5;
    [exfalso; eapply error_handler_not_success; eauto |].
  match type of H with
  | context [AllocateZeroPool ?hp] =>
      destruct (AllocateZeroPool hp) as [[tb |] h2] eqn:Eb
  end; [| exfalso; eapply error_handler_not_success; [| eauto]; reflexivity].
  destruct (cm_AddAcpiHeader Cfg (plan_TableSize P)) as [s6 hdr] eqn:Eh.
  destruct (EFI_ERROR s6) eqn:E6;
    [exfalso; eapply error_handler_not_success; eauto |].
  bind_inv_as H T0 Epoke.
  bind_inv_as H r7 Efill. destruct r7 as [[s7 T1] h1].
  destruct (EFI_ERROR s7) eqn:E7;
    [exfalso; eapply error_handler_not_success; eauto |].
  inv H. cbn [with_Heap with_Table with_Generator Table Generator set_NodeIndexer
              NodeIndexer].
  split; [| split; discriminate].
  unfold BuildRhctTable_fill in Efill.
  destruct Timer; [discriminate Efill | discriminate].
Qed.

(** X12.  A failed build hands nothing over.  When the requested
    revision is not supported, BuildRhctTable returns
    EFI_INVALID_PARAMETER and touches nothing, not even the table
    pointer; on every other error it returns with the table pointer
    NULL and the node indexer of the generator NULL. *)
Theorem X12_build_failure_leaves_no_table (Info : CM_STD_OBJ_ACPI_TABLE_INFO)
  (Cfg : EDKII_CONFIGURATION_MANAGER_PROTOCOL) (w w' : RhctWorld)
  (Status : EFI_STATUS) :
  BuildRhctTable Info Cfg w = Done (Status, w') ->
  EFI_ERROR Status = true ->
  (revision_supported Info w = false
   /\ Status = EFI_INVALID_PARAMETER /\ w' = w)
  \/ (revision_supported Info w = true
      /\ Table w' = None /\ NodeIndexer (Generator w') = None).
Proof.
  intros H Hs. unfold BuildRhctTable in H. unfold revision_supported.
  destruct (_ || _); [inv H; left; auto |].
  right. split; [reflexivity |].
  assert (Hexit : forall s x, error_handler s x = Done (Status, w') ->
                    Table w' = None /\ NodeIndexer (Generator w') = None).
  { intros s x Hx. apply error_handler_result in Hx. tauto. }
  destruct (GetERiscVObjTimerInfo Cfg) as [s1 Timer].
  destruct (EFI_ERROR s1); [eapply Hexit; exact H |].
  destruct (GetERiscVObjIsaStringInfo Cfg) as [s2 Isa].
  destruct (EFI_ERROR s2); [eapply Hexit; exact H |].
  destruct (GetERiscVObjCmoInfo Cfg) as [s3 Cmo].
  destruct (EFI_ERROR s3 && negb (is_not_found s3)); [eapply Hexit; exact H |].
  destruct (GetERiscVObjRintcInfo Cfg) as [s4 Rintc].
  destruct (EFI_ERROR s4); [eapply Hexit; exact H |].
  destruct (AllocateZeroPool (Heap (with_Table w None))) as [[ni |] h0];
    [| eapply Hexit; exact H].
  bind_inv H. destruct a as [s5 P].
  destruct (EFI_ERROR s5); [eapply Hexit; exact H |].
  match type of H with
  | context [AllocateZeroPool ?hp] =>
      destruct (AllocateZeroPool hp) as [[tb |] h2]
  end; [| eapply Hexit; exact H].
  destruct (cm_AddAcpiHeader Cfg (plan_TableSize P)) as [s6 hdr].
  destruct (EFI_ERROR s6); [eapply Hexit; exact H |].
  bind_inv H. rename a into T0.
  bind_inv H. destruct a as [[s7 T1] h1].
  destruct (EFI_ERROR s7); [eapply Hexit; exact H |].
  inv H. discriminate Hs.
Qed.

End BuildOutcomeLemmas.

(* ================================================================== *)
(** * BuildRhctTable: the stages of a successful build                 *)
(* ================================================================== *)

Section StageLemmas.
Context `{L : RhctDecls}.
Hypothesis Hok : layout_ok = true.

(** A successful build in closed form: the header, the four members of
    the fixed part, and then the three writers, each at the offset the
    planner computed. *)
Lemma BuildRhctTable_stages (Info : CM_STD_OBJ_ACPI_TABLE_INFO)
  (Cfg : EDKII_CONFIGURATION_MANAGER_PROTOCOL) (w w' : RhctWorld)
  (tb : nat) (T : list byte) :
  table_fits Cfg = true ->
  BuildRhctTable Info Cfg w = Done (EFI_SUCCESS, w') ->
  Table w' = Some (tb, T) ->
  exists hdr T0 Timer rest c1 c2 c3 c4 bi bc,
    cm_AddAcpiHeader Cfg (TableSizeOf Cfg) = (EFI_SUCCESS, hdr)
    /\ poke (repeat x00 (Z.to_nat (TableSizeOf Cfg))) 0 hdr = Done T0
    /\ snd (GetERiscVObjTimerInfo Cfg) = Timer :: rest
    /\ store_field T0 0 Rhct_NodeCount (NodeCountOf Cfg) = Done c1
    /\ store_field c1 0 Rhct_NodeOffset sizeof_RHCT_TABLE = Done c2
    /\ store_field c2 0 Rhct_TimeBaseFreq (TimeBaseFrequency Timer) = Done c3
    /\ store_field c3 0 Rhct_Flags
         (if TimerCannotWakeCpu Timer
          then EFI_ACPI_6_6_RHCT_FLAG_TIMER_CANNOT_WAKEUP_CPU else 0) = Done c4
    /\ (if 0 <? Count (IsaListOf Cfg)
        then exists s more,
               IsaListOf Cfg = mkIsa (Some s) :: more
               /\ AddIsaStringNode c4 IsaStringOffsetOf s = Done (EFI_SUCCESS, bi)
        else bi = c4)
    /\ (if 0 <? Count (CmoListOf Cfg)
        then AddCmoNodes bi (CmoOffsetOf Cfg) (CmoListOf Cfg) = Done (EFI_SUCCESS, bc)
        else bc = bi)
    /\ (if 0 <? Count (HartListOf Cfg)
        then exists Offs,
               AddHartInfoNodes bc (HartInfoOffsetOf Cfg) (NumOffsetsOf Cfg) Offs
                 (HartListOf Cfg) = Done (EFI_SUCCESS, T)
        else T = bc).
Proof.
  intros Hfit Hbuild HT.
  apply BuildRhctTable_success_inv in Hbuild.
  destruct Hbuild as (P & hdr & T0 & T1 & tb' & h & h1 & Hplan & Hhdr & Hpk0 & Hfill & HT' & _).
  assert (HTT : T1 = T) by congruence. subst T1. clear HT'.
  destruct (BuildRhctTable_plan_closed Hok _ _ _ Hfit Hplan)
    as (HTS & HPI & HPC & HPH).
  pose proof (NumOffsets_closed _ Hfit) as HNO.
  rewrite HTS in Hhdr, Hpk0.
  unfold BuildRhctTable_fill in Hfill. rewrite HNO in Hfill.
  destruct (snd (GetERiscVObjTimerInfo Cfg)) as [| Timer rest];
    [discriminate Hfill |].
  cbn [obind] in Hfill.
  bind_inv_as Hfill c1 Ec1. bind_inv_as Hfill c2 Ec2.
  bind_inv_as Hfill c3 Ec3. bind_inv_as Hfill c4 Ec4.
  bind_inv_as Hfill ri Eisa. destruct ri as [si bi].
  destruct (EFI_ERROR si) eqn:Esi; [inv Hfill; cbn [EFI_ERROR] in *; discriminate |].
  apply EFI_ERROR_false in Esi. subst si.
  bind_inv_as Hfill rc Ecmo. destruct rc as [sc bc].
  destruct (EFI_ERROR sc) eqn:Esc; [inv Hfill; cbn [EFI_ERROR] in *; discriminate |].
  apply EFI_ERROR_false in Esc. subst sc.
  bind_inv_as Hfill ro Eoff. destruct ro as [Offs h2].
  exists hdr, T0, Timer, rest, c1, c2, c3, c4, bi, bc.
  split; [exact Hhdr |]. split; [exact Hpk0 |]. split; [reflexivity |].
  split; [exact Ec1 |]. split; [exact Ec2 |]. split; [exact Ec3 |].
  split; [exact Ec4 |].
  split.
  { destruct (0 <? Count (IsaListOf Cfg)) eqn:EI.
    - apply Z.ltb_lt in EI. destruct (HPI EI) as (HPI1 & _ & s0 & rest0 & HPI3).
      rewrite HPI3 in Eisa. cbn [IsaString] in Eisa. rewrite HPI1 in Eisa.
      exists s0, rest0. split; [exact HPI3 | exact Eisa].
    - inv Eisa. reflexivity. }
  split.
  { destruct (0 <? Count (CmoListOf Cfg)) eqn:EC.
    - apply Z.ltb_lt in EC. rewrite (HPC EC) in Ecmo. exact Ecmo.
    - inv Ecmo. reflexivity. }
  destruct (0 <? Count (HartListOf Cfg)) eqn:EH.
  - apply Z.ltb_lt in EH. rewrite (HPH EH) in Hfill.
    bind_inv_as Hfill rh Eh. destruct rh as [sh bh]. inv Hfill.
    exists Offs. exact Eh.
  - inv Hfill. reflexivity.
Qed.

End StageLemmas.

Section FrameLemmas.
Context `{L : RhctDecls}.
Hypothesis Hok : layout_ok = true.

(** AddIsaStringNode: what lies before the node is kept, and the
    members of the node other than its length. *)
Lemma AddIsaStringNode_header (b b' : list byte) (base : Z) (s : list byte) :
  0 <= base ->
  sizeof_RHCT_ISA_STRING_NODE + ALIGN_VALUE (AsciiStrSize s) 2 < 2 ^ 32 ->
  AddIsaStringNode b base s = Done (EFI_SUCCESS, b') ->
  (forall o m, 0 <= o -> o + Z.of_nat m <= base -> peek b' o m = peek b o m)
  /\ load_field b' base Node_Type
     = EFI_ACPI_6_6_RHCT_NODE_TYPE_ISA_STRING mod 2 ^ (Z.of_nat (f_size Node_Type) * 8)
  /\ load_field b' base Node_Revision
     = EFI_ACPI_6_6_RHCT_ISA_NODE_STRUCTURE_VERSION
       mod 2 ^ (Z.of_nat (f_size Node_Revision) * 8)
  /\ load b' (base + sizeof_RHCT_NODE_HEADER) 2 = AsciiStrLen s + 2.
Proof.
  pose proof Hok as Hl. layout_facts Hl.
  intros Hb Hnw Hrun. unfold AddIsaStringNode, GetIsaStringNodeSize in Hrun.
  pose proof (AsciiStrLen_nonneg s) as Hs0.
  assert (Hal : AsciiStrSize s <= ALIGN_VALUE (AsciiStrSize s) 2).
  { rewrite ALIGN_VALUE_2.
    pose proof (Z.mod_pos_bound (AsciiStrSize s) 2 ltac:(lia)). lia. }
  unfold AsciiStrSize in *.
  rewrite u32_small in Hrun by lia.
  destruct (MAX_UINT16 <? _) eqn:Em in Hrun; [inv Hrun |].
  apply Z.ltb_ge in Em. unfold MAX_UINT16 in Em.
  cbv beta iota zeta delta [EFI_ERROR] in Hrun.
  bind_inv_as Hrun b1 Et. bind_inv_as Hrun b2 El. bind_inv_as Hrun b3 Er.
  bind_inv_as Hrun b4 Ei. bind_inv_as Hrun b5 Es. inv Hrun.
  unfold AsciiStrCpyS in Es.
  rewrite (u16_small (AsciiStrLen s + 1 + 1)) in Es by lia.
  rewrite (u16_small (AsciiStrLen s + 1 + 1)) in Ei by lia.
  destruct (AsciiStrLen s <? _) eqn:Elt in Es; [| apply Z.ltb_ge in Elt; lia].
  split.
  { intros o m Ho Hom.
    rewrite (peek_poke_other _ _ _ _ o m Es) by lia.
    rewrite (peek_store_other _ _ _ _ _ o m Ei) by lia.
    rewrite (store_field_frame _ _ _ _ _ o m Er) by lia.
    rewrite (store_field_frame _ _ _ _ _ o m El) by lia.
    rewrite (store_field_frame _ _ _ _ _ o m Et) by lia.
    reflexivity. }
  split.
  { rewrite (load_field_peek b4).
    2:{ apply (peek_poke_other _ _ _ _ _ _ Es); lia. }
    rewrite (load_field_peek b3).
    2:{ apply (peek_store_other _ _ _ _ _ _ _ Ei); lia. }
    rewrite (load_field_peek b2).
    2:{ apply (store_field_frame _ _ _ _ _ _ _ Er); lia. }
    rewrite (load_field_peek b1).
    2:{ apply (store_field_frame _ _ _ _ _ _ _ El); lia. }
    apply (load_field_same _ _ _ _ _ Et). }
  split.
  { rewrite (load_field_peek b4).
    2:{ apply (peek_poke_other _ _ _ _ _ _ Es); lia. }
    rewrite (load_field_peek b3).
    2:{ apply (peek_store_other _ _ _ _ _ _ _ Ei); lia. }
    apply (load_field_same _ _ _ _ _ Er). }
  unfold load.
  rewrite (peek_poke_other _ _ _ _ _ _ Es) by lia.
  fold (load b4 (base + sizeof_RHCT_NODE_HEADER) 2).
  rewrite (load_store_same _ _ _ _ _ Ei).
  change (Z.of_nat 2 * 8) with 16. rewrite Z.mod_small by lia. lia.
Qed.

(** The stages of a successful build, with what each writer keeps of
    the bytes before its group. *)
Lemma BuildRhctTable_frames (Info : CM_STD_OBJ_ACPI_TABLE_INFO)
  (Cfg : EDKII_CONFIGURATION_MANAGER_PROTOCOL) (w w' : RhctWorld)
  (tb : nat) (T : list byte) :
  table_fits Cfg = true ->
  BuildRhctTable Info Cfg w = Done (EFI_SUCCESS, w') ->
  Table w' = Some (tb, T) ->
  exists Timer rest c1 c2 c3 c4 bi bc,
    snd (GetERiscVObjTimerInfo Cfg) = Timer :: rest
    /\ Z.of_nat (length c1) = TableSizeOf Cfg
    /\ store_field c1 0 Rhct_NodeOffset sizeof_RHCT_TABLE = Done c2
    /\ load_field c1 0 Rhct_NodeCount
       = NodeCountOf Cfg mod 2 ^ (Z.of_nat (f_size Rhct_NodeCount) * 8)
    /\ store_field c2 0 Rhct_TimeBaseFreq (TimeBaseFrequency Timer) = Done c3
    /\ store_field c3 0 Rhct_Flags
         (if TimerCannotWakeCpu Timer
          then EFI_ACPI_6_6_RHCT_FLAG_TIMER_CANNOT_WAKEUP_CPU else 0) = Done c4
    /\ (if 0 <? Count (IsaListOf Cfg)
        then exists s more,
               IsaListOf Cfg = mkIsa (Some s) :: more
               /\ AddIsaStringNode c4 IsaStringOffsetOf s = Done (EFI_SUCCESS, bi)
        else bi = c4)
    /\ (if 0 <? Count (CmoListOf Cfg)
        then AddCmoNodes bi (CmoOffsetOf Cfg) (CmoListOf Cfg) = Done (EFI_SUCCESS, bc)
        else bc = bi)
    /\ length T = length c1
    /\ (forall o m, 0 <= o -> o + Z.of_nat m <= sizeof_RHCT_TABLE ->
          peek bi o m = peek c4 o m)
    /\ (forall o m, 0 <= o -> o + Z.of_nat m <= CmoOffsetOf Cfg ->
          peek bc o m = peek bi o m)
    /\ (forall o m, 0 <= o -> o + Z.of_nat m <= HartInfoOffsetOf Cfg ->
          peek T o m = peek bc o m)
    /\ length bc = length c1
    /\ (if 0 <? Count (HartListOf Cfg)
        then exists Offs,
               AddHartInfoNodes bc (HartInfoOffsetOf Cfg) (NumOffsetsOf Cfg) Offs
                 (HartListOf Cfg) = Done (EFI_SUCCESS, T)
        else T = bc).
Proof.
  pose proof Hok as Hl. layout_facts Hl.
  intros Hfit Hbuild HT.
  destruct (BuildRhctTable_stages Hok _ _ _ _ _ _ Hfit Hbuild HT)
    as (hdr & T0 & Timer & rest & c1 & c2 & c3 & c4 & bi & bc
        & Hhdr & Hpk0 & Htm & Ec1 & Ec2 & Ec3 & Ec4 & HI & HC & HH).
  pose proof (IsaNodeSize_nonneg Hok (IsaListOf Cfg)) as HsI.
  pose proof (Count_nonneg (IsaListOf Cfg)) as HcI.
  pose proof (Count_nonneg (CmoListOf Cfg)) as HcC.
  pose proof (Count_nonneg (HartListOf Cfg)) as HcH.
  pose proof Hfit as Hfit'. unfold table_fits in Hfit'.
  apply andb_prop in Hfit'. destruct Hfit' as [Hcnt Hsize].
  apply Z.ltb_lt in Hcnt. apply Z.ltb_lt in Hsize.
  assert (Hmul1 : 0 <= Count (CmoListOf Cfg) * sizeof_RHCT_CMO_NODE) by nia.
  assert (Hmul2 : 0 <= Count (HartListOf Cfg) * HartNodeSizeOf Cfg).
  { unfold HartNodeSizeOf, NumOffsetsOf. nia. }
  assert (Hts : 0 <= TableSizeOf Cfg).
  { unfold TableSizeOf, HartInfoOffsetOf, CmoOffsetOf. lia. }
  assert (HlenT0 : Z.of_nat (length T0) = TableSizeOf Cfg).
  { apply poke_length in Hpk0. rewrite Hpk0, repeat_length. lia. }
  assert (Hlen1 : length c1 = length T0) by (apply store_field_length in Ec1; exact Ec1).
  assert (Hlen4 : length c4 = length c1).
  { apply store_field_length in Ec2, Ec3, Ec4. congruence. }
  unfold TableSizeOf, HartInfoOffsetOf, CmoOffsetOf in Hsize.
  assert (HIf : length bi = length c4
                /\ forall o m, 0 <= o -> o + Z.of_nat m <= sizeof_RHCT_TABLE ->
                     peek bi o m = peek c4 o m).
  { destruct (0 <? Count (IsaListOf Cfg)) eqn:EI.
    - destruct HI as (s & more & Hs & Eisa).
      rewrite Hs in HsI, Hsize. unfold IsaNodeSize in HsI, Hsize.
      pose proof Eisa as Eisa'.
      apply AddIsaStringNode_written in Eisa;
        [| exact Hok | unfold IsaStringOffsetOf; lia | lia].
      apply AddIsaStringNode_header in Eisa'; [| unfold IsaStringOffsetOf; lia | lia].
      destruct Eisa as (Hlen & _). destruct Eisa' as (Hfr & _).
      split; [exact Hlen | exact Hfr].
    - subst bi. auto. }
  destruct HIf as [Hleni HIf].
  assert (HCf : length bc = length bi
                /\ forall o m, 0 <= o -> o + Z.of_nat m <= CmoOffsetOf Cfg ->
                     peek bc o m = peek bi o m).
  { destruct (0 <? Count (CmoListOf Cfg)) eqn:EC.
    - apply AddCmoNodes_frame in HC; [| exact Hok | unfold CmoOffsetOf; lia].
      exact HC.
    - subst bc. auto. }
  destruct HCf as [Hlenc HCf].
  assert (HHf : length T = length bc
                /\ forall o m, 0 <= o -> o + Z.of_nat m <= HartInfoOffsetOf Cfg ->
                     peek T o m = peek bc o m).
  { pose proof HH as HH'. destruct (0 <? Count (HartListOf Cfg)) eqn:EH.
    - destruct HH' as (Offs & Eh). unfold AddHartInfoNodes in Eh.
      assert (Hn0 : 0 <= NumOffsetsOf Cfg) by (unfold NumOffsetsOf; lia).
      apply AddHartInfoNodes_loop_written in Eh;
        [| exact Hok | unfold HartInfoOffsetOf, CmoOffsetOf; lia | exact Hn0
         | rewrite Hlenc, Hleni, Hlen4, Hlen1, HlenT0;
           unfold TableSizeOf, HartInfoOffsetOf, CmoOffsetOf; lia].
      destruct Eh as (Hlen & Hfr & _). split; [exact Hlen | exact Hfr].
    - subst T. auto. }
  destruct HHf as [HlenT HHf].
  exists Timer, rest, c1, c2, c3, c4, bi, bc.
  split; [exact Htm |]. split; [rewrite Hlen1; exact HlenT0 |].
  split; [exact Ec2 |]. split; [apply (load_field_same _ _ _ _ _ Ec1) |].
  split; [exact Ec3 |]. split; [exact Ec4 |].
  split; [exact HI |]. split; [exact HC |].
  split; [congruence |].
  split; [exact HIf |]. split; [exact HCf |]. split; [exact HHf |].
  split; [congruence | exact HH].
Qed.

End FrameLemmas.

Ltac bool_facts :=
  repeat match goal with
         | X : (_ && _) = true |- _ => apply andb_prop in X; destruct X
         | X : (_ <=? _) = true |- _ => apply Z.leb_le in X
         | X : (_ <? _) = true |- _ => apply Z.ltb_lt in X
         | X : (_ =? _) = true |- _ => apply Z.eqb_eq in X
         | X : Nat.eqb _ _ = true |- _ => apply Nat.eqb_eq in X
         end.

Section FixedPartLemmas.
Context `{L : RhctDecls}.

(** X13.  The fixed part of a table that BuildRhctTable returns: the
    table has exactly the planned size, NodeCount is the number of ISA,
    CMO and hart objects, NodeOffset is the size of the fixed part,
    TimeBaseFreq is the frequency of the first timer object and Flags
    is the timer-cannot-wake flag of that object.  None of the node
    writers touches these members. *)
Theorem X13_rhct_fixed_part (Info : CM_STD_OBJ_ACPI_TABLE_INFO)
  (Cfg : EDKII_CONFIGURATION_MANAGER_PROTOCOL) (w w' : RhctWorld)
  (tb : nat) (T : list byte) :
  layout_ok = true ->
  rhct_fields_ok = true ->
  table_fits Cfg = true ->
  BuildRhctTable Info Cfg w = Done (EFI_SUCCESS, w') ->
  Table w' = Some (tb, T) ->
  exists Timer rest,
    snd (GetERiscVObjTimerInfo Cfg) = Timer :: rest
    /\ Z.of_nat (length T) = TableSizeOf Cfg
    /\ load_field T 0 Rhct_NodeCount
       = Count (IsaListOf Cfg) + Count (CmoListOf Cfg) + Count (HartListOf Cfg)
    /\ load_field T 0 Rhct_NodeOffset = sizeof_RHCT_TABLE
    /\ load_field T 0 Rhct_TimeBaseFreq = TimeBaseFrequency Timer mod 2 ^ 64
    /\ load_field T 0 Rhct_Flags
       = (if TimerCannotWakeCpu Timer
          then EFI_ACPI_6_6_RHCT_FLAG_TIMER_CANNOT_WAKEUP_CPU else 0)
         mod 2 ^ (Z.of_nat (f_size Rhct_Flags) * 8).
Proof.
  intros Hok Hr Hfit Hbuild HT.
  destruct (BuildRhctTable_frames Hok _ _ _ _ _ _ Hfit Hbuild HT)
    as (Timer & rest & c1 & c2 & c3 & c4 & bi & bc
        & Htm & Hlen1 & Ec2 & Hcount & Ec3 & Ec4 & _ & _ & HlenT & HIf & HCf & HHf
        & _ & _).
  pose proof Hok as Hl. layout_facts Hl.
  unfold rhct_fields_ok, fits, before in Hr. bool_facts.
  pose proof (IsaNodeSize_nonneg Hok (IsaListOf Cfg)) as HsI.
  pose proof (Count_nonneg (IsaListOf Cfg)) as HcI.
  pose proof (Count_nonneg (CmoListOf Cfg)) as HcC.
  pose proof (Count_nonneg (HartListOf Cfg)) as HcH.
  assert (Hmul1 : 0 <= Count (CmoListOf Cfg) * sizeof_RHCT_CMO_NODE)
    by (apply Z.mul_nonneg_nonneg; lia).
  unfold table_fits, NumOffsetsOf in Hfit. bool_facts.
  assert (Hfixed : forall f, 0 <= f_off f ->
                     f_off f + Z.of_nat (f_size f) <= sizeof_RHCT_TABLE ->
                     load_field T 0 f = load_field c4 0 f).
  { intros f Hf0 Hf1. apply load_field_peek.
    rewrite HHf by (unfold HartInfoOffsetOf, CmoOffsetOf; lia).
    rewrite HCf by (unfold CmoOffsetOf; lia).
    apply HIf; lia. }
  exists Timer, rest. split; [exact Htm |].
  split; [rewrite HlenT; exact Hlen1 |].
  split.
  { rewrite Hfixed by lia.
    rewrite (load_field_peek c3) by (apply (store_field_frame _ _ _ _ _ _ _ Ec4); lia).
    rewrite (load_field_peek c2) by (apply (store_field_frame _ _ _ _ _ _ _ Ec3); lia).
    rewrite (load_field_peek c1) by (apply (store_field_frame _ _ _ _ _ _ _ Ec2); lia).
    rewrite Hcount.
    replace (f_size Rhct_NodeCount) with 4%nat by congruence.
    change (Z.of_nat 4 * 8) with 32.
    unfold NodeCountOf, u32.
    rewrite (Z.mod_small (Count (IsaListOf Cfg) + Count (CmoListOf Cfg))) by lia.
    rewrite Z.mod_mod by lia. apply Z.mod_small. lia. }
  split.
  { rewrite Hfixed by lia.
    rewrite (load_field_peek c3) by (apply (store_field_frame _ _ _ _ _ _ _ Ec4); lia).
    rewrite (load_field_peek c2) by (apply (store_field_frame _ _ _ _ _ _ _ Ec3); lia).
    rewrite (load_field_same _ _ _ _ _ Ec2).
    replace (f_size Rhct_NodeOffset) with 4%nat by congruence.
    change (Z.of_nat 4 * 8) with 32. apply Z.mod_small. lia. }
  split.
  { rewrite Hfixed by lia.
    rewrite (load_field_peek c3) by (apply (store_field_frame _ _ _ _ _ _ _ Ec4); lia).
    rewrite (load_field_same _ _ _ _ _ Ec3).
    replace (f_size Rhct_TimeBaseFreq) with 8%nat by congruence.
    reflexivity. }
  rewrite Hfixed by lia.
  apply (load_field_same _ _ _ _ _ Ec4).
Qed.

End FixedPartLemmas.

Section IsaNodeLemmas.
Context `{L : RhctDecls}.

(** X14.  The ISA string node of a table that BuildRhctTable returns
    has the ISA node type and the ISA structure version in its header,
    and its 16-bit string-length member holds strlen (S) + 2: the size
    of the string with its terminator, plus one. *)
Theorem X14_isa_node_header (Info : CM_STD_OBJ_ACPI_TABLE_INFO)
  (Cfg : EDKII_CONFIGURATION_MANAGER_PROTOCOL) (w w' : RhctWorld)
  (tb : nat) (T : list byte) (s : list byte) (more : list CM_RISCV_ISA_STRING_NODE) :
  layout_ok = true ->
  table_fits Cfg = true ->
  BuildRhctTable Info Cfg w = Done (EFI_SUCCESS, w') ->
  Table w' = Some (tb, T) ->
  IsaListOf Cfg = mkIsa (Some s) :: more ->
  load_field T IsaStringOffsetOf Node_Type
  = EFI_ACPI_6_6_RHCT_NODE_TYPE_ISA_STRING mod 2 ^ (Z.of_nat (f_size Node_Type) * 8)
  /\ load_field T IsaStringOffsetOf Node_Revision
     = EFI_ACPI_6_6_RHCT_ISA_NODE_STRUCTURE_VERSION
       mod 2 ^ (Z.of_nat (f_size Node_Revision) * 8)
  /\ load T (IsaStringOffsetOf + sizeof_RHCT_NODE_HEADER) 2 = AsciiStrLen s + 2.
Proof.
  intros Hok Hfit Hbuild HT Hs.
  destruct (BuildRhctTable_frames Hok _ _ _ _ _ _ Hfit Hbuild HT)
    as (Timer & rest & c1 & c2 & c3 & c4 & bi & bc
        & _ & _ & _ & _ & _ & _ & HI & _ & _ & _ & HCf & HHf & _ & _).
  pose proof Hok as Hl. layout_facts Hl.
  pose proof (Count_nonneg (CmoListOf Cfg)) as HcC.
  assert (Hmul1 : 0 <= Count (CmoListOf Cfg) * sizeof_RHCT_CMO_NODE)
    by (apply Z.mul_nonneg_nonneg; lia).
  pose proof (AsciiStrLen_nonneg s) as Hs0.
  assert (Hal : AsciiStrSize s <= ALIGN_VALUE (AsciiStrSize s) 2).
  { rewrite ALIGN_VALUE_2.
    pose proof (Z.mod_pos_bound (AsciiStrSize s) 2 ltac:(lia)). lia. }
  pose proof Hfit as Hfit'. unfold table_fits in Hfit'. bool_facts.
  pose proof (Count_nonneg (HartListOf Cfg)) as HcH.
  assert (Hmul2 : 0 <= Count (HartListOf Cfg) * HartNodeSizeOf Cfg).
  { apply Z.mul_nonneg_nonneg; [lia |]. unfold HartNodeSizeOf, NumOffsetsOf.
    pose proof (Count_nonneg (IsaListOf Cfg)). lia. }
  replace (0 <? Count (IsaListOf Cfg)) with true in HI
    by (rewrite Hs, Count_cons; symmetry; apply Z.ltb_lt;
        pose proof (Count_nonneg more); lia).
  destruct HI as (s' & more' & Hs' & Eisa).
  rewrite Hs in Hs'. injection Hs' as Hs1 Hs2. subst s' more'.
  assert (Hcmo : CmoOffsetOf Cfg
                 = sizeof_RHCT_TABLE + sizeof_RHCT_ISA_STRING_NODE
                   + ALIGN_VALUE (AsciiStrSize s) 2).
  { unfold CmoOffsetOf. rewrite Hs. cbn [IsaNodeSize]. lia. }
  assert (Hsz : sizeof_RHCT_ISA_STRING_NODE + ALIGN_VALUE (AsciiStrSize s) 2 < 2 ^ 32).
  { unfold TableSizeOf, HartInfoOffsetOf in *. lia. }
  apply AddIsaStringNode_header in Eisa;
    [| exact Hok | unfold IsaStringOffsetOf; lia | exact Hsz].
  destruct Eisa as (_ & Hty & Hrev & Hlen).
  unfold AsciiStrSize in *. unfold IsaStringOffsetOf in *.
  assert (Hkeep : forall o m, 0 <= o ->
                    o + Z.of_nat m <= sizeof_RHCT_TABLE + sizeof_RHCT_ISA_STRING_NODE ->
                    peek T o m = peek bi o m).
  { intros o m Ho Hom.
    rewrite HHf by (unfold HartInfoOffsetOf; lia).
    apply HCf; lia. }
  split; [rewrite <- Hty; apply load_field_peek; apply Hkeep; lia |].
  split; [rewrite <- Hrev; apply load_field_peek; apply Hkeep; lia |].
  rewrite <- Hlen. unfold load. rewrite Hkeep by lia. reflexivity.
Qed.

End IsaNodeLemmas.

(* ================================================================== *)
(** * AddCmoNodes: the node that is filled                             *)
(* ================================================================== *)

Section CmoNodeLemmas.
Context `{L : RhctDecls}.
Hypothesis Hok : layout_ok = true.
Hypothesis Hcmo : cmo_fields_ok = true.

(** One iteration of the loop of AddCmoNodes. *)
Lemma AddCmoNodes_one (b b' : list byte) (base : Z) (c : CM_RISCV_CMO_NODE) :
  0 <= base ->
  AddCmoNodes b base [c] = Done (EFI_SUCCESS, b') ->
  cmo_node_holds b' base c
  /\ forall o m, 0 <= o ->
       o + Z.of_nat m <= base \/ base + sizeof_RHCT_CMO_NODE <= o ->
       peek b' o m = peek b o m.
Proof.
  pose proof Hok as Hl. layout_facts Hl.
  pose proof Hcmo as Hc. unfold cmo_fields_ok, before in Hc. bool_facts.
  intros Hb Hrun. cbn [AddCmoNodes] in Hrun.
  bind_inv_as Hrun b1 E1. bind_inv_as Hrun b2 E2. bind_inv_as Hrun b3 E3.
  bind_inv_as Hrun b4 E4. bind_inv_as Hrun b5 E5. bind_inv_as Hrun b6 E6.
  inv Hrun. split.
  - unfold cmo_node_holds.
    split.
    { rewrite (load_field_peek b5) by (apply (store_field_frame _ _ _ _ _ _ _ E6); lia).
      rewrite (load_field_peek b4) by (apply (store_field_frame _ _ _ _ _ _ _ E5); lia).
      rewrite (load_field_peek b3) by (apply (store_field_frame _ _ _ _ _ _ _ E4); lia).
      rewrite (load_field_peek b2) by (apply (store_field_frame _ _ _ _ _ _ _ E3); lia).
      rewrite (load_field_peek b1) by (apply (store_field_frame _ _ _ _ _ _ _ E2); lia).
      apply (load_field_same _ _ _ _ _ E1). }
    split.
    { rewrite (load_field_peek b5) by (apply (store_field_frame _ _ _ _ _ _ _ E6); lia).
      rewrite (load_field_peek b4) by (apply (store_field_frame _ _ _ _ _ _ _ E5); lia).
      rewrite (load_field_peek b3) by (apply (store_field_frame _ _ _ _ _ _ _ E4); lia).
      rewrite (load_field_peek b2) by (apply (store_field_frame _ _ _ _ _ _ _ E3); lia).
      rewrite (load_field_same _ _ _ _ _ E2).
      replace (f_size Node_Length) with 2%nat by congruence.
      change (Z.of_nat 2 * 8) with 16. unfold u16.
      rewrite Z.mod_mod by lia. apply Z.mod_small. lia. }
    split.
    { rewrite (load_field_peek b5) by (apply (store_field_frame _ _ _ _ _ _ _ E6); lia).
      rewrite (load_field_peek b4) by (apply (store_field_frame _ _ _ _ _ _ _ E5); lia).
      rewrite (load_field_peek b3) by (apply (store_field_frame _ _ _ _ _ _ _ E4); lia).
      apply (load_field_same _ _ _ _ _ E3). }
    split.
    { rewrite (load_field_peek b5) by (apply (store_field_frame _ _ _ _ _ _ _ E6); lia).
      rewrite (load_field_peek b4) by (apply (store_field_frame _ _ _ _ _ _ _ E5); lia).
      apply (load_field_same _ _ _ _ _ E4). }
    split.
    { rewrite (load_field_peek b5) by (apply (store_field_frame _ _ _ _ _ _ _ E6); lia).
      apply (load_field_same _ _ _ _ _ E5). }
    apply (load_field_same _ _ _ _ _ E6).
  - intros o m Ho Hom.
    rewrite (store_field_frame _ _ _ _ _ o m E6 Ho) by lia.
    rewrite (store_field_frame _ _ _ _ _ o m E5 Ho) by lia.
    rewrite (store_field_frame _ _ _ _ _ o m E4 Ho) by lia.
    rewrite (store_field_frame _ _ _ _ _ o m E3 Ho) by lia.
    rewrite (store_field_frame _ _ _ _ _ o m E2 Ho) by lia.
    rewrite (store_field_frame _ _ _ _ _ o m E1 Ho) by lia.
    reflexivity.
Qed.

Lemma AddCmoNodes_cons (b : list byte) (base : Z) (c : CM_RISCV_CMO_NODE)
  (l : list CM_RISCV_CMO_NODE) (r : EFI_STATUS * list byte) :
  AddCmoNodes b base (c :: l) = Done r ->
  exists b1, AddCmoNodes b base [c] = Done (EFI_SUCCESS, b1)
             /\ AddCmoNodes b1 base l = Done r.
Proof.
  intros Hrun. cbn [AddCmoNodes] in Hrun.
  destruct (store_field b base Node_Type _) as [b1 |] eqn:E1;
    cbn [obind] in Hrun; [| discriminate Hrun].
  destruct (store_field b1 base Node_Length _) as [b2 |] eqn:E2;
    cbn [obind] in Hrun; [| discriminate Hrun].
  destruct (store_field b2 base Node_Revision _) as [b3 |] eqn:E3;
    cbn [obind] in Hrun; [| discriminate Hrun].
  destruct (store_field b3 base Cmo_CbomBlockSize _) as [b4 |] eqn:E4;
    cbn [obind] in Hrun; [| discriminate Hrun].
  destruct (store_field b4 base Cmo_CbopBlockSize _) as [b5 |] eqn:E5;
    cbn [obind] in Hrun; [| discriminate Hrun].
  destruct (store_field b5 base Cmo_CbozBlockSize _) as [b6 |] eqn:E6;
    cbn [obind] in Hrun; [| discriminate Hrun].
  exists b6. split; [| exact Hrun].
  cbn [AddCmoNodes]. rewrite E1. cbn [obind]. rewrite E2. cbn [obind].
  rewrite E3. cbn [obind]. rewrite E4. cbn [obind]. rewrite E5. cbn [obind].
  rewrite E6. reflexivity.
Qed.

Lemma AddCmoNodes_last (pre : list CM_RISCV_CMO_NODE) (c : CM_RISCV_CMO_NODE) :
  forall b base b',
    0 <= base ->
    AddCmoNodes b base (pre ++ [c]) = Done (EFI_SUCCESS, b') ->
    cmo_node_holds b' base c
    /\ forall o m, 0 <= o ->
         o + Z.of_nat m <= base \/ base + sizeof_RHCT_CMO_NODE <= o ->
         peek b' o m = peek b o m.
Proof.
  induction pre as [| x pre IH]; intros b base b' Hb Hrun.
  - apply AddCmoNodes_one; assumption.
  - cbn [app] in Hrun. apply AddCmoNodes_cons in Hrun.
    destruct Hrun as (b1 & H1 & H2).
    apply AddCmoNodes_one in H1; [| exact Hb]. destruct H1 as [_ Hfr1].
    destruct (IH _ _ _ Hb H2) as [Hh Hfr2].
    split; [exact Hh |].
    intros o m Ho Hom. rewrite Hfr2 by assumption. apply Hfr1; assumption.
Qed.

End CmoNodeLemmas.

(** X15.  AddCmoNodes fills one node, whatever the number of CMO
    objects: its node pointer is set before the loop and not advanced.
    After it, the node at NodesStartOffset has the CMO type, the CMO
    node size and version and the block sizes of the last object of the
    list, and every byte outside that node is as it was. *)
Theorem X15_add_cmo_nodes_fills_first_node `{L : RhctDecls}
  (pre : list CM_RISCV_CMO_NODE) (c : CM_RISCV_CMO_NODE)
  (Rhct Rhct' : list byte) (NodesStartOffset : Z) :
  layout_ok = true ->
  cmo_fields_ok = true ->
  0 <= NodesStartOffset ->
  AddCmoNodes Rhct NodesStartOffset (pre ++ [c]) = Done (EFI_SUCCESS, Rhct') ->
  cmo_node_holds Rhct' NodesStartOffset c
  /\ forall o m, 0 <= o ->
       o + Z.of_nat m <= NodesStartOffset
       \/ NodesStartOffset + sizeof_RHCT_CMO_NODE <= o ->
       peek Rhct' o m = peek Rhct o m.
Proof. intros Hok Hc Hb Hrun. eapply AddCmoNodes_last; eassumption. Qed.

(* ================================================================== *)
(** * BuildRhctTable and FreeRhctTableResources: the pool              *)
(* ================================================================== *)

Section BuildPoolLemmas.
Context `{L : RhctDecls}.

Lemma BuildOffsets_heap (h h' : Pool) (n a c x y : Z) (O : option (nat * list Z)) :
  BuildOffsets h n a c x y = Done (O, h') -> h' = snd (AllocateZeroPool h).
Proof.
  unfold BuildOffsets. intros Hrun.
  destruct (AllocateZeroPool h) as [p h0]. cbn [snd].
  bind_inv_as Hrun r1 E1. destruct r1 as [O1 i1].
  bind_inv_as Hrun r2 E2. destruct r2 as [O2 i2].
  inv Hrun. reflexivity.
Qed.

Lemma BuildRhctTable_fill_heap (Timer : list CM_RISCV_TIMER_INFO)
  (Isa : list CM_RISCV_ISA_STRING_NODE) (Cmo : list CM_RISCV_CMO_NODE)
  (Harts : list CM_RISCV_RINTC_INFO) (n : Z) (P : RhctPlan) (b b' : list byte)
  (h h' : Pool) :
  BuildRhctTable_fill Timer Isa Cmo Harts n P b h = Done (EFI_SUCCESS, b', h') ->
  h' = snd (AllocateZeroPool h).
Proof.
  unfold BuildRhctTable_fill. intros Hrun.
  bind_inv_as Hrun t Et.
  bind_inv_as Hrun c1 Ec1. bind_inv_as Hrun c2 Ec2.
  bind_inv_as Hrun c3 Ec3. bind_inv_as Hrun c4 Ec4.
  bind_inv_as Hrun ri Eisa. destruct ri as [si bi].
  destruct (EFI_ERROR si) eqn:Esi; [inv Hrun; cbn [EFI_ERROR] in *; discriminate |].
  bind_inv_as Hrun rc Ecmo. destruct rc as [sc bc].
  destruct (EFI_ERROR sc) eqn:Esc; [inv Hrun; cbn [EFI_ERROR] in *; discriminate |].
  bind_inv_as Hrun ro Eoff. destruct ro as [Offs h2].
  apply BuildOffsets_heap in Eoff.
  destruct (0 <? Count Harts).
  - bind_inv_as Hrun rh Eh. destruct rh as [sh bh]. inv Hrun. reflexivity.
  - inv Hrun. reflexivity.
Qed.

(** The three allocations of a successful build: the node indexer, the
    table and the scratch array of offsets. *)
Lemma BuildRhctTable_success_pool (Info : CM_STD_OBJ_ACPI_TABLE_INFO)
  (Cfg : EDKII_CONFIGURATION_MANAGER_PROTOCOL) (w w' : RhctWorld) :
  BuildRhctTable Info Cfg w = Done (EFI_SUCCESS, w') ->
  exists ni tb ix T h0 h2,
    AllocateZeroPool (Heap w) = (Some ni, h0)
    /\ AllocateZeroPool h0 = (Some tb, h2)
    /\ Heap w' = snd (AllocateZeroPool h2)
    /\ NodeIndexer (Generator w') = Some (ni, ix)
    /\ Table w' = Some (tb, T).
Proof.
  intros H. unfold BuildRhctTable in H.
  destruct (_ || _); [inv H |].
  destruct (GetERiscVObjTimerInfo Cfg) as [s1 Timer].
  destruct (EFI_ERROR s1) eqn:E1;
    [exfalso; eapply error_handler_not_success; eauto |].
  destruct (GetERiscVObjIsaStringInfo Cfg) as [s2 Isa].
  destruct (EFI_ERROR s2) eqn:E2;
    [exfalso; eapply error_handler_not_success; eauto |].
  destruct (GetERiscVObjCmoInfo Cfg) as [s3 Cmo].
  destruct (EFI_ERROR s3 && negb (is_not_found s3)) eqn:E3.
  { exfalso. eapply error_handler_not_success; [| eauto].
    apply andb_prop in E3. tauto. }
  destruct (GetERiscVObjRintcInfo Cfg) as [s4 Rintc].
  destruct (EFI_ERROR s4) eqn:E4;
    [exfalso; eapply error_handler_not_success; eauto |].
  cbn [with_Table Heap] in H.
  destruct (AllocateZeroPool (Heap w)) as [[ni |] h0] eqn:Ea;
    [| exfalso; eapply error_handler_not_success; [| eauto]; reflexivity].
  bind_inv_as H r5 Eplan. destruct r5 as [s5 P].
  destruct (EFI_ERROR s5) eqn:E5;
    [exfalso; eapply error_handler_not_success; eauto |].
  cbn [with_Heap with_Generator Heap] in H.
  destruct (AllocateZeroPool h0) as [[tb |] h2] eqn:Eb;
    [| exfalso; eapply error_handler_not_success; [| eauto]; reflexivity].
  destruct (cm_AddAcpiHeader Cfg (plan_TableSize P)) as [s6 hdr] eqn:Eh.
  destruct (EFI_ERROR s6) eqn:E6;
    [exfalso; eapply error_handler_not_success; eauto |].
  bind_inv_as H T0 Epoke.
  bind_inv_as H r7 Efill. destruct r7 as [[s7 T1] h1].
  destruct (EFI_ERROR s7) eqn:E7;
    [exfalso; eapply error_handler_not_success; eauto |].
  apply EFI_ERROR_false in E7. subst s7.
  cbn [with_Heap with_Table with_Generator Heap Generator] in Efill.
  apply BuildRhctTable_fill_heap in Efill.
  inv H.
  cbn [with_Heap with_Table with_Generator Table Generator Heap set_NodeIndexer
       NodeIndexer].
  exists ni, tb. eexists. eexists. exists h0, h2.
  split; [reflexivity |]. split; [exact Eb |].
  split; [reflexivity |]. split; reflexivity.
Qed.

(** X16.  A successful build followed by FreeRhctTableResources: the
    free does not fault and returns EFI_SUCCESS, it resets the table
    pointer and the node indexer to NULL, and it releases the table and
    the node indexer.  The scratch array of offsets, when its
    allocation was granted, is the one block of the build that stays
    allocated. *)
Theorem X16_build_then_free (Info : CM_STD_OBJ_ACPI_TABLE_INFO)
  (Cfg : EDKII_CONFIGURATION_MANAGER_PROTOCOL) (w w' : RhctWorld) :
  pool_wf (Heap w) = true ->
  BuildRhctTable Info Cfg w = Done (EFI_SUCCESS, w') ->
  exists w'',
    FreeRhctTableResources w' = Done (EFI_SUCCESS, w'')
    /\ Table w'' = None
    /\ NodeIndexer (Generator w'') = None
    /\ pool_live (Heap w'')
       = (if pool_grant (Heap w) (2 + pool_next (Heap w))
          then [(2 + pool_next (Heap w))%nat] else [])
         ++ pool_live (Heap w).
Proof.
  intros Hwf Hbuild.
  destruct (BuildRhctTable_success_pool _ _ _ _ Hbuild)
    as (ni & tb & ix & T & h0 & h2 & Ha & Hb & Hh & Hni & Htb).
  unfold AllocateZeroPool in Ha.
  destruct (pool_grant (Heap w) (pool_next (Heap w))); [| inv Ha].
  inv Ha. unfold AllocateZeroPool in Hb. cbn [pool_next pool_grant pool_live] in Hb.
  destruct (pool_grant (Heap w) (S (pool_next (Heap w)))); [| inv Hb].
  inv Hb. unfold AllocateZeroPool in Hh. cbn [pool_next pool_grant pool_live] in Hh.
  set (n := pool_next (Heap w)) in *. set (Lv := pool_live (Heap w)) in *.
  assert (HnL : filter (fun x => negb (Nat.eqb n x)) Lv = Lv).
  { apply (filter_fresh _ _ n); [exact Hwf | lia]. }
  assert (HsL : filter (fun x => negb (Nat.eqb (S n) x)) Lv = Lv).
  { apply (filter_fresh _ _ n); [exact Hwf | lia]. }
  assert (E1 : Nat.eqb n (S n) = false) by (apply Nat.eqb_neq; lia).
  assert (E2 : Nat.eqb n (S (S n)) = false) by (apply Nat.eqb_neq; lia).
  assert (E3 : Nat.eqb (S n) (S (S n)) = false) by (apply Nat.eqb_neq; lia).
  unfold FreeRhctTableResources. rewrite Hni.
  change (2 + n)%nat with (S (S n)).
  destruct (pool_grant (Heap w) (S (S n))); cbn [snd] in Hh;
    unfold FreePool, is_live; rewrite Hh;
    do 6 (cbn [pool_live pool_next pool_grant existsb filter orb negb obind
               with_Heap with_Generator with_Table Table Heap];
          rewrite ?E1, ?E2, ?E3, ?Nat.eqb_refl, ?HnL, ?HsL, ?Htb);
    (eexists; split; [reflexivity |];
     split; [reflexivity |]; split; reflexivity).
Qed.

End BuildPoolLemmas.

(* ================================================================== *)
(** * BuildRhctTable: the node indexer                                 *)
(* ================================================================== *)

Lemma skipn_repeat {A : Type} (x : A) (n m : nat) :
  skipn n (repeat x m) = repeat x (m - n).
Proof.
  revert m. induction n as [| n IH]; intros m; [rewrite Nat.sub_0_r; reflexivity |].
  destruct m as [| m]; [reflexivity |]. cbn [repeat skipn Nat.sub]. apply IH.
Qed.

Section IndexerLemmas.
Context `{L : RhctDecls}.
Hypothesis Hok : layout_ok = true.

Lemma GetSizeofCmoNodes_loop_cursor (start : Z) (l : list CM_RISCV_CMO_NODE) :
  forall k Size done todo r c',
    0 <= Size -> 0 <= start ->
    start + Size + Count l * sizeof_RHCT_CMO_NODE < 2 ^ 32 ->
    GetSizeofCmoNodes_loop start l k Size (done, todo) = Done (r, c') ->
    c' = (rev (node_entries ObjCmo (start + Size) sizeof_RHCT_CMO_NODE k l) ++ done,
          skipn (length l) todo).
Proof.
  pose proof Hok as Hl. layout_facts Hl.
  induction l as [| x l IH]; intros k Size done todo r c' HS Hst Hb Hrun;
    cbn [GetSizeofCmoNodes_loop] in Hrun.
  - inv Hrun. reflexivity.
  - rewrite Count_cons in Hb. pose proof (Count_nonneg l) as Hc.
    assert (Hm : 0 <= Count l * sizeof_RHCT_CMO_NODE)
      by (apply Z.mul_nonneg_nonneg; lia).
    unfold indexer_put in Hrun. cbn [fst snd] in Hrun.
    destruct todo as [| t todo]; [discriminate Hrun |].
    cbn [obind] in Hrun.
    rewrite u32_small in Hrun by lia. rewrite u64_small in Hrun by lia.
    apply IH in Hrun; [| lia | lia | lia].
    rewrite Hrun. cbn [node_entries rev length skipn].
    rewrite <- app_assoc. cbn [app].
    replace (Size + start) with (start + Size) by lia.
    replace (start + (Size + sizeof_RHCT_CMO_NODE))
      with (start + Size + sizeof_RHCT_CMO_NODE) by lia.
    reflexivity.
Qed.

Lemma GetSizeofHartInfoNodes_loop_cursor (start n sz : Z)
  (l : list CM_RISCV_RINTC_INFO) :
  GetHartInfoSize n = sz -> 0 <= sz ->
  forall k Size done todo r c',
    0 <= Size -> 0 <= start ->
    start + Size + Count l * sz < 2 ^ 32 ->
    GetSizeofHartInfoNodes_loop start l k n Size (done, todo) = Done (r, c') ->
    c' = (rev (node_entries ObjRintc (start + Size) sz k l) ++ done,
          skipn (length l) todo).
Proof.
  intros Hsz Hsz0.
  induction l as [| x l IH]; intros k Size done todo r c' HS Hst Hb Hrun;
    cbn [GetSizeofHartInfoNodes_loop] in Hrun.
  - inv Hrun. reflexivity.
  - rewrite Count_cons in Hb. pose proof (Count_nonneg l) as Hc.
    assert (Hm : 0 <= Count l * sz) by (apply Z.mul_nonneg_nonneg; lia).
    unfold indexer_put in Hrun. cbn [fst snd] in Hrun.
    destruct todo as [| t todo]; [discriminate Hrun |].
    cbn [obind] in Hrun. rewrite Hsz in Hrun.
    rewrite u32_small in Hrun by lia. rewrite u64_small in Hrun by lia.
    apply IH in Hrun; [| lia | lia | lia].
    rewrite Hrun. cbn [node_entries rev length skipn].
    rewrite <- app_assoc. cbn [app].
    replace (Size + start) with (start + Size) by lia.
    replace (start + (Size + sz)) with (start + Size + sz) by lia.
    reflexivity.
Qed.

End IndexerLemmas.

Section IndexerBuildLemmas.
Context `{L : RhctDecls}.
Hypothesis Hok : layout_ok = true.

Lemma BuildRhctTable_success_indexer (Info : CM_STD_OBJ_ACPI_TABLE_INFO)
  (Cfg : EDKII_CONFIGURATION_MANAGER_PROTOCOL) (w w' : RhctWorld) :
  BuildRhctTable Info Cfg w = Done (EFI_SUCCESS, w') ->
  exists P ni,
    BuildRhctTable_plan (IsaListOf Cfg) (CmoListOf Cfg) (HartListOf Cfg)
      (NodeCountOf Cfg) (zero_indexer (NodeCountOf Cfg)) = Done (EFI_SUCCESS, P)
    /\ NodeIndexer (Generator w') = Some (ni, indexer_array (plan_Indexer P))
    /\ RhctNodeCount (Generator w') = NodeCountOf Cfg.
Proof.
  unfold BuildRhctTable, NodeCountOf, zero_indexer, IsaListOf, CmoListOf, HartListOf.
  intros H.
  destruct (_ || _); [discriminate |].
  destruct (GetERiscVObjTimerInfo Cfg) as [s1 Timer].
  destruct (EFI_ERROR s1) eqn:E1;
    [exfalso; eapply error_handler_not_success; eauto |].
  destruct (GetERiscVObjIsaStringInfo Cfg) as [s2 Isa].
  destruct (EFI_ERROR s2) eqn:E2;
    [exfalso; eapply error_handler_not_success; eauto |].
  destruct (GetERiscVObjCmoInfo Cfg) as [s3 Cmo].
  destruct (EFI_ERROR s3 && negb (is_not_found s3)) eqn:E3.
  { exfalso. eapply error_handler_not_success; [| eauto].
    apply andb_prop in E3. tauto. }
  destruct (GetERiscVObjRintcInfo Cfg) as [s4 Rintc].
  destruct (EFI_ERROR s4) eqn:E4;
    [exfalso; eapply error_handler_not_success; eauto |].
  cbn [snd].
  destruct (AllocateZeroPool (Heap (with_Table w None))) as [[ni |] h0] eqn:Ea;
    [| exfalso; eapply error_handler_not_success; [| eauto]; reflexivity].
  bind_inv_as H r5 Eplan. destruct r5 as [s5 P].
  destruct (EFI_ERROR s5) eqn:E5;
    [exfalso; eapply error_handler_not_success; eauto |].
  apply EFI_ERROR_false in E5. subst s5.
  match type of H with
  | context [AllocateZeroPool ?hp] =>
      destruct (AllocateZeroPool hp) as [[tb |] h2] eqn:Eb
  end; [| exfalso; eapply error_handler_not_success; [| eauto]; reflexivity].
  destruct (cm_AddAcpiHeader Cfg (plan_TableSize P)) as [s6 hdr] eqn:Eh.
  destruct (EFI_ERROR s6) eqn:E6;
    [exfalso; eapply error_handler_not_success; eauto |].
  bind_inv_as H T0 Epoke.
  bind_inv_as H r7 Efill. destruct r7 as [[s7 T1] h1].
  destruct (EFI_ERROR s7) eqn:E7;
    [exfalso; eapply error_handler_not_success; eauto |].
  inv H. exists P, ni.
  cbn [with_Heap with_Table with_Generator Table Generator Heap set_NodeIndexer
       NodeIndexer RhctNodeCount].
  split; [reflexivity |]. split; reflexivity.
Qed.

(** The cursor the planner leaves: the entries of the CMO nodes and of
    the Hart-Info nodes, from the first entry of the array on. *)
Lemma BuildRhctTable_plan_indexer (Cfg : EDKII_CONFIGURATION_MANAGER_PROTOCOL)
  (P : RhctPlan) :
  table_fits Cfg = true ->
  BuildRhctTable_plan (IsaListOf Cfg) (CmoListOf Cfg) (HartListOf Cfg)
    (NodeCountOf Cfg) (zero_indexer (NodeCountOf Cfg)) = Done (EFI_SUCCESS, P) ->
  indexer_array (plan_Indexer P) = IndexerOf Cfg.
Proof.
  pose proof Hok as Hl. layout_facts Hl.
  unfold table_fits, TableSizeOf, HartNodeSizeOf, HartInfoOffsetOf, CmoOffsetOf,
    NumOffsetsOf, IsaStringOffsetOf, NodeCountOf, IndexerOf, zero_indexer,
    HartNodeSizeOf, HartInfoOffsetOf, CmoOffsetOf, NumOffsetsOf.
  generalize (IsaListOf Cfg) (CmoListOf Cfg) (HartListOf Cfg).
  intros Isa Cmo Harts Hfit Hrun.
  apply andb_prop in Hfit. destruct Hfit as [Hcnt Hsize].
  apply Z.ltb_lt in Hcnt. apply Z.ltb_lt in Hsize.
  pose proof (Count_nonneg Isa) as HcI. pose proof (Count_nonneg Cmo) as HcC.
  pose proof (Count_nonneg Harts) as HcH.
  pose proof (IsaNodeSize_nonneg Hok Isa) as HsI.
  assert (HN : u32 (u32 (Count Isa + Count Cmo) + Count Harts)
               = Count Isa + Count Cmo + Count Harts).
  { rewrite (u32_small (Count Isa + Count Cmo)) by lia. apply u32_small. lia. }
  rewrite HN in Hrun.
  assert (Hn : u32 (Count Isa + Count Cmo + Count Harts - Count Harts)
               = Count Isa + Count Cmo).
  { replace (Count Isa + Count Cmo + Count Harts - Count Harts)
      with (Count Isa + Count Cmo) by lia. apply u32_small. lia. }
  assert (HszT : u32 sizeof_RHCT_TABLE = sizeof_RHCT_TABLE) by (apply u32_small; lia).
  unfold BuildRhctTable_plan in Hrun. rewrite HszT, Hn in Hrun.
  assert (Hmul1 : 0 <= Count Cmo * sizeof_RHCT_CMO_NODE)
    by (apply Z.mul_nonneg_nonneg; lia).
  assert (Hmul2 : 0 <= Count Harts
            * (sizeof_RHCT_HART_INFO_NODE + 4 * (Count Isa + Count Cmo)))
    by (apply Z.mul_nonneg_nonneg; lia).
  set (zeros := repeat (mkIndexer ObjNull 0)
                  (Z.to_nat (Count Isa + Count Cmo + Count Harts))) in *.
  (* ISA *)
  bind_inv_as Hrun r1 E1. destruct r1 as [[s1 T1] IsaOff].
  destruct (EFI_ERROR s1) eqn:Es1; [inv Hrun; cbn [EFI_ERROR] in *; discriminate |].
  assert (HI : T1 = sizeof_RHCT_TABLE + IsaNodeSize Isa).
  { destruct (0 <? Count Isa) eqn:EI.
    - destruct Isa as [| [[s |]] rest]; try discriminate.
      cbn [IsaString] in E1.
      unfold GetIsaStringNodeSize in E1. unfold IsaNodeSize in *.
      rewrite (u32_small (_ + ALIGN_VALUE _ _)) in E1 by lia.
      destruct (MAX_UINT16 <? _) eqn:Em in E1.
      + inv E1. cbn [EFI_ERROR] in *. discriminate.
      + apply Z.ltb_ge in Em. unfold MAX_UINT16 in Em. cbn [EFI_ERROR] in E1.
        inv E1. rewrite u32_small by lia. reflexivity.
    - inv E1. apply Count_pos_inv in EI. subst Isa. unfold IsaNodeSize. lia. }
  subst T1.
  (* CMO *)
  bind_inv_as Hrun r2 E2. destruct r2 as [[[s2 T2] CmoOff] c2].
  destruct (EFI_ERROR s2) eqn:Es2; [inv Hrun; cbn [EFI_ERROR] in *; discriminate |].
  assert (HC : T2 = sizeof_RHCT_TABLE + IsaNodeSize Isa
                    + Count Cmo * sizeof_RHCT_CMO_NODE
               /\ c2 = (rev (node_entries ObjCmo (sizeof_RHCT_TABLE + IsaNodeSize Isa)
                               sizeof_RHCT_CMO_NODE 0 Cmo),
                        skipn (length Cmo) zeros)).
  { destruct (0 <? Count Cmo) eqn:EC.
    - bind_inv_as E2 r E2'. destruct r as [Size c'].
      unfold GetSizeofCmoNodes in E2'. pose proof E2' as E2c.
      apply GetSizeofCmoNodes_loop_size in E2'; [| exact Hok | lia | lia].
      apply GetSizeofCmoNodes_loop_cursor in E2c; [| exact Hok | lia | lia | lia].
      rewrite Z.add_0_l in E2'. subst Size.
      rewrite Z.add_0_r, app_nil_r in E2c.
      rewrite (u32_small (Count Cmo * _)) in E2 by lia.
      destruct (MAX_UINT32 <? _) in E2; inv E2; [cbn [EFI_ERROR] in *; discriminate |].
      rewrite u32_small by lia. auto.
    - inv E2. apply Count_pos_inv in EC. subst Cmo. unfold Count. cbn [length].
      split; [lia | reflexivity]. }
  destruct HC as [HT2 Hc2]. subst T2 c2.
  (* Hart Info *)
  bind_inv_as Hrun r3 E3. destruct r3 as [[[s3 T3] HartOff] c3].
  destruct (EFI_ERROR s3) eqn:Es3; [inv Hrun; cbn [EFI_ERROR] in *; discriminate |].
  assert (HH : c3 = (rev (node_entries ObjRintc
                            (sizeof_RHCT_TABLE + IsaNodeSize Isa
                             + Count Cmo * sizeof_RHCT_CMO_NODE)
                            (sizeof_RHCT_HART_INFO_NODE + 4 * (Count Isa + Count Cmo))
                            0 Harts)
                     ++ rev (node_entries ObjCmo (sizeof_RHCT_TABLE + IsaNodeSize Isa)
                               sizeof_RHCT_CMO_NODE 0 Cmo),
                     skipn (length Harts) (skipn (length Cmo) zeros))).
  { destruct (0 <? Count Harts) eqn:EH.
    - apply Z.ltb_lt in EH.
      bind_inv_as E3 r E3'. destruct r as [Size c'].
      unfold GetSizeofHartInfoNodes in E3'.
      assert (Hsz : GetHartInfoSize (Count Isa + Count Cmo)
                    = sizeof_RHCT_HART_INFO_NODE + 4 * (Count Isa + Count Cmo)).
      { unfold GetHartInfoSize. apply u32_small.
        assert (1 * (sizeof_RHCT_HART_INFO_NODE + 4 * (Count Isa + Count Cmo))
                <= Count Harts
                   * (sizeof_RHCT_HART_INFO_NODE + 4 * (Count Isa + Count Cmo)))
          by (apply Z.mul_le_mono_nonneg_r; lia).
        lia. }
      apply (GetSizeofHartInfoNodes_loop_cursor _ _ _ _ Hsz) in E3';
        [| lia | lia | lia | lia].
      rewrite Z.add_0_r in E3'. subst c'.
      destruct (MAX_UINT32 <? _) in E3; inv E3; [cbn [EFI_ERROR] in *; discriminate |].
      reflexivity.
    - inv E3. apply Count_pos_inv in EH. subst Harts. reflexivity. }
  subst c3.
  destruct (MAX_UINT32 <? _) in Hrun; inv Hrun. cbn [plan_Indexer].
  unfold indexer_array. cbn [fst snd].
  rewrite rev_append_rev, rev_app_distr, !rev_involutive, <- app_assoc.
  f_equal. f_equal.
  unfold zeros. rewrite !skipn_repeat. f_equal. unfold Count in *. lia.
Qed.

(** X17.  The node indexer a successful build leaves in the generator:
    one entry for each CMO node and then one for each Hart-Info node,
    each with the byte offset of its node in the table, from the first
    entry of the array on.  The ISA string node gets no entry, so as
    many entries as there are ISA objects stay zeroed at the end.
    RhctNodeCount is the number of ISA, CMO and hart objects. *)
Theorem X17_node_indexer_after_build (Info : CM_STD_OBJ_ACPI_TABLE_INFO)
  (Cfg : EDKII_CONFIGURATION_MANAGER_PROTOCOL) (w w' : RhctWorld) :
  table_fits Cfg = true ->
  BuildRhctTable Info Cfg w = Done (EFI_SUCCESS, w') ->
  exists ni,
    NodeIndexer (Generator w') = Some (ni, IndexerOf Cfg)
    /\ RhctNodeCount (Generator w')
       = Count (IsaListOf Cfg) + Count (CmoListOf Cfg) + Count (HartListOf Cfg).
Proof.
  intros Hfit Hbuild.
  destruct (BuildRhctTable_success_indexer _ _ _ _ Hbuild) as (P & ni & Hplan & Hni & Hcnt).
  exists ni. rewrite Hni, Hcnt, (BuildRhctTable_plan_indexer _ _ Hfit Hplan).
  split; [reflexivity |].
  unfold table_fits, NumOffsetsOf in Hfit. bool_facts.
  pose proof (Count_nonneg (IsaListOf Cfg)). pose proof (Count_nonneg (CmoListOf Cfg)).
  pose proof (Count_nonneg (HartListOf Cfg)).
  unfold NodeCountOf.
  rewrite (u32_small (Count (IsaListOf Cfg) + Count (CmoListOf Cfg))) by lia.
  apply u32_small. lia.
Qed.

End IndexerBuildLemmas.

(* ================================================================== *)
(** * The headers of the Hart-Info nodes                               *)
(* ================================================================== *)

Section HartHeaderLemmas.
Context `{L : RhctDecls}.
Hypothesis Hok : layout_ok = true.

Lemma AddHartInfoNodes_loop_header (n : Z) (Offsets : option (nat * list Z))
  (l : list CM_RISCV_RINTC_INFO) :
  forall b base b',
    0 <= base -> 0 <= n ->
    Z.of_nat (length b) < 2 ^ 32 ->
    AddHartInfoNodes_loop b base n Offsets l = Done (EFI_SUCCESS, b') ->
    forall k r, nth_error l k = Some r ->
      let a := base + Z.of_nat k * (sizeof_RHCT_HART_INFO_NODE + 4 * n) in
      load_field b' a Node_Type
      = EFI_ACPI_6_6_RHCT_NODE_TYPE_HART_INFO
        mod 2 ^ (Z.of_nat (f_size Node_Type) * 8)
      /\ load_field b' a Node_Revision
         = EFI_ACPI_6_6_RHCT_HART_INFO_NODE_STRUCTURE_VERSION
           mod 2 ^ (Z.of_nat (f_size Node_Revision) * 8).
Proof.
  pose proof Hok as Hl. layout_facts Hl.
  induction l as [| x l IH]; intros b base b' Hb Hn Hlen Hrun;
    cbn [AddHartInfoNodes_loop] in Hrun.
  - intros [| k] r Hk; discriminate.
  - destruct (MAX_UINT16 <? GetHartInfoSize n) eqn:Emax; [discriminate |].
    apply Z.ltb_ge in Emax.
    bind_inv_as Hrun b1 Et. bind_inv_as Hrun b2 El. bind_inv_as Hrun b3 Er.
    bind_inv_as Hrun b4 En. bind_inv_as Hrun b5 Eu. bind_inv_as Hrun src Es.
    bind_inv_as Hrun b6 Ep.
    pose proof (CopyMem_words_length _ _ _ Hn Es) as Hsrc.
    assert (Hlen6 : length b6 = length b).
    { apply poke_length in Ep.
      apply store_field_length in Et, El, Er, En, Eu. congruence. }
    assert (Hnw : GetHartInfoSize n = sizeof_RHCT_HART_INFO_NODE + 4 * n).
    { unfold GetHartInfoSize. apply u32_small.
      destruct (Z.eq_dec n 0) as [-> | Hn0]; [lia |].
      pose proof (poke_bounds _ _ _ _ Ep) as [_ Ep'].
      assert (Hne : src <> []) by (destruct src; [cbn [length] in Hsrc; lia | congruence]).
      specialize (Ep' Hne).
      pose proof (store_field_length _ _ _ _ _ Et). pose proof (store_field_length _ _ _ _ _ El).
      pose proof (store_field_length _ _ _ _ _ Er). pose proof (store_field_length _ _ _ _ _ En).
      pose proof (store_field_length _ _ _ _ _ Eu).
      assert (length b5 = length b) by congruence. lia. }
    rewrite Hnw in *.
    assert (Hb' : 0 <= base + (sizeof_RHCT_HART_INFO_NODE + 4 * n)) by lia.
    assert (Hlen6' : Z.of_nat (length b6) < 2 ^ 32) by (rewrite Hlen6; exact Hlen).
    pose proof (AddHartInfoNodes_loop_written Hok _ _ _ _ _ _ Hb' Hn Hlen6' Hrun)
      as (_ & Hfr & _).
    intros [| k] r Hk; cbn [nth_error] in Hk.
    + cbv zeta. change (Z.of_nat 0) with 0. rewrite Z.mul_0_l, Z.add_0_r.
      assert (Hpk : forall o m, 0 <= o ->
                o + Z.of_nat m <= base + (sizeof_RHCT_HART_INFO_NODE + 4 * n) ->
                peek b' o m = peek b6 o m) by (intros; apply Hfr; lia).
      split.
      * rewrite (load_field_peek b6) by (apply Hpk; lia).
        rewrite (load_field_peek b5)
          by (apply (peek_poke_other _ _ _ _ _ _ Ep); lia).
        rewrite (load_field_peek b4)
          by (apply (store_field_frame _ _ _ _ _ _ _ Eu); lia).
        rewrite (load_field_peek b3)
          by (apply (store_field_frame _ _ _ _ _ _ _ En); lia).
        rewrite (load_field_peek b2)
          by (apply (store_field_frame _ _ _ _ _ _ _ Er); lia).
        rewrite (load_field_peek b1)
          by (apply (store_field_frame _ _ _ _ _ _ _ El); lia).
        apply (load_field_same _ _ _ _ _ Et).
      * rewrite (load_field_peek b6) by (apply Hpk; lia).
        rewrite (load_field_peek b5)
          by (apply (peek_poke_other _ _ _ _ _ _ Ep); lia).
        rewrite (load_field_peek b4)
          by (apply (store_field_frame _ _ _ _ _ _ _ Eu); lia).
        rewrite (load_field_peek b3)
          by (apply (store_field_frame _ _ _ _ _ _ _ En); lia).
        apply (load_field_same _ _ _ _ _ Er).
    + cbv zeta. pose proof (IH _ _ _ Hb' Hn Hlen6' Hrun k r Hk) as Hnodes.
      cbv zeta in Hnodes.
      replace (base + Z.of_nat (S k) * (sizeof_RHCT_HART_INFO_NODE + 4 * n))
        with (base + (sizeof_RHCT_HART_INFO_NODE + 4 * n)
              + Z.of_nat k * (sizeof_RHCT_HART_INFO_NODE + 4 * n)) by lia.
      exact Hnodes.
Qed.

End HartHeaderLemmas.

Section HartHeaderTheorem.
Context `{L : RhctDecls}.

(** X18.  In a table that BuildRhctTable returns, every Hart-Info node
    has the Hart-Info node type and structure version in its header;
    the nodes lie one after the other from the end of the CMO group,
    each of the same size, and the last one ends where the table
    ends. *)
Theorem X18_hart_node_headers (Info : CM_STD_OBJ_ACPI_TABLE_INFO)
  (Cfg : EDKII_CONFIGURATION_MANAGER_PROTOCOL) (w w' : RhctWorld)
  (tb : nat) (T : list byte) (k : nat) (r : CM_RISCV_RINTC_INFO) :
  layout_ok = true ->
  table_fits Cfg = true ->
  BuildRhctTable Info Cfg w = Done (EFI_SUCCESS, w') ->
  Table w' = Some (tb, T) ->
  nth_error (HartListOf Cfg) k = Some r ->
  load_field T (HartNodeOffsetOf Cfg k) Node_Type
  = EFI_ACPI_6_6_RHCT_NODE_TYPE_HART_INFO mod 2 ^ (Z.of_nat (f_size Node_Type) * 8)
  /\ load_field T (HartNodeOffsetOf Cfg k) Node_Revision
     = EFI_ACPI_6_6_RHCT_HART_INFO_NODE_STRUCTURE_VERSION
       mod 2 ^ (Z.of_nat (f_size Node_Revision) * 8)
  /\ HartNodeOffsetOf Cfg k + HartNodeSizeOf Cfg <= Z.of_nat (length T)
  /\ HartNodeOffsetOf Cfg (length (HartListOf Cfg)) = Z.of_nat (length T).
Proof.
  intros Hok Hfit Hbuild HT Hk.
  destruct (BuildRhctTable_frames Hok _ _ _ _ _ _ Hfit Hbuild HT)
    as (Timer & rest & c1 & c2 & c3 & c4 & bi & bc
        & _ & Hlen1 & _ & _ & _ & _ & _ & _ & HlenT & _ & _ & _ & Hlenc & HH).
  pose proof Hok as Hl. layout_facts Hl.
  pose proof (IsaNodeSize_nonneg Hok (IsaListOf Cfg)) as HsI.
  pose proof (Count_nonneg (IsaListOf Cfg)) as HcI.
  pose proof (Count_nonneg (CmoListOf Cfg)) as HcC.
  assert (Hmul1 : 0 <= Count (CmoListOf Cfg) * sizeof_RHCT_CMO_NODE)
    by (apply Z.mul_nonneg_nonneg; lia).
  pose proof Hfit as Hfit'. unfold table_fits in Hfit'. bool_facts.
  rewrite (nth_error_Count_pos _ _ _ Hk) in HH. destruct HH as (Offs & Eh).
  unfold AddHartInfoNodes in Eh.
  assert (Hn0 : 0 <= NumOffsetsOf Cfg) by (unfold NumOffsetsOf; lia).
  assert (Hsz0 : 0 <= HartNodeSizeOf Cfg) by (unfold HartNodeSizeOf; lia).
  assert (Hkl : (k < length (HartListOf Cfg))%nat)
    by (apply nth_error_Some; congruence).
  apply AddHartInfoNodes_loop_header with (k := k) (r := r) in Eh;
    [| exact Hok | unfold HartInfoOffsetOf, CmoOffsetOf; lia | exact Hn0
     | rewrite Hlenc; lia | exact Hk].
  cbv zeta in Eh. fold (HartNodeSizeOf Cfg) in Eh. fold (HartNodeOffsetOf Cfg k) in Eh.
  destruct Eh as [Hty Hrev].
  split; [exact Hty |]. split; [exact Hrev |].
  rewrite HlenT, Hlen1.
  unfold HartNodeOffsetOf, TableSizeOf, Count.
  split; [| reflexivity].
  assert (Z.of_nat (S k) * HartNodeSizeOf Cfg
          <= Z.of_nat (length (HartListOf Cfg)) * HartNodeSizeOf Cfg)
    by (apply Z.mul_le_mono_nonneg_r; lia).
  lia.
Qed.

End HartHeaderTheorem.

(* ================================================================== *)
(** * The controller scan at a node without its mandatory properties   *)
(* ================================================================== *)

Section ScanErrorLemmas.
Context `{K : IntcDecls}.

(** X19.  When the first PLIC or supervisor-mode APLIC node of the
    tree has neither "riscv,num-sources" nor "riscv,ndev", or has no
    "reg", or a "reg" whose length is not a multiple of 4,
    PlicAplicInfoParser returns EFI_INVALID_PARAMETER: the hart
    records are as they were and nothing is published; the node has
    already been registered in the external controller list. *)
Theorem X19_controller_without_mandatory_property (h : FDT_HW_INFO_PARSER_HANDLE)
  (Node : Z) (Rintc : list CM_RISCV_RINTC_INFO) (st : IntcState) :
  0 < Node < Z.of_nat (length (Fdt h)) ->
  (forall n, 0 < n < Node -> is_ext_intc (Fdt h) n = false) ->
  is_ext_intc (Fdt h) Node = true ->
  (FdtGetProp (Fdt h) Node "riscv,num-sources" = None
   /\ FdtGetProp (Fdt h) Node "riscv,ndev" = None)
  \/ FdtGetProp (Fdt h) Node "reg" = None
  \/ (exists Reg, FdtGetProp (Fdt h) Node "reg" = Some Reg
                  /\ PropLen Reg mod 4 <> 0) ->
  PlicAplicInfoParser h Rintc st
  = (EFI_INVALID_PARAMETER, Rintc, snd (FdtCreateExtIntcList Node 0 st))
  /\ CmObjs (snd (FdtCreateExtIntcList Node 0 st)) = CmObjs st.
Proof.
  intros Hr Hbefore Hq Hbad.
  split.
  2:{ unfold FdtCreateExtIntcList.
      destruct (AllocateZeroPool (IntcHeap st)) as [[b |] hp]; reflexivity. }
  unfold PlicAplicInfoParser.
  rewrite (PlicAplicScan_reaches h Node (Z.to_nat (Node - 1)));
    try lia; try assumption.
  unfold PlicAplicNode.
  destruct Hbad as [[Hs Hn] | [Hreg | (Reg & Hreg & Hlen)]].
  - rewrite Hs, Hn. reflexivity.
  - rewrite Hreg.
    destruct (match FdtGetProp (Fdt h) Node "riscv,num-sources" with
              | Some p => Some p
              | None => FdtGetProp (Fdt h) Node "riscv,ndev"
              end); reflexivity.
  - rewrite Hreg.
    assert (Hm : (0 <? PropLen Reg mod 4) = true).
    { apply Z.ltb_lt. pose proof (Z.mod_pos_bound (PropLen Reg) 4 ltac:(lia)). lia. }
    rewrite Hm.
    destruct (match FdtGetProp (Fdt h) Node "riscv,num-sources" with
              | Some p => Some p
              | None => FdtGetProp (Fdt h) Node "riscv,ndev"
              end); reflexivity.
Qed.

End ScanErrorLemmas.

Lemma X19_witness :
  PlicAplicInfoParser (K := RiscVDecls) (handle_of tree_plic_without_sources)
    sample_records intc_boot
  = (EFI_INVALID_PARAMETER, sample_records,
     snd (FdtCreateExtIntcList 7 0 intc_boot))
  /\ CmObjs (snd (FdtCreateExtIntcList 7 0 intc_boot)) = CmObjs intc_boot.
Proof.
  apply (X19_controller_without_mandatory_property (K := RiscVDecls)
           (handle_of tree_plic_without_sources) 7 sample_records intc_boot).
  - vm_compute. split; reflexivity.
  - intros n Hn. cbn [Fdt handle_of].
    assert (Hcases : n = 1 \/ n = 2 \/ n = 3 \/ n = 4 \/ n = 5 \/ n = 6) by lia.
    repeat (destruct Hcases as [-> | Hcases]; [vm_compute; reflexivity |]).
    subst n. vm_compute. reflexivity.
  - vm_compute. reflexivity.
  - left. split; vm_compute; reflexivity.
Defined.

(* ================================================================== *)
(** * The identifiers of one invocation are distinct                   *)
(* ================================================================== *)

Lemma u32_add_inj (u i j : Z) :
  0 <= i < 2 ^ 32 -> 0 <= j < 2 ^ 32 -> u32 (u + i) = u32 (u + j) -> i = j.
Proof.
  unfold u32. intros Hi Hj H.
  pose proof (Z.div_mod (u + i) (2 ^ 32) ltac:(lia)) as H1.
  pose proof (Z.div_mod (u + j) (2 ^ 32) ltac:(lia)) as H2.
  rewrite H in H1.
  assert (Hq : (u + i) / 2 ^ 32 = (u + j) / 2 ^ 32) by lia.
  lia.
Qed.

Lemma uid_run_NoDup (n : nat) (u : Z) :
  0 <= u < 2 ^ 32 -> Z.of_nat n <= 2 ^ 32 -> NoDup (uid_run n u).
Proof.
  intros Hu Hn. apply NoDup_nth_error. intros i j Hi Hij.
  rewrite uid_run_length in Hi.
  destruct (nth_error (uid_run n u) i) as [v |] eqn:Ei;
    [| apply nth_error_None in Ei; rewrite uid_run_length in Ei; lia].
  symmetry in Hij.
  assert (Hj : (j < n)%nat).
  { rewrite <- (uid_run_length n u). apply nth_error_Some. congruence. }
  apply uid_run_nth in Ei; [| exact Hu]. apply uid_run_nth in Hij; [| exact Hu].
  rewrite Ei in Hij. apply u32_add_inj in Hij; lia.
Qed.

Section DistinctUidLemmas.
Context `{K : IntcDecls}.

(** X20.  The hart records one run of the dispatcher publishes carry
    pairwise different AcpiProcessorUid values (for up to 2^32 harts):
    they are consecutive values of the 32-bit counter. *)
Theorem X20_uids_of_one_run_are_distinct (h : FDT_HW_INFO_PARSER_HANDLE)
  (st st' : IntcState) :
  0 <= ProcUid st < 2 ^ 32 ->
  RiscVIntcDispatcher h st = Done (EFI_SUCCESS, st') ->
  exists R,
    published_harts (CmObjs st') = published_harts (CmObjs st) ++ R
    /\ (Z.of_nat (length R) <= 2 ^ 32 -> NoDup (uids R)).
Proof.
  intros Hu Hrun.
  destruct (RiscVIntcDispatcher_uids _ _ _ _ Hu Hrun eq_refl) as (R & HR & HU & _).
  exists R. split; [exact HR |].
  intros Hn. rewrite HU. apply uid_run_NoDup; assumption.
Qed.

End DistinctUidLemmas.

Lemma X20_witness :
  exists st' R,
    RiscVIntcDispatcher (K := RiscVDecls) (handle_of tree_two_aplic) intc_boot
    = Done (EFI_SUCCESS, st')
    /\ published_harts (CmObjs st') = R
    /\ NoDup (uids R).
Proof.
  eexists.
  match goal with
  | |- exists R, ?A = ?B /\ _ =>
      assert (H : A = B) by (vm_compute; reflexivity)
  end.
  assert (Hu : 0 <= ProcUid intc_boot < 2 ^ 32) by (change (0 <= 0 < 2 ^ 32); lia).
  destruct (X20_uids_of_one_run_are_distinct (K := RiscVDecls) _ _ _ Hu H)
    as (R & H1 & H2).
  exists R. split; [exact H |]. split; [exact H1 |].
  apply H2. change (published_harts (CmObjs intc_boot) ++ R) with R in H1.
  rewrite <- H1. vm_compute. discriminate.
Defined.

(* ================================================================== *)
(** * The properties of the generator at a sample board                *)
(* ================================================================== *)

Lemma X11_witness :
  exists w',
    BuildRhctTable (L := SpecLayout) sample_info sample_board world_boot
    = Done (EFI_SUCCESS, w')
    /\ revision_supported sample_info world_boot = true
    /\ objects_present sample_board = true
    /\ Table w' <> None.
Proof.
  eexists.
  match goal with
  | |- ?A = ?B /\ _ => assert (H : A = B) by (vm_compute; reflexivity)
  end.
  split; [exact H |].
  destruct (X11_build_success_requires (L := SpecLayout) _ _ _ _ H)
    as (H1 & H2 & _ & H4 & _).
  split; [exact H1 |]. split; [exact H2 | exact H4].
Defined.

Lemma X12_witness :
  exists w',
    BuildRhctTable (L := SpecLayout) sample_info
      (sample_cfg (Z.to_nat 16384) [sample_hart 0]) world_boot
    = Done (EFI_INVALID_PARAMETER, w')
    /\ Table w' = None
    /\ NodeIndexer (Generator w') = None.
Proof.
  eexists.
  match goal with
  | |- ?A = ?B /\ _ => assert (H : A = B) by (vm_compute; reflexivity)
  end.
  split; [exact H |].
  destruct (X12_build_failure_leaves_no_table (L := SpecLayout) _ _ _ _ _ H eq_refl)
    as [(Hr & _) | (_ & H1 & H2)]; [discriminate Hr |].
  split; [exact H1 | exact H2].
Defined.

Lemma X13_witness :
  exists w' tb T,
    BuildRhctTable (L := SpecLayout) sample_info sample_board world_boot
    = Done (EFI_SUCCESS, w')
    /\ Table w' = Some (tb, T)
    /\ Z.of_nat (length T) = TableSizeOf (L := SpecLayout) sample_board
    /\ load_field T 0 (Rhct_NodeCount (RhctDecls := SpecLayout)) = 1 + 2 + 2
    /\ load_field T 0 (Rhct_NodeOffset (RhctDecls := SpecLayout)) = 60.
Proof.
  eexists. eexists. eexists.
  match goal with
  | |- ?A = ?B /\ _ => assert (H : A = B) by (vm_compute; reflexivity)
  end.
  split; [exact H |].
  match goal with
  | |- ?A = ?B /\ _ => assert (HT : A = B) by reflexivity
  end.
  split; [exact HT |].
  destruct (X13_rhct_fixed_part (L := SpecLayout) sample_info sample_board
              world_boot _ _ _ eq_refl eq_refl eq_refl H HT)
    as (Timer & rest & _ & H1 & H2 & H3 & _).
  split; [exact H1 |]. split; [exact H2 | exact H3].
Defined.

Lemma X14_witness :
  exists w' tb T,
    BuildRhctTable (L := SpecLayout) sample_info sample_board world_boot
    = Done (EFI_SUCCESS, w')
    /\ Table w' = Some (tb, T)
    /\ load T (60 + 5) 2 = AsciiStrLen sample_isa + 2.
Proof.
  eexists. eexists. eexists.
  match goal with
  | |- ?A = ?B /\ _ => assert (H : A = B) by (vm_compute; reflexivity)
  end.
  split; [exact H |].
  match goal with
  | |- ?A = ?B /\ _ => assert (HT : A = B) by reflexivity
  end.
  split; [exact HT |].
  destruct (X14_isa_node_header (L := SpecLayout) sample_info sample_board
              world_boot _ _ _ sample_isa [] eq_refl eq_refl H HT eq_refl)
    as (_ & _ & H3).
  exact H3.
Defined.

Lemma X15_witness :
  exists Rhct',
    AddCmoNodes (L := SpecLayout) (repeat x00 (Z.to_nat 32)) 8
      ([mkCmo 4 5 6] ++ [mkCmo 6 7 8])
    = Done (EFI_SUCCESS, Rhct')
    /\ cmo_node_holds (H := SpecLayout) Rhct' 8 (mkCmo 6 7 8)
    /\ peek Rhct' 16 16 = repeat x00 16.
Proof.
  eexists.
  match goal with
  | |- ?A = ?B /\ _ => assert (H : A = B) by (vm_compute; reflexivity)
  end.
  split; [exact H |].
  assert (H8 : 0 <= 8) by lia.
  destruct (X15_add_cmo_nodes_fills_first_node (L := SpecLayout)
              [mkCmo 4 5 6] (mkCmo 6 7 8) (repeat x00 (Z.to_nat 32)) _ 8
              eq_refl eq_refl H8 H) as [H1 H2].
  split; [exact H1 |].
  rewrite H2; [reflexivity | lia | right; vm_compute; discriminate].
Defined.

Lemma X16_witness :
  exists w' w'',
    BuildRhctTable (L := SpecLayout) sample_info sample_board world_boot
    = Done (EFI_SUCCESS, w')
    /\ FreeRhctTableResources w' = Done (EFI_SUCCESS, w'')
    /\ pool_live (Heap w'') = [2%nat].
Proof.
  eexists.
  match goal with
  | |- exists w2, ?A = ?B /\ _ => assert (H : A = B) by (vm_compute; reflexivity)
  end.
  destruct (X16_build_then_free (L := SpecLayout) sample_info sample_board
              world_boot _ eq_refl H)
    as (w2 & H1 & _ & _ & H4).
  exists w2. split; [exact H |]. split; [exact H1 | exact H4].
Defined.

Lemma X17_witness :
  exists w' ni,
    BuildRhctTable (L := SpecLayout) sample_info sample_board world_boot
    = Done (EFI_SUCCESS, w')
    /\ NodeIndexer (Generator w')
       = Some (ni, [mkIndexer (ObjCmo 0) 79; mkIndexer (ObjCmo 1) 87;
                    mkIndexer (ObjRintc 0) 95; mkIndexer (ObjRintc 1) 118;
                    mkIndexer ObjNull 0]).
Proof.
  eexists.
  match goal with
  | |- exists n, ?A = ?B /\ _ => assert (H : A = B) by (vm_compute; reflexivity)
  end.
  destruct (X17_node_indexer_after_build (L := SpecLayout) eq_refl sample_info
              sample_board world_boot _ eq_refl H)
    as (ni & H1 & _).
  exists ni. split; [exact H |]. exact H1.
Defined.

Lemma X18_witness :
  exists w' tb T,
    BuildRhctTable (L := SpecLayout) sample_info sample_board world_boot
    = Done (EFI_SUCCESS, w')
    /\ Table w' = Some (tb, T)
    /\ load_field T 118 (Node_Type (RhctDecls := SpecLayout)) = 65535
    /\ Z.of_nat (length T) = 141.
Proof.
  eexists. eexists. eexists.
  match goal with
  | |- ?A = ?B /\ _ => assert (H : A = B) by (vm_compute; reflexivity)
  end.
  split; [exact H |].
  match goal with
  | |- ?A = ?B /\ _ => assert (HT : A = B) by reflexivity
  end.
  split; [exact HT |].
  destruct (X18_hart_node_headers (L := SpecLayout) sample_info sample_board
              world_boot _ _ _ 1%nat (sample_hart 1) eq_refl eq_refl H HT eq_refl)
    as (H1 & _ & _ & H4).
  split; [exact H1 |]. symmetry. exact H4.
Defined.

(* ================================================================== *)
(** * The interrupt files the IMSIC resolver hands out                 *)
(* ================================================================== *)

Lemma Forall2_same {A : Type} (P : A -> A -> Prop) (l : list A) :
  (forall x, P x x) -> Forall2 P l l.
Proof. intros HP. induction l; constructor; auto. Qed.

Lemma Forall2_update_at {A : Type} (P : A -> A -> Prop) (f : A -> A) (l : list A) :
  (forall x, P x x) -> (forall x, P x (f x)) ->
  forall k, Forall2 P l (update_at l k f).
Proof.
  intros Hr Hf. induction l as [| x l IH]; intros k; [destruct k; constructor |].
  destruct k as [| k]; cbn [update_at]; constructor; auto.
  apply Forall2_same. exact Hr.
Qed.

Lemma Forall2_compose {A : Type} (P Q S : A -> A -> Prop) :
  (forall a b c, P a b -> Q b c -> S a c) ->
  forall l1 l2 l3, Forall2 P l1 l2 -> Forall2 Q l2 l3 -> Forall2 S l1 l3.
Proof.
  intros HS l1 l2 l3 H1. revert l3.
  induction H1 as [| a b l1 l2 Hab H1 IH]; intros l3 H2; inversion H2; subst;
    constructor; eauto.
Qed.

Lemma upto_In (n x : Z) : In x (upto n) -> 0 <= x < n.
Proof.
  unfold upto. intros H. apply in_map_iff in H. destruct H as (k & <- & Hk).
  apply in_seq in Hk. lia.
Qed.

Section ImsicPageLemmas.
Context `{K : IntcDecls}.

(** One region: the records the inner loop touches get the pages
    [Idx1], [Idx1 + 1], .. below [Limit] of the region at [Base]. *)
Lemma ImsicHartLoop_pages (fuel : nat) (Fdt : FDT) (IntExtProp : FdtProp)
  (Base Limit NumPhandle : Z) :
  forall Idx1 Idx2 R,
    0 <= Idx1 ->
    Forall2 (fun r r' =>
               r' = r
               \/ exists i, Idx1 <= i < Limit
                            /\ r' = set_Imsic r (u64 (Base + i * IMSIC_MMIO_PAGE_SZ))
                                      IMSIC_MMIO_PAGE_SZ)
      R (snd (ImsicHartLoop fuel Fdt IntExtProp Base Limit NumPhandle Idx1 Idx2 R)).
Proof.
  induction fuel as [| fuel IH]; intros Idx1 Idx2 R H1; cbn [ImsicHartLoop];
    [apply Forall2_same; auto |].
  destruct ((Idx1 <? Limit) && (Idx2 <? NumPhandle)) eqn:Ec;
    [| apply Forall2_same; auto].
  apply andb_prop in Ec. destruct Ec as [Ec _]. apply Z.ltb_lt in Ec.
  destruct (FdtAddressCells _ _ <? 0); [apply Forall2_same; auto |].
  destruct (FdtGetProp _ _ _) as [Data |]; [| apply Forall2_same; auto].
  destruct (negb _ && negb _); [apply Forall2_same; auto |].
  destruct (RiscVFindRintc _ _ _) as [k |]; [| apply Forall2_same; auto].
  eapply Forall2_compose; [| | apply IH; lia].
  2:{ apply (Forall2_update_at
               (fun r r' =>
                  r' = r
                  \/ r' = set_Imsic r (u64 (Base + Idx1 * IMSIC_MMIO_PAGE_SZ))
                            IMSIC_MMIO_PAGE_SZ)); auto. }
  cbv beta. intros a b c Hab Hbc.
  destruct Hbc as [-> | (i & Hi & ->)].
  - destruct Hab as [-> | ->]; [left; reflexivity |].
    right. exists Idx1. split; [lia | reflexivity].
  - right. exists i. split; [lia |].
    destruct Hab as [-> | ->]; reflexivity.
Qed.

Lemma ImsicRegionLoop_pages (Fdt : FDT) (IntExtProp Reg : FdtProp)
  (NumPhandle : Z) (Idxs : list Z) :
  forall Idx2 R,
    Forall2 (fun r r' =>
               r' = r
               \/ exists Idx i,
                    In Idx Idxs
                    /\ 0 <= i < cell64 Reg (Idx * 2 + 1) / IMSIC_MMIO_PAGE_SZ
                    /\ r' = set_Imsic r
                              (u64 (cell64 Reg (Idx * 2) + i * IMSIC_MMIO_PAGE_SZ))
                              IMSIC_MMIO_PAGE_SZ)
      R (snd (ImsicRegionLoop Fdt IntExtProp Reg NumPhandle Idxs Idx2 R)).
Proof.
  induction Idxs as [| Idx Idxs IH]; intros Idx2 R; cbn [ImsicRegionLoop];
    [apply Forall2_same; auto |].
  match goal with
  | |- context [ImsicHartLoop ?f ?t ?p ?b ?l ?n ?i1 ?i2 ?r] =>
      pose proof (ImsicHartLoop_pages f t p b l n i1 i2 r (Z.le_refl 0)) as Hx;
      destruct (ImsicHartLoop f t p b l n i1 i2 r) as [[ret j] R1]
  end.
  cbn [snd] in Hx.
  assert (Hfirst : Forall2 (fun r r' =>
               r' = r
               \/ exists Idx0 i,
                    In Idx0 (Idx :: Idxs)
                    /\ 0 <= i < cell64 Reg (Idx0 * 2 + 1) / IMSIC_MMIO_PAGE_SZ
                    /\ r' = set_Imsic r
                              (u64 (cell64 Reg (Idx0 * 2) + i * IMSIC_MMIO_PAGE_SZ))
                              IMSIC_MMIO_PAGE_SZ) R R1).
  { eapply Forall2_impl; [| exact Hx]. cbv beta.
    intros a b [-> | (i & Hi & ->)]; [left; reflexivity |].
    right. exists Idx, i. split; [left; reflexivity |]. split; [exact Hi | reflexivity]. }
  destruct ret as [e |]; cbn [snd]; [exact Hfirst |].
  eapply Forall2_compose; [| exact Hfirst | apply IH].
  cbv beta. intros a b c Hab Hbc.
  destruct Hbc as [-> | (Idx0 & i & Hin & Hi & ->)]; [exact Hab |].
  right. exists Idx0, i. split; [right; exact Hin |]. split; [exact Hi |].
  destruct Hab as [-> | (Idx1 & i1 & _ & _ & ->)]; reflexivity.
Qed.

Lemma ImsicSModeNode_pages (h : FDT_HW_INFO_PARSER_HANDLE) (Node : Z)
  (IntExtProp : FdtProp) (Rintc : list CM_RISCV_RINTC_INFO) (st : IntcState) :
  FdtNodeIsCompatible (Fdt h) Node ImsicCompatibleInfo = true ->
  Forall2 (imsic_file (Fdt h)) Rintc
    (snd (fst (ImsicSModeNode h Node IntExtProp Rintc st))).
Proof.
  intros Hcompat. unfold ImsicSModeNode.
  assert (Hsame : Forall2 (imsic_file (Fdt h)) Rintc Rintc)
    by (apply Forall2_same; intros x; left; reflexivity).
  destruct (_ =? 0); [exact Hsame |].
  destruct (FdtGetProp (Fdt h) Node "riscv,num-ids") as [p |]; [| exact Hsame].
  destruct (FdtGetProp (Fdt h) Node "reg") as [Reg |] eqn:Hreg; [| exact Hsame].
  destruct (negb _); [exact Hsame |].
  match goal with
  | |- context [ImsicRegionLoop ?t ?p ?r ?n ?ix ?i ?R] =>
      pose proof (ImsicRegionLoop_pages t p r n ix i R) as Hx;
      destruct (ImsicRegionLoop t p r n ix i R) as [ret R1]
  end.
  cbn [snd] in Hx.
  assert (Hpages : Forall2 (imsic_file (Fdt h)) Rintc R1).
  { eapply Forall2_impl; [| exact Hx]. cbv beta. unfold imsic_file.
    intros a b [-> | (Idx & i & Hin & Hi & ->)]; [left; reflexivity |].
    right. exists Node, Reg, Idx, i. apply upto_In in Hin. auto. }
  destruct ret as [e |]; [exact Hpages |].
  destruct (AddSingleCmObj h _ _) as [e s1]. exact Hpages.
Qed.

Lemma ImsicScan_pages (h : FDT_HW_INFO_PARSER_HANDLE) (fuel : nat) :
  forall Prev Rintc st,
    Forall2 (imsic_file (Fdt h)) Rintc (snd (fst (ImsicScan fuel h Prev Rintc st))).
Proof.
  assert (Hsame : forall R, Forall2 (imsic_file (Fdt h)) R R)
    by (intros R; apply Forall2_same; intros x; left; reflexivity).
  induction fuel as [| fuel IH]; intros Prev Rintc st; cbn [ImsicScan];
    [apply Hsame |].
  destruct (FdtNextNode (Fdt h) Prev <? 0); [apply Hsame |].
  destruct (FdtNodeIsCompatible _ _ _) eqn:Hc; [| apply IH].
  destruct (FdtGetProp _ _ "interrupts-extended") as [p |]; [| apply Hsame].
  destruct (negb _); [apply Hsame |].
  destruct (cell32 p 1 =? IRQ_S_EXT); [| apply IH].
  apply ImsicSModeNode_pages. exact Hc.
Qed.

(** X21.  Whatever ImsicRintcInfoParser returns, a hart record it has
    changed holds one interrupt file of a region of "reg" of an IMSIC
    node of the tree: ImsicSize is the page size and ImsicBaseAddress is
    the base of the region plus a page index below the capacity of the
    region (its length divided by the page size), times the page size,
    in 64 bits; its other members are as before. *)
Theorem X21_imsic_files_lie_in_regions (h : FDT_HW_INFO_PARSER_HANDLE)
  (Rintc : list CM_RISCV_RINTC_INFO) (st : IntcState) :
  Forall2 (imsic_file (Fdt h)) Rintc
    (snd (fst (ImsicRintcInfoParser h Rintc st))).
Proof. unfold ImsicRintcInfoParser. apply ImsicScan_pages. Qed.

End ImsicPageLemmas.
